(** * Verification of telegram-webapps (webapps.go)

    A shallow embedding of [VerifyWebAppData] and of the helpers it is built
    from: [parseInitData], [validateRequiredFields], [validateAuthTimestamp],
    [validateDataSignature], [createDataCheckString], [computeHMAC] and
    [decodeUserData].

    Go strings are byte sequences: they are [string] here (a list of 8-bit
    [ascii]).  A [[]byte] is a [list Z] of values below 256.  A
    [map[string]string] is a [gmap string string]; reading a missing key gives
    the empty string, as in Go.  A Go result [(T, error)] is a pair of a [T]
    and an [option error], because Go returns both components at once.

    The functions of Go's standard library that the package calls
    (crypto/sha256, crypto/hmac, crypto/subtle, encoding/hex, net/url,
    strconv, time, sort, strings, encoding/json) are modelled in the modules
    of the first part, each after the library's own code. *)

From Stdlib Require Import ZArith Ascii String List Lia Bool Permutation Sorted.
From stdpp Require Import base option list gmap strings fin_maps sorting.

Local Open Scope string_scope.
Local Open Scope list_scope.
Local Open Scope Z_scope.

(* ===================================================================== *)
(** ** Bytes and strings *)
(* ===================================================================== *)

Definition byte_of_ascii (c : ascii) : Z := Z.of_N (N_of_ascii c).
Definition ascii_of_byte (b : Z) : ascii := ascii_of_N (Z.to_N (b mod 256)).

(** The double quote, byte 34. *)
Definition quote : ascii := Eval cbv in ascii_of_byte 34.

(** The line feed, byte 10, as a string. *)
Definition newline : string :=
  Eval cbv in String (ascii_of_byte 10) EmptyString.

(** A text written with an apostrophe wherever it has a double quote. *)
Fixpoint quoted (s : string) : string :=
  match s with
  | EmptyString => EmptyString
  | String c r => String (if Ascii.eqb c "'" then quote else c) (quoted r)
  end.

(** [[]byte(s)] *)
Fixpoint bytes_of_string (s : string) : list Z :=
  match s with
  | EmptyString => []
  | String c r => byte_of_ascii c :: bytes_of_string r
  end.

(** [string(b)] *)
Fixpoint string_of_bytes (b : list Z) : string :=
  match b with
  | [] => EmptyString
  | x :: r => String (ascii_of_byte x) (string_of_bytes r)
  end.

(* ===================================================================== *)
(** ** crypto/sha256 *)
(* ===================================================================== *)

Module sha256.

Definition u32 (x : Z) : Z := x mod 2 ^ 32.

(** [bits.RotateLeft32(x, -n)] *)
Definition rotr (n x : Z) : Z :=
  Z.lor (Z.shiftr x n) (u32 (Z.shiftl x (32 - n))).

Definition not32 (x : Z) : Z := Z.lxor x 0xffffffff.

Definition _K : list Z :=
  [ 0x428A2F98; 0x71374491; 0xB5C0FBCF; 0xE9B5DBA5;
    0x3956C25B; 0x59F111F1; 0x923F82A4; 0xAB1C5ED5;
    0xD807AA98; 0x12835B01; 0x243185BE; 0x550C7DC3;
    0x72BE5D74; 0x80DEB1FE; 0x9BDC06A7; 0xC19BF174;
    0xE49B69C1; 0xEFBE4786; 0x0FC19DC6; 0x240CA1CC;
    0x2DE92C6F; 0x4A7484AA; 0x5CB0A9DC; 0x76F988DA;
    0x983E5152; 0xA831C66D; 0xB00327C8; 0xBF597FC7;
    0xC6E00BF3; 0xD5A79147; 0x06CA6351; 0x14292967;
    0x27B70A85; 0x2E1B2138; 0x4D2C6DFC; 0x53380D13;
    0x650A7354; 0x766A0ABB; 0x81C2C92E; 0x92722C85;
    0xA2BFE8A1; 0xA81A664B; 0xC24B8B70; 0xC76C51A3;
    0xD192E819; 0xD6990624; 0xF40E3585; 0x106AA070;
    0x19A4C116; 0x1E376C08; 0x2748774C; 0x34B0BCB5;
    0x391C0CB3; 0x4ED8AA4A; 0x5B9CCA4F; 0x682E6FF3;
    0x748F82EE; 0x78A5636F; 0x84C87814; 0x8CC70208;
    0x90BEFFFA; 0xA4506CEB; 0xBEF9A3F7; 0xC67178F2 ].

(** The eight chaining words [dig.h]. *)
Record state := State {
  h0 : Z; h1 : Z; h2 : Z; h3 : Z; h4 : Z; h5 : Z; h6 : Z; h7 : Z
}.

Definition init : state :=
  State 0x6A09E667 0xBB67AE85 0x3C6EF372 0xA54FF53A
        0x510E527F 0x9B05688C 0x1F83D9AB 0x5BE0CD19.

Definition BlockSize : nat := 64.
Definition Size : nat := 32.

(** Big-endian load of the first sixteen words of a chunk. *)
Fixpoint load_words (n : nat) (p : list Z) : list Z :=
  match n with
  | O => []
  | S n' =>
      match p with
      | a :: b :: c :: d :: r =>
          Z.lor (Z.lor (Z.lor (Z.shiftl a 24) (Z.shiftl b 16)) (Z.shiftl c 8)) d
            :: load_words n' r
      | _ => []
      end
  end.

Definition word (w : list Z) (i : nat) : Z := nth i w 0.

(** [for i := 16; i < 64; i++ { w[i] = t1 + w[i-7] + t2 + w[i-16] }] *)
Fixpoint extend (n : nat) (w : list Z) : list Z :=
  match n with
  | O => w
  | S n' =>
      let i := length w in
      let v1 := word w (i - 2) in
      let t1 := Z.lxor (Z.lxor (rotr 17 v1) (rotr 19 v1)) (Z.shiftr v1 10) in
      let v2 := word w (i - 15) in
      let t2 := Z.lxor (Z.lxor (rotr 7 v2) (rotr 18 v2)) (Z.shiftr v2 3) in
      extend n' (w ++ [u32 (t1 + word w (i - 7) + t2 + word w (i - 16))])
  end.

Definition round (s : state) (kw : Z * Z) : state :=
  let '(State a b c d e f g h) := s in
  let t1 := u32 (h + Z.lxor (Z.lxor (rotr 6 e) (rotr 11 e)) (rotr 25 e)
                   + Z.lxor (Z.land e f) (Z.land (not32 e) g)
                   + fst kw + snd kw) in
  let t2 := u32 (Z.lxor (Z.lxor (rotr 2 a) (rotr 13 a)) (rotr 22 a)
                 + Z.lxor (Z.lxor (Z.land a b) (Z.land a c)) (Z.land b c)) in
  State (u32 (t1 + t2)) a b c (u32 (d + t1)) e f g.

(** One iteration of the outer loop of [blockGeneric]. *)
Definition block (s : state) (p : list Z) : state :=
  let w := extend 48 (load_words 16 p) in
  let '(State a b c d e f g h) := fold_left round (combine _K w) s in
  State (u32 (h0 s + a)) (u32 (h1 s + b)) (u32 (h2 s + c)) (u32 (h3 s + d))
        (u32 (h4 s + e)) (u32 (h5 s + f)) (u32 (h6 s + g)) (u32 (h7 s + h)).

Fixpoint blocks (n : nat) (s : state) (p : list Z) : state :=
  match n with
  | O => s
  | S n' => blocks n' (block s (firstn BlockSize p)) (skipn BlockSize p)
  end.

Definition be32 (x : Z) : list Z :=
  [ Z.land (Z.shiftr x 24) 255; Z.land (Z.shiftr x 16) 255;
    Z.land (Z.shiftr x 8) 255; Z.land x 255 ].

Definition be64 (x : Z) : list Z := be32 (Z.shiftr x 32) ++ be32 x.

(** Padding: a 0x80 byte, zeros up to 56 mod 64, the bit length on 8
    bytes. *)
Definition pad (msg : list Z) : list Z :=
  let len := Z.of_nat (length msg) in
  let r := len mod 64 in
  let zeros := if r <? 56 then 55 - r else 64 + 55 - r in
  msg ++ [0x80] ++ repeat 0 (Z.to_nat zeros) ++ be64 (len * 8 mod 2 ^ 64).

Definition digest_words (s : state) : list Z :=
  [h0 s; h1 s; h2 s; h3 s; h4 s; h5 s; h6 s; h7 s].

(** [sha256.Sum256] *)
Definition Sum256 (msg : list Z) : list Z :=
  let p := pad msg in
  concat (map be32 (digest_words (blocks (length p / BlockSize)%nat init p))).

(** A [hash.Hash] made by [sha256.New]: what has been written so far.
    [Write] appends, [Sum(nil)] hashes the whole, [Reset] forgets. *)
Definition digest := list Z.
Definition New : digest := [].
Definition Write (d : digest) (p : list Z) : digest := d ++ p.
Definition Sum (d : digest) : list Z := Sum256 d.

End sha256.

(* ===================================================================== *)
(** ** encoding/hex *)
(* ===================================================================== *)

Module hex.

Definition hextable : string := "0123456789abcdef".

Definition digit (n : Z) : ascii :=
  match String.get (Z.to_nat n) hextable with
  | Some c => c
  | None => "0"%char
  end.

(** [hex.EncodeToString] *)
Fixpoint EncodeToString (src : list Z) : string :=
  match src with
  | [] => EmptyString
  | v :: r =>
      String (digit (Z.shiftr (v mod 256) 4))
        (String (digit (Z.land (v mod 256) 15)) (EncodeToString r))
  end.

End hex.

(* ===================================================================== *)
(** ** crypto/hmac and crypto/subtle *)
(* ===================================================================== *)

Module subtle.

(** [ConstantTimeByteEq(x, y) = int((uint32(x^y) - 1) >> 31)] *)
Definition ConstantTimeByteEq (x y : Z) : Z :=
  Z.shiftr ((Z.lxor x y - 1) mod 2 ^ 32) 31.

(** The loop [for i := 0; i < len(x); i++ { v |= x[i] ^ y[i] }], with the
    number of iterations it runs: the accumulator and the count. *)
Fixpoint accumulate (x y : list Z) (v : Z) (steps : nat) : Z * nat :=
  match x, y with
  | a :: x', b :: y' => accumulate x' y' (Z.lor v (Z.lxor a b)) (S steps)
  | _, _ => (v, steps)
  end.

(** [ConstantTimeCompare]: the result (1 or 0) and the number of loop
    iterations spent. *)
Definition ConstantTimeCompare_steps (x y : list Z) : Z * nat :=
  if negb (length x =? length y)%nat then (0, O)
  else
    let '(v, n) := accumulate x y 0 O in
    (ConstantTimeByteEq v 0, n).

Definition ConstantTimeCompare (x y : list Z) : Z :=
  fst (ConstantTimeCompare_steps x y).

End subtle.

Module hmac.

(** The [hmac] struct: [opad], [ipad] and the two digests. *)
Record t := Hmac {
  opad : list Z;
  ipad : list Z;
  outer : sha256.digest;
  inner : sha256.digest
}.

(** [copy(dst, key)] into a zeroed buffer of [n] bytes. *)
Definition copy_into (n : nat) (key : list Z) : list Z :=
  firstn n key ++ repeat 0 (n - length key)%nat.

(** [hmac.New(sha256.New, key)] *)
Definition New (key : list Z) : t :=
  let outer0 := sha256.New in
  let key' := if (sha256.BlockSize <? length key)%nat
              then sha256.Sum (sha256.Write outer0 key) else key in
  let outer1 := if (sha256.BlockSize <? length key)%nat
                then sha256.Write outer0 key else outer0 in
  let ip := map (fun b => Z.lxor b 0x36) (copy_into sha256.BlockSize key') in
  let op := map (fun b => Z.lxor b 0x5c) (copy_into sha256.BlockSize key') in
  Hmac op ip outer1 (sha256.Write sha256.New ip).

(** [h.Write(p)] *)
Definition Write (h : t) (p : list Z) : t :=
  Hmac (opad h) (ipad h) (outer h) (sha256.Write (inner h) p).

(** [h.Sum(nil)]: the outer digest is reset, fed [opad] and the inner
    sum. *)
Definition Sum (h : t) : list Z :=
  let inn := sha256.Sum (inner h) in
  sha256.Sum (sha256.Write (sha256.Write sha256.New (opad h)) inn).

(** [hmac.Equal(mac1, mac2)] is
    [subtle.ConstantTimeCompare(mac1, mac2) == 1]: the answer, and the
    number of iterations that the loop of the comparison has run. *)
Definition Equal_steps (mac1 mac2 : list Z) : bool * nat :=
  let '(v, steps) := subtle.ConstantTimeCompare_steps mac1 mac2 in
  (v =? 1, steps).

Definition Equal (mac1 mac2 : list Z) : bool :=
  fst (Equal_steps mac1 mac2).

End hmac.



(* ===================================================================== *)
(** ** Errors *)
(* ===================================================================== *)

(** The causes carried by a [strconv.NumError]. *)
Inductive numerr := ErrSyntax | ErrRange.

(** Error values: the six sentinels of the package, the errors of the
    libraries it calls, and the two shapes of [fmt.Errorf] it uses. *)
Inductive error :=
  | ErrInvalidHash
  | ErrUserFieldMissing
  | ErrAuthDateMissing
  | ErrAuthDateInvalid
  | ErrDataExpired
  | ErrInvalidDataFormat
  | EscapeError (s : string)                (* url.EscapeError *)
  | SemicolonError                          (* net/url: invalid semicolon separator in query *)
  | ParamsLimitError                        (* net/url: number of URL query parameters exceeded limit *)
  | NumError (fn num : string) (e : numerr) (* strconv.NumError *)
  | SyntaxError                             (* json.SyntaxError *)
  | UnmarshalTypeError (value field : string) (* json.UnmarshalTypeError *)
  | Errorf_w (prefix : string) (wrapped : error)   (* fmt.Errorf(prefix + ": %w", e) *)
  | Errorf_wv (wrapped : error) (detail : error).  (* fmt.Errorf("%w: %v", e, v) *)


Definition sentinel_eqb (a b : error) : bool :=
  match a, b with
  | ErrInvalidHash, ErrInvalidHash
  | ErrUserFieldMissing, ErrUserFieldMissing
  | ErrAuthDateMissing, ErrAuthDateMissing
  | ErrAuthDateInvalid, ErrAuthDateInvalid
  | ErrDataExpired, ErrDataExpired
  | ErrInvalidDataFormat, ErrInvalidDataFormat => true
  | _, _ => false
  end.

(** [errors.Is(e, target)] for a sentinel [target]: [e] itself or an error it
    wraps with [%w]. *)
Fixpoint errors_Is (e target : error) : bool :=
  sentinel_eqb e target ||
  match e with
  | Errorf_w _ w => errors_Is w target
  | Errorf_wv w _ => errors_Is w target
  | _ => false
  end.

(* ===================================================================== *)
(** ** strings *)
(* ===================================================================== *)

Module strings.

(** [strings.Cut(s, sep)] for a one-byte separator: the text before the
    first [sep] and the text after it; without a [sep], [s] and the empty
    string. *)
Fixpoint Cut (sep : ascii) (s : string) : string * string :=
  match s with
  | EmptyString => (EmptyString, EmptyString)
  | String c r =>
      if Ascii.eqb c sep then (EmptyString, r)
      else let '(a, b) := Cut sep r in (String c a, b)
  end.

(** [strings.Contains(s, sep)] for a one-byte [sep]. *)
Fixpoint Contains (sep : ascii) (s : string) : bool :=
  match s with
  | EmptyString => false
  | String c r => Ascii.eqb c sep || Contains sep r
  end.

(** [strings.Count(s, sep)] for a one-byte [sep]. *)
Fixpoint Count (sep : ascii) (s : string) : Z :=
  match s with
  | EmptyString => 0
  | String c r => (if Ascii.eqb c sep then 1 else 0) + Count sep r
  end.

(** The segments that repeated [Cut(query, sep)] hands out. *)
Fixpoint segments (sep : ascii) (s : string) : list string :=
  match s with
  | EmptyString => [EmptyString]
  | String c r =>
      if Ascii.eqb c sep then EmptyString :: segments sep r
      else match segments sep r with
           | h :: t => String c h :: t
           | [] => [String c EmptyString]
           end
  end.

(** [strings.Join(elems, sep)] *)
Fixpoint Join (elems : list string) (sep : string) : string :=
  match elems with
  | [] => EmptyString
  | [e] => e
  | e :: r => e +:+ sep +:+ Join r sep
  end.

End strings.

(* ===================================================================== *)
(** ** net/url *)
(* ===================================================================== *)

Module url.

Definition ishex (c : ascii) : bool :=
  let b := byte_of_ascii c in
  ((48 <=? b) && (b <=? 57)) || ((97 <=? b) && (b <=? 102))
  || ((65 <=? b) && (b <=? 70)).

Definition unhex (c : ascii) : Z :=
  let b := byte_of_ascii c in
  if (48 <=? b) && (b <=? 57) then b - 48
  else if (97 <=? b) && (b <=? 102) then b - 97 + 10
  else if (65 <=? b) && (b <=? 70) then b - 65 + 10
  else 0.

(** [s[:3]] when [len(s) > 3], else [s]. *)
Definition first3 (s : string) : string := String.substring 0 3 s.

(** First loop of [unescape] in query-component mode: count the [%], note a
    [+], stop at an escape that is not [%] and two hex digits. *)
Fixpoint scan (s : string) (n : nat) (hasPlus : bool) : error + (nat * bool) :=
  match s with
  | EmptyString => inr (n, hasPlus)
  | String c r =>
      if Ascii.eqb c "%" then
        match r with
        | String a (String b r') =>
            if ishex a && ishex b then scan r' (S n) hasPlus
            else inl (EscapeError (first3 s))
        | _ => inl (EscapeError (first3 s))
        end
      else if Ascii.eqb c "+" then scan r n true
      else scan r n hasPlus
  end.

(** Second loop of [unescape]: rewrite [%XX] and [+]. *)
Fixpoint rewrite (s : string) : string :=
  match s with
  | EmptyString => EmptyString
  | String c r =>
      if Ascii.eqb c "%" then
        match r with
        | String a (String b r') =>
            String (ascii_of_byte (Z.lor (Z.shiftl (unhex a) 4) (unhex b)))
                   (rewrite r')
        | _ => EmptyString
        end
      else if Ascii.eqb c "+" then String " " (rewrite r)
      else String c (rewrite r)
  end.

(** [url.QueryUnescape] *)
Definition QueryUnescape (s : string) : string * option error :=
  match scan s O false with
  | inl e => (EmptyString, Some e)
  | inr (n, hasPlus) =>
      if (n =? 0)%nat && negb hasPlus then (s, None)
      else (rewrite s, None)
  end.

(** [shouldEscape(c, encodeQueryComponent)]: everything but letters, digits
    and [-_.~]. *)
Definition shouldEscape (c : ascii) : bool :=
  let b := byte_of_ascii c in
  negb (((97 <=? b) && (b <=? 122)) || ((65 <=? b) && (b <=? 90))
        || ((48 <=? b) && (b <=? 57))
        || (b =? 45) || (b =? 95) || (b =? 46) || (b =? 126)).

Definition upperhex : string := "0123456789ABCDEF".

Definition updigit (n : Z) : ascii :=
  match String.get (Z.to_nat n) upperhex with
  | Some c => c
  | None => "0"%char
  end.

(** [url.QueryEscape] *)
Fixpoint QueryEscape (s : string) : string :=
  match s with
  | EmptyString => EmptyString
  | String c r =>
      if Ascii.eqb c " " then String "+" (QueryEscape r)
      else if shouldEscape c then
        String "%" (String (updigit (Z.shiftr (byte_of_ascii c) 4))
          (String (updigit (Z.land (byte_of_ascii c) 15)) (QueryEscape r)))
      else String c (QueryEscape r)
  end.

(** [url.Values] is a [map[string][]string]. *)
Abbreviation Values := (gmap string (list string)).

(** [v.Get(key)]: the first value of the key, or the empty string. *)
Definition Get (v : Values) (key : string) : string :=
  match v !! key with
  | Some (x :: _) => x
  | _ => EmptyString
  end.

(** One segment of the query: what an iteration of the loop of [parseQuery]
    does to the map and to the error kept so far. *)
Definition parseSegment (st : Values * option error) (key : string)
  : Values * option error :=
  let '(m, err) := st in
  if strings.Contains ";" key then (m, Some SemicolonError)
  else if String.eqb key EmptyString then (m, err)
  else
    let '(key, value) := strings.Cut "=" key in
    match QueryUnescape key with
    | (_, Some err1) => (m, if err is None then Some err1 else err)
    | (key, None) =>
        match QueryUnescape value with
        | (_, Some err1) => (m, if err is None then Some err1 else err)
        | (value, None) => (<[key := default [] (m !! key) ++ [value]]> m, err)
        end
    end.

(** [defaultMaxParams], and [urlParamsWithinMax] with the GODEBUG setting
    [urlmaxqueryparams] left unset. *)
Definition defaultMaxParams : Z := 10000.

Definition urlParamsWithinMax (params : Z) : bool := params <=? defaultMaxParams.

(** [url.ParseQuery]: a query of more parameters than the limit, counted as
    [strings.Count(query, "&") + 1], is refused before anything is parsed;
    otherwise the map of everything that could be parsed, and the first
    error met. *)
Definition ParseQuery (query : string) : Values * option error :=
  if negb (urlParamsWithinMax (strings.Count "&" query + 1))
  then (∅, Some ParamsLimitError)
  else fold_left parseSegment (strings.segments "&" query) (∅, None).

End url.

(* ===================================================================== *)
(** ** strconv *)
(* ===================================================================== *)

Module strconv.

Definition maxUint64 : Z := 2 ^ 64 - 1.

(** The digit loop of [ParseUint(s, 10, 64)], [n] being the value so far;
    [s0] is the whole argument, for the error. *)
Fixpoint parseDigits (s0 s : string) (n : Z) : Z * option error :=
  match s with
  | EmptyString => (n, None)
  | String c r =>
      let b := byte_of_ascii c in
      if (48 <=? b) && (b <=? 57) then
        let d := b - 48 in
        if maxUint64 / 10 + 1 <=? n then
          (maxUint64, Some (NumError "ParseUint" s0 ErrRange))
        else
          let n' := n * 10 in
          let n1 := (n' + d) mod 2 ^ 64 in
          if (n1 <? n') || (maxUint64 <? n1) then
            (maxUint64, Some (NumError "ParseUint" s0 ErrRange))
          else parseDigits s0 r n1
      else (0, Some (NumError "ParseUint" s0 ErrSyntax))
  end.

(** [strconv.ParseUint(s, 10, 64)] *)
Definition ParseUint (s : string) : Z * option error :=
  if String.eqb s EmptyString then (0, Some (NumError "ParseUint" s ErrSyntax))
  else parseDigits s s 0.

(** [strconv.ParseInt(s, 10, 64)] *)
Definition ParseInt (s0 : string) : Z * option error :=
  match s0 with
  | EmptyString => (0, Some (NumError "ParseInt" s0 ErrSyntax))
  | String c r =>
      let neg := Ascii.eqb c "-" in
      let s := if Ascii.eqb c "+" || Ascii.eqb c "-" then r else s0 in
      let cutoff := 2 ^ 63 in
      match ParseUint s with
      | (_, Some (NumError _ _ ErrSyntax)) =>
          (0, Some (NumError "ParseInt" s0 ErrSyntax))
      | (un, _) =>
          if negb neg && (cutoff <=? un) then
            (cutoff - 1, Some (NumError "ParseInt" s0 ErrRange))
          else if neg && (cutoff <? un) then
            (- cutoff, Some (NumError "ParseInt" s0 ErrRange))
          else (if neg then - un else un, None)
      end
  end.

End strconv.

(* ===================================================================== *)
(** ** time *)
(* ===================================================================== *)

Module time.

(** Two's-complement wrap-around of [int64] arithmetic. *)
Definition int64 (x : Z) : Z := (x + 2 ^ 63) mod 2 ^ 64 - 2 ^ 63.

(** A [Duration] is an [int64] count of nanoseconds. *)
Definition Second : Z := 1000000000.
Definition Hour : Z := 3600 * Second.
Definition minDuration : Z := - 2 ^ 63.
Definition maxDuration : Z := 2 ^ 63 - 1.

(** [unixToInternal]: the seconds from January 1, year 1 to the Unix epoch,
    62135596800. *)
Definition unixToInternal : Z :=
  (1969 * 365 + 1969 / 4 - 1969 / 100 + 1969 / 400) * 86400.

(** A [Time] read through its accessors [t.sec()] and [t.nsec()]: the
    seconds since January 1, year 1 (an [int64]) and the nanoseconds within
    the second.  The monotonic clock reading is left out: [Sub] uses it only
    when both operands carry one, and a [Time] made by [Unix] carries
    none. *)
Record Time := mkTime { sec : Z; nsec : Z }.

(** [time.Unix(sec, nsec)]: the nanoseconds are brought into [0, 1e9) and the
    result is [unixTime(sec, nsec)], that is
    [Time{uint64(nsec), sec + unixToInternal, Local}], the sum being an
    [int64] sum. *)
Definition Unix (s n : Z) : Time :=
  if (n <? 0) || (1000000000 <=? n) then
    let q := Z.quot n 1000000000 in
    let s1 := int64 (s + q) in
    let n1 := int64 (n - int64 (q * 1000000000)) in
    if n1 <? 0 then mkTime (int64 (int64 (s1 - 1) + unixToInternal)) (n1 + 1000000000)
    else mkTime (int64 (s1 + unixToInternal)) n1
  else mkTime (int64 (s + unixToInternal)) n.

(** The wall clock read by [time.Now()], given as Unix seconds and
    nanoseconds: [t.sec()] is [sec + unixToInternal]. *)
Definition Now (unix_sec unix_nsec : Z) : Time :=
  mkTime (int64 (unix_sec + unixToInternal)) unix_nsec.

(** [t.addSec(d)]:
    [sum := t.ext + d; if (sum > t.ext) == (d > 0) { t.ext = sum }
     else if d > 0 { t.ext = 1<<63 - 1 } else { t.ext = -(1<<63 - 1) }]. *)
Definition addSec (t : Time) (d : Z) : Time :=
  let sum := int64 (sec t + d) in
  if Bool.eqb (sec t <? sum) (0 <? d) then mkTime sum (nsec t)
  else if 0 <? d then mkTime (2 ^ 63 - 1) (nsec t)
  else mkTime (- (2 ^ 63 - 1)) (nsec t).

(** [t.Add(d)]: [dsec := int64(d / 1e9); nsec := t.nsec() + int32(d % 1e9)],
    one second carried either way, then [t.addSec(dsec)]. *)
Definition Add (t : Time) (d : Z) : Time :=
  let dsec := Z.quot d 1000000000 in
  let ns := nsec t + Z.rem d 1000000000 in
  if 1000000000 <=? ns then addSec (mkTime (sec t) (ns - 1000000000)) (dsec + 1)
  else if ns <? 0 then addSec (mkTime (sec t) (ns + 1000000000)) (dsec - 1)
  else addSec (mkTime (sec t) ns) dsec.

(** [t.Equal(u)]: [t.sec() == u.sec() && t.nsec() == u.nsec()]. *)
Definition Equal (t u : Time) : bool :=
  (sec t =? sec u) && (nsec t =? nsec u).

(** [t.Before(u)]: [ts < us || ts == us && t.nsec() < u.nsec()]. *)
Definition Before (t u : Time) : bool :=
  (sec t <? sec u) || ((sec t =? sec u) && (nsec t <? nsec u)).

(** [t.Sub(u)]:
    [d := Duration(t.sec()-u.sec())*Second + Duration(t.nsec()-u.nsec())],
    returned when [u.Add(d).Equal(t)]; else [minDuration] when [t.Before(u)],
    else [maxDuration]. *)
Definition Sub (t u : Time) : Z :=
  let d := int64 (int64 (int64 (sec t - sec u) * Second)
                  + int64 (nsec t - nsec u)) in
  if Equal (Add u d) t then d
  else if Before t u then minDuration
  else maxDuration.

(** [time.Since(t)] is [Now().Sub(t)] for a [t] without a monotonic
    reading; [now] is the clock read by [Now()]. *)
Definition Since (now t : Time) : Z := Sub now t.

End time.

(* ===================================================================== *)
(** ** sort *)
(* ===================================================================== *)

Module sort.

(** The order [<] of Go strings: byte by byte, a proper prefix first. *)
Fixpoint less (a b : string) : bool :=
  match a, b with
  | EmptyString, EmptyString => false
  | EmptyString, String _ _ => true
  | String _ _, EmptyString => false
  | String x a', String y b' =>
      if byte_of_ascii x <? byte_of_ascii y then true
      else if byte_of_ascii y <? byte_of_ascii x then false
      else less a' b'
  end.

(** Insertion of a string into an increasing list, before the first element
    that is not below it. *)
Fixpoint insert (x : string) (l : list string) : list string :=
  match l with
  | [] => [x]
  | y :: r => if less y x then y :: insert x r else x :: l
  end.

(** [sort.Strings]: the list in increasing order.  Strings that compare
    equal are the same string, so every sorting algorithm gives this
    list. *)
Fixpoint Strings (l : list string) : list string :=
  match l with
  | [] => []
  | x :: r => insert x (Strings r)
  end.

End sort.

(* ===================================================================== *)
(** ** The user profile *)
(* ===================================================================== *)

(** [type WebAppUser struct], with the JSON name of each field in its tag. *)
Record WebAppUser := mkWebAppUser {
  ID : Z;                          (* json:"id" *)
  IsBot : bool;                    (* json:"is_bot" *)
  IsPremium : bool;                (* json:"is_premium" *)
  FirstName : string;              (* json:"first_name" *)
  LastName : string;               (* json:"last_name" *)
  Username : string;               (* json:"username" *)
  LanguageCode : string;           (* json:"language_code" *)
  AddedToAttachmentMenu : bool;    (* json:"added_to_attachment_menu" *)
  AllowsWriteToPm : bool;          (* json:"allows_write_to_pm" *)
  PhotoURL : string                (* json:"photo_url" *)
}.

(** [WebAppUser{}] *)
Definition zeroUser : WebAppUser :=
  mkWebAppUser 0 false false EmptyString EmptyString EmptyString
               EmptyString false false EmptyString.

(* ===================================================================== *)
(** ** encoding/json, for a [*WebAppUser] target *)
(* ===================================================================== *)

Module json.

(** *** The scanner (scanner.go) *)

Inductive pstate := parseObjectKey | parseObjectValue | parseArrayValue.

(** The step functions of the scanner.  [stateT], [stateTr], ... are one
    state [Lit] holding the letters still expected. *)
Inductive sstate :=
  | BeginValueOrEmpty | BeginValue | BeginStringOrEmpty | BeginString
  | EndValue | EndTop
  | InString | InStringEsc
  | InStringEscU | InStringEscU1 | InStringEscU12 | InStringEscU123
  | Neg | St1 | St0 | Dot | Dot0 | StE | ESign | E0
  | Lit (rest : string).

(** What the decoder needs of a value: its kind, and its text when it is a
    literal. *)
Inductive summary :=
  | SNull | SBool (b : bool) | SNumber (text : string) | SString (text : string)
  | SArray | SObject.

(** The scanner, and what the decoder reads through it: the literal under
    way, the pending key, the top-level value and the members of a top-level
    object, in the order of the text. *)
Record scanner := mkScanner {
  step : sstate;
  parseState : list pstate;          (* top of the stack first *)
  endTop : bool;
  lit : string;
  key : string;
  top : option summary;
  members : list (string * summary)
}.

Definition maxNestingDepth : Z := 10000.

Definition isSpace (c : ascii) : bool :=
  let b := byte_of_ascii c in (b =? 32) || (b =? 9) || (b =? 13) || (b =? 10).

Definition isDigit (c : ascii) : bool :=
  let b := byte_of_ascii c in (48 <=? b) && (b <=? 57).

Definition isDigit19 (c : ascii) : bool :=
  let b := byte_of_ascii c in (49 <=? b) && (b <=? 57).

Definition isHex (c : ascii) : bool := url.ishex c.

Definition with_step (s : scanner) (st : sstate) : scanner :=
  mkScanner st (parseState s) (endTop s) (lit s) (key s) (top s) (members s).

Definition with_stack (s : scanner) (ps : list pstate) : scanner :=
  mkScanner (step s) ps (endTop s) (lit s) (key s) (top s) (members s).

(** A byte that continues the literal under way. *)
Definition continue (s : scanner) (c : ascii) (st : sstate) : scanner :=
  mkScanner st (parseState s) (endTop s) (lit s +:+ String c EmptyString)
            (key s) (top s) (members s).

(** A byte that begins a literal. *)
Definition begin (s : scanner) (c : ascii) (st : sstate) : scanner :=
  mkScanner st (parseState s) (endTop s) (String c EmptyString)
            (key s) (top s) (members s).

(** *** Strings (decode.go, unicode/utf8, unicode/utf16) *)

Definition replacement : string :=
  String (ascii_of_byte 0xEF) (String (ascii_of_byte 0xBF)
    (String (ascii_of_byte 0xBD) EmptyString)).

(** [utf8.EncodeRune] *)
Definition encodeRune (r : Z) : string :=
  if r <? 0 then replacement
  else if r <? 0x80 then String (ascii_of_byte r) EmptyString
  else if r <? 0x800 then
    String (ascii_of_byte (Z.lor 0xC0 (Z.shiftr r 6)))
      (String (ascii_of_byte (Z.lor 0x80 (Z.land r 0x3F))) EmptyString)
  else if (0xD800 <=? r) && (r <? 0xE000) then replacement
  else if r <? 0x10000 then
    String (ascii_of_byte (Z.lor 0xE0 (Z.shiftr r 12)))
      (String (ascii_of_byte (Z.lor 0x80 (Z.land (Z.shiftr r 6) 0x3F)))
        (String (ascii_of_byte (Z.lor 0x80 (Z.land r 0x3F))) EmptyString))
  else if r <? 0x110000 then
    String (ascii_of_byte (Z.lor 0xF0 (Z.shiftr r 18)))
      (String (ascii_of_byte (Z.lor 0x80 (Z.land (Z.shiftr r 12) 0x3F)))
        (String (ascii_of_byte (Z.lor 0x80 (Z.land (Z.shiftr r 6) 0x3F)))
          (String (ascii_of_byte (Z.lor 0x80 (Z.land r 0x3F))) EmptyString)))
  else replacement.

Definition between (lo hi : Z) (c : ascii) : bool :=
  (lo <=? byte_of_ascii c) && (byte_of_ascii c <=? hi).

(** The length of the well-formed UTF-8 sequence that [c] begins in front
    of [r], or 0 when there is none ([utf8.DecodeRune] gives [RuneError]
    with size 1). *)
Definition runeLen (c : ascii) (r : string) : nat :=
  let cont := between 0x80 0xBF in
  let second lo hi :=
    match r with String x _ => between lo hi x | _ => false end in
  let third :=
    match r with String _ (String y _) => cont y | _ => false end in
  let fourth :=
    match r with String _ (String _ (String z _)) => cont z | _ => false end in
  if between 0xC2 0xDF c then (if second 0x80 0xBF then 2 else 0)
  else if between 0xE0 0xE0 c then (if second 0xA0 0xBF && third then 3 else 0)
  else if between 0xE1 0xEC c then (if second 0x80 0xBF && third then 3 else 0)
  else if between 0xED 0xED c then (if second 0x80 0x9F && third then 3 else 0)
  else if between 0xEE 0xEF c then (if second 0x80 0xBF && third then 3 else 0)
  else if between 0xF0 0xF0 c then
    (if second 0x90 0xBF && third && fourth then 4 else 0)
  else if between 0xF1 0xF3 c then
    (if second 0x80 0xBF && third && fourth then 4 else 0)
  else if between 0xF4 0xF4 c then
    (if second 0x80 0x8F && third && fourth then 4 else 0)
  else 0%nat.

(** [getu4]: the code unit of a [\uXXXX] escape at the head of [s], or -1. *)
Definition getu4 (s : string) : Z :=
  match s with
  | String b (String u (String h1 (String h2 (String h3 (String h4 _))))) =>
      if Ascii.eqb b "\" && Ascii.eqb u "u"
         && isHex h1 && isHex h2 && isHex h3 && isHex h4
      then Z.lor (Z.lor (Z.lor (Z.shiftl (url.unhex h1) 12)
                               (Z.shiftl (url.unhex h2) 8))
                        (Z.shiftl (url.unhex h3) 4)) (url.unhex h4)
      else -1
  | _ => -1
  end.

(** [utf16.DecodeRune] *)
Definition decodeSurrogates (r1 r2 : Z) : Z :=
  if (0xD800 <=? r1) && (r1 <? 0xDC00) && (0xDC00 <=? r2) && (r2 <? 0xE000)
  then Z.lor (Z.shiftl (r1 - 0xD800) 10) (r2 - 0xDC00) + 0x10000
  else 0xFFFD.

(** The loop of [unquoteBytes] over the text between the quotes; [skip]
    bytes of it belong to an escape or rune already written out. *)
Fixpoint unquoteBody (skip : nat) (s : string) : string :=
  match s with
  | EmptyString => EmptyString
  | String c r =>
      match skip with
      | S k => unquoteBody k r
      | O =>
          if Ascii.eqb c "\" then
            match r with
            | String e r' =>
                if Ascii.eqb e "u" then
                  let rr := getu4 s in
                  if (0xD800 <=? rr) && (rr <? 0xE000) then
                    let dec := decodeSurrogates rr (getu4 (String.substring 5 6 r)) in
                    if dec =? 0xFFFD then replacement +:+ unquoteBody 5 r
                    else encodeRune dec +:+ unquoteBody 11 r
                  else encodeRune rr +:+ unquoteBody 5 r
                else
                  let out :=
                    if Ascii.eqb e "b" then ascii_of_byte 8
                    else if Ascii.eqb e "f" then ascii_of_byte 12
                    else if Ascii.eqb e "n" then ascii_of_byte 10
                    else if Ascii.eqb e "r" then ascii_of_byte 13
                    else if Ascii.eqb e "t" then ascii_of_byte 9
                    else e in
                  String out (unquoteBody 1 r)
            | EmptyString => EmptyString
            end
          else if byte_of_ascii c <? 0x80 then String c (unquoteBody 0 r)
          else
            match runeLen c r with
            | O => replacement +:+ unquoteBody 0 r
            | S k => String c (String.substring 0 k r) +:+ unquoteBody k r
            end
      end
  end.

(** [unquoteBytes], for a literal the scanner accepted: the quotes go, the
    escapes are replaced, ill-formed UTF-8 becomes U+FFFD. *)
Definition unquote (literal : string) : string :=
  match literal with
  | String _ body =>
      unquoteBody 0 (String.substring 0 (String.length body - 1) body)
  | EmptyString => EmptyString
  end.

(** [foldName], as far as it can make a key equal to an ASCII name: ASCII
    letters go to upper case, U+017F (long s) to S and U+212A (Kelvin sign)
    to K. *)
Fixpoint foldName (s : string) : string :=
  match s with
  | EmptyString => EmptyString
  | String c r =>
      let b := byte_of_ascii c in
      if (97 <=? b) && (b <=? 122) then String (ascii_of_byte (b - 32)) (foldName r)
      else
        match r with
        | String c1 r1 =>
            if (b =? 0xC5) && (byte_of_ascii c1 =? 0xBF) then String "S" (foldName r1)
            else
              match r1 with
              | String c2 r2 =>
                  if (b =? 0xE2) && (byte_of_ascii c1 =? 0x84)
                     && (byte_of_ascii c2 =? 0xAA)
                  then String "K" (foldName r2)
                  else String c (foldName r)
              | EmptyString => String c (foldName r)
              end
        | EmptyString => String c EmptyString
        end
  end.

(** *** The scanner steps, with what the decoder records *)

Definition summary_of (literal : string) : summary :=
  match literal with
  | String c _ =>
      if Ascii.eqb c quote then SString literal
      else if Ascii.eqb c "t" then SBool true
      else if Ascii.eqb c "f" then SBool false
      else if Ascii.eqb c "n" then SNull
      else SNumber literal
  | EmptyString => SNull
  end.

(** A value has been read.  At the top level it is the value decoded; as a
    member of the top-level object it is kept with its key; deeper it is
    skipped. *)
Definition record (s : scanner) (v : summary) : scanner :=
  match parseState s with
  | [] =>
      mkScanner (step s) (parseState s) (endTop s) EmptyString (key s)
                (Some v) (members s)
  | [parseObjectValue] =>
      mkScanner (step s) (parseState s) (endTop s) EmptyString (key s)
                (top s) (members s ++ [(key s, v)])
  | _ =>
      mkScanner (step s) (parseState s) (endTop s) EmptyString (key s)
                (top s) (members s)
  end.

(** The literal under way, if any, is complete: a key of the top-level
    object is unquoted and kept, anything else is a value. *)
Definition finish (s : scanner) : scanner :=
  match lit s with
  | EmptyString => s
  | literal =>
      match parseState s with
      | [parseObjectKey] =>
          mkScanner (step s) (parseState s) (endTop s) EmptyString
                    (unquote literal) (top s) (members s)
      | _ => record s (summary_of literal)
      end
  end.

(** [s.pushParseState]: fails beyond the nesting limit. *)
Definition pushParseState (s : scanner) (p : pstate) (st : sstate)
  : option scanner :=
  let ps := p :: parseState s in
  if Z.of_nat (length ps) <=? maxNestingDepth
  then Some (with_step (with_stack s ps) st)
  else None.

(** [s.popParseState] *)
Definition popParseState (s : scanner) : scanner :=
  match parseState s with
  | [] => s
  | [_] =>
      mkScanner EndTop [] true (lit s) (key s) (top s) (members s)
  | _ :: ps => with_step (with_stack s ps) EndValue
  end.

Definition stateEndTop (s : scanner) (c : ascii) : option scanner :=
  if isSpace c then Some s else None.

Definition stateEndValue (s0 : scanner) (c : ascii) : option scanner :=
  let s := finish s0 in
  match parseState s with
  | [] =>
      stateEndTop
        (mkScanner EndTop [] true (lit s) (key s) (top s) (members s)) c
  | ps :: below =>
      if isSpace c then Some (with_step s EndValue)
      else
        match ps with
        | parseObjectKey =>
            if Ascii.eqb c ":"
            then Some (with_step (with_stack s (parseObjectValue :: below)) BeginValue)
            else None
        | parseObjectValue =>
            if Ascii.eqb c ","
            then Some (with_step (with_stack s (parseObjectKey :: below)) BeginString)
            else if Ascii.eqb c "}" then Some (popParseState s)
            else None
        | parseArrayValue =>
            if Ascii.eqb c "," then Some (with_step s BeginValue)
            else if Ascii.eqb c "]" then Some (popParseState s)
            else None
        end
  end.

Definition stateBeginValue (s : scanner) (c : ascii) : option scanner :=
  if isSpace c then Some s
  else if Ascii.eqb c "{" then pushParseState (record s SObject) parseObjectKey BeginStringOrEmpty
  else if Ascii.eqb c "[" then pushParseState (record s SArray) parseArrayValue BeginValueOrEmpty
  else if Ascii.eqb c quote then Some (begin s c InString)
  else if Ascii.eqb c "-" then Some (begin s c Neg)
  else if Ascii.eqb c "0" then Some (begin s c St0)
  else if Ascii.eqb c "t" then Some (begin s c (Lit "rue"))
  else if Ascii.eqb c "f" then Some (begin s c (Lit "alse"))
  else if Ascii.eqb c "n" then Some (begin s c (Lit "ull"))
  else if isDigit19 c then Some (begin s c St1)
  else None.

Definition stateBeginString (s : scanner) (c : ascii) : option scanner :=
  if isSpace c then Some s
  else if Ascii.eqb c quote then Some (begin s c InString)
  else None.

Definition state0 (s : scanner) (c : ascii) : option scanner :=
  if Ascii.eqb c "." then Some (continue s c Dot)
  else if Ascii.eqb c "e" || Ascii.eqb c "E" then Some (continue s c StE)
  else stateEndValue s c.

Definition stateESign (s : scanner) (c : ascii) : option scanner :=
  if isDigit c then Some (continue s c E0) else None.

(** [s.step(s, c)] *)
Definition stepByte (s : scanner) (c : ascii) : option scanner :=
  match step s with
  | BeginValueOrEmpty =>
      if isSpace c then Some s
      else if Ascii.eqb c "]" then stateEndValue s c
      else stateBeginValue s c
  | BeginValue => stateBeginValue s c
  | BeginStringOrEmpty =>
      if isSpace c then Some s
      else if Ascii.eqb c "}" then
        match parseState s with
        | _ :: below => stateEndValue (with_stack s (parseObjectValue :: below)) c
        | [] => None
        end
      else stateBeginString s c
  | BeginString => stateBeginString s c
  | EndValue => stateEndValue s c
  | EndTop => stateEndTop s c
  | InString =>
      if Ascii.eqb c quote then Some (continue s c EndValue)
      else if Ascii.eqb c "\" then Some (continue s c InStringEsc)
      else if byte_of_ascii c <? 0x20 then None
      else Some (continue s c InString)
  | InStringEsc =>
      if Ascii.eqb c "b" || Ascii.eqb c "f" || Ascii.eqb c "n" || Ascii.eqb c "r"
         || Ascii.eqb c "t" || Ascii.eqb c "\" || Ascii.eqb c "/" || Ascii.eqb c quote
      then Some (continue s c InString)
      else if Ascii.eqb c "u" then Some (continue s c InStringEscU)
      else None
  | InStringEscU => if isHex c then Some (continue s c InStringEscU1) else None
  | InStringEscU1 => if isHex c then Some (continue s c InStringEscU12) else None
  | InStringEscU12 => if isHex c then Some (continue s c InStringEscU123) else None
  | InStringEscU123 => if isHex c then Some (continue s c InString) else None
  | Neg =>
      if Ascii.eqb c "0" then Some (continue s c St0)
      else if isDigit19 c then Some (continue s c St1)
      else None
  | St1 => if isDigit c then Some (continue s c St1) else state0 s c
  | St0 => state0 s c
  | Dot => if isDigit c then Some (continue s c Dot0) else None
  | Dot0 =>
      if isDigit c then Some (continue s c Dot0)
      else if Ascii.eqb c "e" || Ascii.eqb c "E" then Some (continue s c StE)
      else stateEndValue s c
  | StE =>
      if Ascii.eqb c "+" || Ascii.eqb c "-" then Some (continue s c ESign)
      else stateESign s c
  | ESign => stateESign s c
  | E0 => if isDigit c then Some (continue s c E0) else stateEndValue s c
  | Lit rest =>
      match rest with
      | String x EmptyString =>
          if Ascii.eqb c x then Some (continue s c EndValue) else None
      | String x more =>
          if Ascii.eqb c x then Some (continue s c (Lit more)) else None
      | EmptyString => None
      end
  end.

(** [scan.reset()] *)
Definition reset : scanner :=
  mkScanner BeginValue [] false EmptyString EmptyString None [].

Fixpoint scanBytes (s : scanner) (data : string) : option scanner :=
  match data with
  | EmptyString => Some s
  | String c r =>
      match stepByte s c with
      | Some s' => scanBytes s' r
      | None => None
      end
  end.

(** [scan.eof()] *)
Definition eof (s : scanner) : option scanner :=
  if endTop s then Some s
  else
    match stepByte s " " with
    | Some s' => if endTop s' then Some s' else None
    | None => None
    end.

(** [checkValid]: the scanner at the end of a well-formed text, [None] for a
    syntax error. *)
Definition checkValid (data : string) : option scanner :=
  match scanBytes reset data with
  | Some s => eof s
  | None => None
  end.

(** *** The decoder (decode.go) *)

Inductive field :=
  | FID | FIsBot | FIsPremium | FFirstName | FLastName | FUsername
  | FLanguageCode | FAddedToAttachmentMenu | FAllowsWriteToPm | FPhotoURL.

Definition fields : list field :=
  [ FID; FIsBot; FIsPremium; FFirstName; FLastName; FUsername;
    FLanguageCode; FAddedToAttachmentMenu; FAllowsWriteToPm; FPhotoURL ].

Definition name (f : field) : string :=
  match f with
  | FID => "id" | FIsBot => "is_bot" | FIsPremium => "is_premium"
  | FFirstName => "first_name" | FLastName => "last_name"
  | FUsername => "username" | FLanguageCode => "language_code"
  | FAddedToAttachmentMenu => "added_to_attachment_menu"
  | FAllowsWriteToPm => "allows_write_to_pm" | FPhotoURL => "photo_url"
  end.

(** The field of a key: the exact name first, else the name equal under
    case folding. *)
Definition findField (k : string) : option field :=
  match List.find (fun f => String.eqb (name f) k) fields with
  | Some f => Some f
  | None =>
      List.find (fun f => String.eqb (foldName (name f)) (foldName k)) fields
  end.

(** The Go kind of a field: [int], [bool] or [string]. *)
Inductive kind := KInt | KBool | KString.

Definition kindOf (f : field) : kind :=
  match f with
  | FID => KInt
  | FIsBot | FIsPremium | FAddedToAttachmentMenu | FAllowsWriteToPm => KBool
  | FFirstName | FLastName | FUsername | FLanguageCode | FPhotoURL => KString
  end.

(** [v.SetInt(n)] on the field [f] of [u]. *)
Definition setInt (f : field) (n : Z) (u : WebAppUser) : WebAppUser :=
  match f with
  | FID => mkWebAppUser n (IsBot u) (IsPremium u) (FirstName u) (LastName u)
             (Username u) (LanguageCode u) (AddedToAttachmentMenu u)
             (AllowsWriteToPm u) (PhotoURL u)
  | _ => u
  end.

(** [v.SetBool(b)] on the field [f] of [u]. *)
Definition setBool (f : field) (b : bool) (u : WebAppUser) : WebAppUser :=
  match f with
  | FIsBot => mkWebAppUser (ID u) b (IsPremium u) (FirstName u) (LastName u)
                (Username u) (LanguageCode u) (AddedToAttachmentMenu u)
                (AllowsWriteToPm u) (PhotoURL u)
  | FIsPremium => mkWebAppUser (ID u) (IsBot u) b (FirstName u) (LastName u)
                (Username u) (LanguageCode u) (AddedToAttachmentMenu u)
                (AllowsWriteToPm u) (PhotoURL u)
  | FAddedToAttachmentMenu =>
      mkWebAppUser (ID u) (IsBot u) (IsPremium u) (FirstName u) (LastName u)
                (Username u) (LanguageCode u) b (AllowsWriteToPm u) (PhotoURL u)
  | FAllowsWriteToPm =>
      mkWebAppUser (ID u) (IsBot u) (IsPremium u) (FirstName u) (LastName u)
                (Username u) (LanguageCode u) (AddedToAttachmentMenu u) b
                (PhotoURL u)
  | _ => u
  end.

(** [v.SetString(x)] on the field [f] of [u]. *)
Definition setString (f : field) (x : string) (u : WebAppUser) : WebAppUser :=
  match f with
  | FFirstName => mkWebAppUser (ID u) (IsBot u) (IsPremium u) x (LastName u)
                (Username u) (LanguageCode u) (AddedToAttachmentMenu u)
                (AllowsWriteToPm u) (PhotoURL u)
  | FLastName => mkWebAppUser (ID u) (IsBot u) (IsPremium u) (FirstName u) x
                (Username u) (LanguageCode u) (AddedToAttachmentMenu u)
                (AllowsWriteToPm u) (PhotoURL u)
  | FUsername => mkWebAppUser (ID u) (IsBot u) (IsPremium u) (FirstName u)
                (LastName u) x (LanguageCode u) (AddedToAttachmentMenu u)
                (AllowsWriteToPm u) (PhotoURL u)
  | FLanguageCode => mkWebAppUser (ID u) (IsBot u) (IsPremium u) (FirstName u)
                (LastName u) (Username u) x (AddedToAttachmentMenu u)
                (AllowsWriteToPm u) (PhotoURL u)
  | FPhotoURL => mkWebAppUser (ID u) (IsBot u) (IsPremium u) (FirstName u)
                (LastName u) (Username u) (LanguageCode u)
                (AddedToAttachmentMenu u) (AllowsWriteToPm u) x
  | _ => u
  end.

(** [d.literalStore], [d.array] and [d.object] on a field of kind [int],
    [bool] or [string]: the profile after the value of a member has been
    stored, and the [UnmarshalTypeError] when the value does not fit the
    field, which is then left as it was.  [null] changes nothing.  An [int]
    has 64 bits. *)
Definition store (f : field) (v : summary) (u : WebAppUser)
  : WebAppUser * option error :=
  let mismatch what := (u, Some (UnmarshalTypeError what (name f))) in
  match v, kindOf f with
  | SNull, _ => (u, None)
  | SArray, _ => mismatch "array"
  | SObject, _ => mismatch "object"
  | SBool b, KBool => (setBool f b u, None)
  | SBool _, _ => mismatch "bool"
  | SString text, KString => (setString f (unquote text) u, None)
  | SString _, _ => mismatch "string"
  | SNumber text, KInt =>
      match strconv.ParseInt text with
      | (n, None) => (setInt f n u, None)
      | (_, Some _) => mismatch ("number " +:+ text)
      end
  | SNumber _, _ => mismatch "number"
  end.

(** One member of the object; [d.saveError] keeps the first error. *)
Definition member (st : WebAppUser * option error) (kv : string * summary)
  : WebAppUser * option error :=
  let '(u, saved) := st in
  match findField (fst kv) with
  | None => (u, saved)
  | Some f =>
      let '(u', e) := store f (snd kv) u in
      (u', if saved is None then e else saved)
  end.

(** [json.Unmarshal(data, &user)] *)
Definition Unmarshal (data : string) (user : WebAppUser)
  : WebAppUser * option error :=
  match checkValid data with
  | None => (user, Some SyntaxError)
  | Some s =>
      match top s with
      | Some SObject => fold_left member (members s) (user, None)
      | Some SNull => (user, None)
      | Some SArray => (user, Some (UnmarshalTypeError "array" EmptyString))
      | Some (SBool _) => (user, Some (UnmarshalTypeError "bool" EmptyString))
      | Some (SString _) => (user, Some (UnmarshalTypeError "string" EmptyString))
      | Some (SNumber _) => (user, Some (UnmarshalTypeError "number" EmptyString))
      | None => (user, Some SyntaxError)
      end
  end.

End json.

(* ===================================================================== *)
(** * webapps.go *)
(* ===================================================================== *)

(** [params[k]]: the value of the key, the empty string when it is absent. *)
Definition index (params : gmap string string) (k : string) : string :=
  default EmptyString (params !! k).

(** [MaxDataAge = 24 * time.Hour] *)
Definition MaxDataAge : Z := 24 * time.Hour.

(** [parseInitData]: the field map, the value of [hash], the error.  The loop
    [for key := range values { params[key] = values.Get(key) }] gives every
    key of [values] the first of its values. *)
Definition parseInitData (initData : string)
  : gmap string string * string * option error :=
  match url.ParseQuery initData with
  | (_, Some err) => (∅, EmptyString, Some (Errorf_wv ErrInvalidDataFormat err))
  | (values, None) =>
      let params : gmap string string :=
        map_imap (fun key _ => Some (url.Get values key)) values in
      (params, index params "hash", None)
  end.

(** [validateRequiredFields] *)
Definition validateRequiredFields (params : gmap string string) : option error :=
  if String.eqb (index params "hash") EmptyString then Some ErrInvalidHash
  else if String.eqb (index params "user") EmptyString then Some ErrUserFieldMissing
  else if String.eqb (index params "auth_date") EmptyString then Some ErrAuthDateMissing
  else None.

(** [validateAuthTimestamp]; [now] is what [time.Now()] reads inside
    [time.Since]. *)
Definition validateAuthTimestamp (now : time.Time) (authDateStr : string)
  : option error :=
  match strconv.ParseInt authDateStr with
  | (_, Some err) => Some (Errorf_wv ErrAuthDateInvalid err)
  | (authTimestamp, None) =>
      let authTime := time.Unix authTimestamp 0 in
      if MaxDataAge <? time.Since now authTime then Some ErrDataExpired
      else None
  end.

(** The body of [createDataCheckString] for the sequence [order] in which
    [range params] hands out the entries of the map. *)
Definition dataCheckPairs (order : list (string * string)) (authDate : string)
  : list string :=
  let pairs :=
    fold_left
      (fun pairs kv =>
         if String.eqb (fst kv) "hash" || String.eqb (fst kv) "auth_date"
         then pairs
         else pairs ++ [fst kv +:+ "=" +:+ snd kv])
      order [] in
  pairs ++ ["auth_date=" +:+ authDate].

Definition createDataCheckString_in (order : list (string * string))
  (authDate : string) : string :=
  strings.Join (sort.Strings (dataCheckPairs order authDate)) newline.

(** [createDataCheckString].  Go leaves the order of [range] over a map
    open; [map_to_list] is one such order, and [createDataCheckString_in]
    takes any. *)
Definition createDataCheckString (params : gmap string string)
  (authDate : string) : string :=
  createDataCheckString_in (map_to_list params) authDate.

(** [computeHMAC] *)
Definition computeHMAC (dataCheckString token : string) : string :=
  let secret := hmac.New (bytes_of_string "WebAppData") in
  let secret := hmac.Write secret (bytes_of_string token) in
  let hHash := hmac.New (hmac.Sum secret) in
  let hHash := hmac.Write hHash (bytes_of_string dataCheckString) in
  hex.EncodeToString (hmac.Sum hHash).

(** [fmt.Println(a, b)]: the line written to standard output. *)
Definition Println (a b : string) : string :=
  a +:+ " " +:+ b +:+ newline.

(** What a call does besides returning: the lines it prints, and the
    iterations of the comparison loop of [hmac.Equal] that it runs. *)
Record effects := mkEffects {
  printed : list string;
  compared : nat
}.

(** [validateDataSignature]: what it prints and what its comparison runs,
    and the error. *)
Definition validateDataSignature (params : gmap string string)
  (receivedHash token : string) : effects * option error :=
  let dataCheckString := createDataCheckString params (index params "auth_date") in
  let expectedHash := computeHMAC dataCheckString token in
  let out := [Println expectedHash receivedHash] in
  let '(equal, steps) :=
    hmac.Equal_steps (bytes_of_string expectedHash) (bytes_of_string receivedHash) in
  if negb equal
  then (mkEffects out steps, Some ErrInvalidHash)
  else (mkEffects out steps, None).

(** [decodeUserData] *)
Definition decodeUserData (encodedData : string) : WebAppUser * option error :=
  match url.QueryUnescape encodedData with
  | (_, Some err) => (zeroUser, Some (Errorf_w "url unescape failed" err))
  | (decodedData, None) =>
      match json.Unmarshal decodedData zeroUser with
      | (user, Some err) => (user, Some (Errorf_w "json decode failed" err))
      | (user, None) => (user, None)
      end
  end.

(** The outcome of a call: the two results and the lines printed. *)
Record outcome := mkOutcome {
  user : WebAppUser;
  err : option error;
  stdout : list string
}.

(** [VerifyWebAppData]; [now] is the clock at the time of the call. *)
Definition VerifyWebAppData (now : time.Time) (telegramInitData token : string)
  : outcome :=
  match parseInitData telegramInitData with
  | (_, _, Some err) => mkOutcome zeroUser (Some (Errorf_w "parsing failed" err)) []
  | (params, hashValue, None) =>
      match validateRequiredFields params with
      | Some err => mkOutcome zeroUser (Some err) []
      | None =>
          match validateAuthTimestamp now (index params "auth_date") with
          | Some err => mkOutcome zeroUser (Some err) []
          | None =>
              match validateDataSignature params hashValue token with
              | (eff, Some err) => mkOutcome zeroUser (Some err) (printed eff)
              | (eff, None) =>
                  let '(u, e) := decodeUserData (index params "user") in
                  mkOutcome u e (printed eff)
              end
          end
      end
  end.

(* ===================================================================== *)
(** * Reference definitions *)
(* ===================================================================== *)

(** What the properties are stated with: the formulas and the orders that
    the specification speaks of, written from its words, and the inputs of
    its scenarios. *)

(** HMAC-SHA256 as a formula (RFC 2104): with [K0] the key padded with zeros
    to the block size (hashed first when longer),
    [H((K0 xor opad) || H((K0 xor ipad) || msg))]. *)
Definition HMAC_SHA256 (key msg : list Z) : list Z :=
  let k := if (64 <? length key)%nat then sha256.Sum256 key else key in
  let k0 := k ++ repeat 0 (64 - length k)%nat in
  sha256.Sum256 (map (fun b => Z.lxor b 0x5c) k0
                 ++ sha256.Sum256 (map (fun b => Z.lxor b 0x36) k0 ++ msg)).

(** The signer of the specification:
    [signingKey = HMAC-SHA256(key = "WebAppData", message = token)],
    [signature = hex(HMAC-SHA256(key = signingKey, message = canonicalString))]. *)
Definition Signer (canonicalString token : string) : string :=
  let signingKey :=
    HMAC_SHA256 (bytes_of_string "WebAppData") (bytes_of_string token) in
  hex.EncodeToString (HMAC_SHA256 signingKey (bytes_of_string canonicalString)).

(** A lowercase hexadecimal digit: [0-9] or [a-f]. *)
Definition lower_hex (c : ascii) : Prop :=
  48 <= byte_of_ascii c <= 57 \/ 97 <= byte_of_ascii c <= 102.

(** The byte-wise lexicographic order of strings: the empty string first,
    then by the first byte, then by the rest. *)
Inductive lex_le : string -> string -> Prop :=
  | lex_le_empty (b : string) : lex_le EmptyString b
  | lex_le_byte (x y : ascii) (a b : string) :
      byte_of_ascii x < byte_of_ascii y -> lex_le (String x a) (String y b)
  | lex_le_rest (x : ascii) (a b : string) :
      lex_le a b -> lex_le (String x a) (String x b).

(** The lines of the canonical string: one [key=value] per field other than
    [hash] and [auth_date], and the line [auth_date=<value>]. *)
Definition canonical_lines (params : gmap string string) (authDate : string)
  : list string :=
  map (fun kv => fst kv +:+ "=" +:+ snd kv)
      (filter (fun kv => fst kv <> "hash" /\ fst kv <> "auth_date")
              (map_to_list params))
  ++ ["auth_date=" +:+ authDate].

(** Every line followed by a line feed. *)
Definition terminated (lines : list string) : string :=
  fold_right (fun l acc => l +:+ newline +:+ acc) EmptyString lines.

(** The pair that a segment of the payload stands for: the texts on either
    side of its first [=], both unescaped.  An empty segment stands for
    none. *)
Definition segment_pair (seg : string) : option (string * string) :=
  if strings.Contains ";" seg then None
  else if String.eqb seg EmptyString then None
  else
    let '(k, v) := strings.Cut "=" seg in
    match url.QueryUnescape k, url.QueryUnescape v with
    | (k', None), (v', None) => Some (k', v')
    | _, _ => None
    end.

(** The pairs of a payload, in the order in which they appear in it. *)
Definition payload_pairs (payload : string) : list (string * string) :=
  omap segment_pair (strings.segments "&" payload).

(** The value of the first pair with key [k]. *)
Fixpoint first_occurrence (k : string) (pairs : list (string * string))
  : option string :=
  match pairs with
  | [] => None
  | (k', v) :: r => if String.eqb k' k then Some v else first_occurrence k r
  end.

(** A list of pairs without the later occurrences of every key. *)
Fixpoint first_only (pairs : list (string * string)) : list (string * string) :=
  match pairs with
  | [] => []
  | (k, v) :: r => (k, v) :: filter (fun kv => fst kv <> k) (first_only r)
  end.

(** [m[key] = append(m[key], value)] *)
Definition add_value (m : gmap string (list string)) (kv : string * string)
  : gmap string (list string) :=
  <[fst kv := default [] (m !! fst kv) ++ [snd kv]]> m.

(** The values of the key [k] in a list of pairs, in order. *)
Definition values_of (k : string) (pairs : list (string * string)) : list string :=
  map snd (filter (fun kv => fst kv = k) pairs).

(** A field that is absent from the map or empty in it. *)
Definition absent_or_empty (params : gmap string string) (k : string) : Prop :=
  params !! k = None \/ params !! k = Some EmptyString.

(** The value of a text made of decimal digits alone, read after [acc]. *)
Fixpoint digits_value (s : string) (acc : Z) : option Z :=
  match s with
  | EmptyString => Some acc
  | String c r =>
      if (48 <=? byte_of_ascii c) && (byte_of_ascii c <=? 57)
      then digits_value r (10 * acc + (byte_of_ascii c - 48))
      else None
  end.

(** The integer written by a text in base 10: one or more digits, with one
    sign [+] or [-] in front or none. *)
Definition decimal_value (s : string) : option Z :=
  match s with
  | EmptyString => None
  | String c r =>
      if Ascii.eqb c "+" then
        (if String.eqb r EmptyString then None else digits_value r 0)
      else if Ascii.eqb c "-" then
        (if String.eqb r EmptyString then None
         else option_map Z.opp (digits_value r 0))
      else digits_value s 0
  end.

(** The last Unix second that [time.Unix] turns into a [Time] without
    wrapping around: [2^63 - 1 - unixToInternal]. *)
Definition maxUnix : Z := 2 ^ 63 - 1 - time.unixToInternal.

(** A duration brought into the range of an [int64]. *)
Definition clamp (d : Z) : Z :=
  if d <? time.minDuration then time.minDuration
  else if time.maxDuration <? d then time.maxDuration
  else d.

(** The nanoseconds from the Unix second [ts] to a clock that reads
    [unix_sec] seconds and [unix_nsec] nanoseconds. *)
Definition age (unix_sec unix_nsec ts : Z) : Z :=
  (unix_sec - ts) * 1000000000 + unix_nsec.

(** 24 hours, in nanoseconds. *)
Definition day : Z := 24 * 3600 * 1000000000.

(** The text with a space for every [+]. *)
Fixpoint plus_to_space (s : string) : string :=
  match s with
  | EmptyString => EmptyString
  | String c r => String (if Ascii.eqb c "+" then " "%char else c) (plus_to_space r)
  end.

(** A [%] that is not followed by two hexadecimal digits occurs in the
    text. *)
Fixpoint bad_escape (s : string) : bool :=
  match s with
  | EmptyString => false
  | String c r =>
      (Ascii.eqb c "%"
       && negb match r with
               | String a (String b _) => url.ishex a && url.ishex b
               | _ => false
               end)
      || bad_escape r
  end.

(** The end-to-end scenario of the specification: the token, the user JSON,
    the timestamp, the canonical string, the signature computed by the
    formula of the signer, and the payload made of them. *)
Definition scenario_token : string := "test_token".
Definition scenario_userJSON : string := quoted "{'id':12345,'first_name':'Test'}".
Definition scenario_authDate : string := "1625097522".
Definition scenario_canonical : string :=
  "auth_date=1625097522" +:+ newline +:+ "user=" +:+ scenario_userJSON.
Definition scenario_hash : string := Signer scenario_canonical scenario_token.
Definition scenario_payload : string :=
  "auth_date=" +:+ scenario_authDate
  +:+ "&user=" +:+ url.QueryEscape scenario_userJSON
  +:+ "&hash=" +:+ scenario_hash.

(** A payload signed like the one of the scenario around the user value
    [userValue]. *)
Definition signed_payload (userValue : string) : string :=
  "auth_date=" +:+ scenario_authDate
  +:+ "&user=" +:+ url.QueryEscape userValue
  +:+ "&hash="
  +:+ Signer ("auth_date=1625097522" +:+ newline +:+ "user=" +:+ userValue)
             scenario_token.

(** The user value of the payload below: a JSON object whose [first_name] is
    a number. *)
Definition mistyped_userJSON : string := quoted "{'id':12345,'first_name':5}".

(** A payload with a valid signature and a fresh timestamp around it. *)
Definition mistyped_payload : string := signed_payload mistyped_userJSON.

(* ===================================================================== *)
(** * Further reference definitions *)
(* ===================================================================== *)

(** A segment that [url.ParseQuery] takes without an error: it has no
    semicolon, and it is empty or has no ill-formed escape on either side of
    its first [=]. *)
Definition segment_ok (seg : string) : bool :=
  negb (strings.Contains ";" seg)
  && (String.eqb seg EmptyString
      || (let '(k, v) := strings.Cut "=" seg in
          negb (bad_escape k) && negb (bad_escape v))).

(** [n] times the byte [c]. *)
Definition copies (n : Z) (c : ascii) : string :=
  string_of_list_ascii (repeat c (Z.to_nat n)).

(** A payload that [url.ParseQuery] takes without an error: its parameters,
    counted by the [&] between them, are 10000 at most, and all its segments
    are well formed. *)
Definition well_formed (payload : string) : bool :=
  (strings.Count "&" payload + 1 <=? 10000)
  && forallb segment_ok (strings.segments "&" payload).

(** The errors that [url.ParseQuery] gives. *)
Definition parse_cause (e : error) : Prop :=
  e = ParamsLimitError \/ e = SemicolonError \/ exists s, e = EscapeError s.

(** The form encoding of a list of pairs: [key=value] with both sides
    escaped by [url.QueryEscape], joined by [&]. *)
Definition encode_pairs (pairs : list (string * string)) : string :=
  strings.Join
    (map (fun kv => url.QueryEscape (fst kv) +:+ "=" +:+ url.QueryEscape (snd kv))
         pairs)
    "&".

(** A byte that [url.QueryEscape] leaves as it is: a letter, a digit or one
    of [-_.~]. *)
Definition unreserved (c : ascii) : bool :=
  negb (Ascii.eqb c " ") && negb (url.shouldEscape c).

(** The init data that the integration test of the package builds
    (webapps_test.go, TestVerifyWebAppData_Integration):
    [params := map[string]string{"user": userJSON, "auth_date": authDate}],
    [hash := computeHMAC(createDataCheckString(params, authDate), token)],
    ["auth_date=" + authDate + "&user=" + url.QueryEscape(userJSON) + "&hash=" + hash]. *)
Definition test_hash (userJSON authDate token : string) : string :=
  computeHMAC
    (createDataCheckString (<["user" := userJSON]> (<["auth_date" := authDate]> ∅))
                           authDate)
    token.

Definition test_initData (userJSON authDate token : string) : string :=
  "auth_date=" +:+ authDate +:+ "&user=" +:+ url.QueryEscape userJSON
  +:+ "&hash=" +:+ test_hash userJSON authDate token.

(** A text of bytes that [url.QueryEscape] leaves as they are. *)
Fixpoint unreserved_text (s : string) : bool :=
  match s with
  | EmptyString => true
  | String c r => unreserved c && unreserved_text r
  end.



(** The line feed, as a byte. *)
Definition linefeed : ascii := Eval cbv in ascii_of_byte 10.

(** Fields that a line of the data-check string holds without ambiguity:
    no [=] and no line feed in the key, no line feed in the value. *)
Definition plain_fields (params : gmap string string) : Prop :=
  forall k v, params !! k = Some v ->
    strings.Contains "=" k = false
    /\ strings.Contains linefeed k = false
    /\ strings.Contains linefeed v = false.

(** The fields that [createDataCheckString] takes from the map. *)
Definition signed_fields (params : gmap string string) : gmap string string :=
  delete "auth_date" (delete "hash" params).

(* ===================================================================== *)
(** * webapps.go, the earlier version *)
(* ===================================================================== *)

(** The file holds a second, earlier [VerifyWebAppData], the one that the
    README calls: [err, user := webapps.VerifyWebAppData(data, token)]. *)

Module legacy.

(** [type WebAppUser struct] of that version. *)
Record WebAppUser := mkWebAppUser {
  ID : Z;                    (* json:"id" *)
  IsBot : bool;              (* json:"is_bot" *)
  FirstName : string;        (* json:"first_name" *)
  LastName : string;         (* json:"last_name" *)
  Username : string;         (* json:"username" *)
  LanguageCode : string;     (* json:"language_code" *)
  PhotoUrl : string          (* json:"photo_url" *)
}.

(** [WebAppUser{}] *)
Definition zeroUser : WebAppUser :=
  mkWebAppUser 0 false EmptyString EmptyString EmptyString EmptyString EmptyString.

(** The errors of the libraries, as causes. *)
Definition cause : Type := error.

(** The errors of that version: its one sentinel and the two texts made by
    [fmt.Errorf]. *)
Inductive error :=
  | HashIsNotValid                     (* errors.New("hash is not valid") *)
  | ErrorParsingData (err : cause)     (* fmt.Errorf("Error parsing data: %s", err) *)
  | CannotParseUser (err : cause).     (* fmt.Errorf("cannot parse user: %w", err) *)

(** The loop [for k, v := range initData]: the line [k=v[0]] for every key
    but [hash], in the order in which [range] hands out the entries.  [None]
    stands for the panic of [v[0]] on an empty slice. *)
Definition dataToCheck (order : list (string * list string))
  : option (list string) :=
  fold_left
    (fun acc kv =>
       match acc with
       | None => None
       | Some lines =>
           if String.eqb (fst kv) "hash" then Some lines
           else
             match snd kv with
             | v0 :: _ => Some (lines ++ [fst kv +:+ "=" +:+ v0])
             | [] => None
             end
       end)
    order (Some []).

Section Decoder.

(** [json.Unmarshal] of jsoniter ([ConfigCompatibleWithStandardLibrary]) on a
    [*WebAppUser]: the library is not part of the package, the function is
    taken with any decoder. *)
Variable Unmarshal : string -> WebAppUser -> WebAppUser * option cause.

(** [VerifyWebAppData] for the sequence [order] in which [range initData]
    hands out the entries; [None] stands for a panic. *)
Definition VerifyWebAppData_in (order : list (string * list string))
  (telegramInitData token : string) : option (option error * WebAppUser) :=
  match url.ParseQuery telegramInitData with
  | (_, Some err) => Some (Some (ErrorParsingData err), zeroUser)
  | (initData, None) =>
      match dataToCheck order with
      | None => None
      | Some dataToCheck =>
          let dataToCheck := sort.Strings dataToCheck in
          let secret := hmac.New (bytes_of_string "WebAppData") in
          let secret := hmac.Write secret (bytes_of_string token) in
          let hHash := hmac.New (hmac.Sum secret) in
          let hHash :=
            hmac.Write hHash (bytes_of_string (strings.Join dataToCheck newline)) in
          let hash := hex.EncodeToString (hmac.Sum hHash) in
          if negb (String.eqb (url.Get initData "hash") hash)
          then Some (Some HashIsNotValid, zeroUser)
          else
            match Unmarshal (url.Get initData "user") zeroUser with
            | (user, Some err) => Some (Some (CannotParseUser err), user)
            | (user, None) => Some (None, user)
            end
      end
  end.

(** [VerifyWebAppData], with [map_to_list] as the order of [range]. *)
Definition VerifyWebAppData (telegramInitData token : string)
  : option (option error * WebAppUser) :=
  VerifyWebAppData_in (map_to_list (fst (url.ParseQuery telegramInitData)))
                      telegramInitData token.

End Decoder.

(** The string that this version signs: the lines [key=value] of all fields
    but [hash], sorted and joined by line feeds. *)
Definition dataCheckString (params : gmap string string) : string :=
  strings.Join
    (sort.Strings
       (map (fun kv => fst kv +:+ "=" +:+ snd kv)
            (filter (fun kv => fst kv <> "hash") (map_to_list params))))
    newline.

End legacy.

(** The JSON texts of the properties of the user decoder: objects whose
    members are written without white space, with keys and strings free of
    escapes, and with integers as numbers. *)
Inductive jvalue :=
  | JNull
  | JBool (b : bool)
  | JNumber (text : string)
  | JString (body : string).

(** A byte that stands for itself between the quotes of a JSON string: ASCII,
    not a control character, not the quote, not the backslash. *)
Definition plain_byte (c : ascii) : bool :=
  negb (Ascii.eqb c quote) && negb (Ascii.eqb c "\")
  && negb (byte_of_ascii c <? 0x20) && (byte_of_ascii c <? 0x80).

Fixpoint plain_text (s : string) : bool :=
  match s with
  | EmptyString => true
  | String c r => plain_byte c && plain_text r
  end.

Fixpoint digits (s : string) : bool :=
  match s with
  | EmptyString => true
  | String c r => json.isDigit c && digits r
  end.

(** An integer of the JSON grammar: [0], or a digit from 1 to 9 followed by
    digits, with a [-] in front or none. *)
Definition natural_literal (s : string) : bool :=
  match s with
  | EmptyString => false
  | String c r =>
      if Ascii.eqb c "0" then String.eqb r EmptyString
      else json.isDigit19 c && digits r
  end.

Definition integer_literal (s : string) : bool :=
  match s with
  | EmptyString => false
  | String c r => if Ascii.eqb c "-" then natural_literal r else natural_literal s
  end.

Definition value_ok (v : jvalue) : bool :=
  match v with
  | JNumber text => integer_literal text
  | JString body => plain_text body
  | _ => true
  end.

Definition value_text (v : jvalue) : string :=
  match v with
  | JNull => "null"
  | JBool true => "true"
  | JBool false => "false"
  | JNumber text => text
  | JString body => String quote (body +:+ String quote EmptyString)
  end.

(** What the decoder keeps of such a value. *)
Definition value_summary (v : jvalue) : json.summary :=
  match v with
  | JNull => json.SNull
  | JBool b => json.SBool b
  | JNumber text => json.SNumber text
  | JString body => json.SString (String quote (body +:+ String quote EmptyString))
  end.

Definition member_text (kv : string * jvalue) : string :=
  String quote (fst kv +:+ String quote (String ":" (value_text (snd kv)))).

Definition object_text (members : list (string * jvalue)) : string :=
  String "{" (strings.Join (map member_text members) "," +:+ "}").

Definition member_ok (kv : string * jvalue) : bool :=
  plain_text (fst kv) && value_ok (snd kv).

(** The object that holds the ten fields of a profile under their tags, in
    the order of the struct, the [ID] written as [id]. *)
Definition profile_members (id : string) (u : WebAppUser)
  : list (string * jvalue) :=
  [ ("id", JNumber id);
    ("is_bot", JBool (IsBot u));
    ("is_premium", JBool (IsPremium u));
    ("first_name", JString (FirstName u));
    ("last_name", JString (LastName u));
    ("username", JString (Username u));
    ("language_code", JString (LanguageCode u));
    ("added_to_attachment_menu", JBool (AddedToAttachmentMenu u));
    ("allows_write_to_pm", JBool (AllowsWriteToPm u));
    ("photo_url", JString (PhotoURL u)) ].

(** The strings of a profile hold plain bytes only. *)
Definition plain_profile (u : WebAppUser) : bool :=
  plain_text (FirstName u) && plain_text (LastName u) && plain_text (Username u)
  && plain_text (LanguageCode u) && plain_text (PhotoURL u).

(** A text that [url.QueryUnescape] leaves as it is: no [%], no [+]. *)
Definition literal_text (s : string) : bool :=
  negb (strings.Contains "%" s) && negb (strings.Contains "+" s).

(** A profile whose strings hold plain bytes other than [%] and [+]. *)
Definition literal_profile (u : WebAppUser) : bool :=
  literal_text (FirstName u) && literal_text (LastName u)
  && literal_text (Username u) && literal_text (LanguageCode u)
  && literal_text (PhotoURL u).

(** What the decoder makes of a flat object, said without the decoder. *)

(** A text with its ASCII letters in upper case. *)
Definition upper_byte (c : ascii) : ascii :=
  let b := byte_of_ascii c in
  if (97 <=? b) && (b <=? 122) then ascii_of_byte (b - 32) else c.

Fixpoint upper (s : string) : string :=
  match s with
  | EmptyString => EmptyString
  | String c r => String (upper_byte c) (upper r)
  end.

(** The key [k] names the field [f]: it is the tag of [f], or it is the tag
    of no field and is the tag of [f] when the case of letters is ignored. *)
Definition names (k : string) (f : json.field) : bool :=
  String.eqb (json.name f) k
  || (negb (existsb (fun g => String.eqb (json.name g) k) json.fields)
      && String.eqb (upper (json.name f)) (upper k)).

(** The field that a key names, the first in the order of the struct. *)
Definition named_field (k : string) : option json.field :=
  List.find (names k) json.fields.

Definition same_field (f g : json.field) : bool :=
  match f, g with
  | json.FID, json.FID
  | json.FIsBot, json.FIsBot
  | json.FIsPremium, json.FIsPremium
  | json.FFirstName, json.FFirstName
  | json.FLastName, json.FLastName
  | json.FUsername, json.FUsername
  | json.FLanguageCode, json.FLanguageCode
  | json.FAddedToAttachmentMenu, json.FAddedToAttachmentMenu
  | json.FAllowsWriteToPm, json.FAllowsWriteToPm
  | json.FPhotoURL, json.FPhotoURL => true
  | _, _ => false
  end.

(** The integer of 64 bits that a text writes in base 10. *)
Definition int64_value (text : string) : option Z :=
  match decimal_value text with
  | Some n => if (- 2 ^ 63 <=? n) && (n <? 2 ^ 63) then Some n else None
  | None => None
  end.

(** A value as an [int], a [bool] or a [string], when it is one. *)
Definition as_int (v : jvalue) : option Z :=
  match v with JNumber text => int64_value text | _ => None end.

Definition as_bool (v : jvalue) : option bool :=
  match v with JBool b => Some b | _ => None end.

Definition as_string (v : jvalue) : option string :=
  match v with JString body => Some body | _ => None end.

(** What a member gives the field [f]: its value, when its key names [f]
    and the value is of the kind of [f]. *)
Definition gives {A : Type} (f : json.field) (as_kind : jvalue -> option A)
  (kv : string * jvalue) : option A :=
  match named_field (fst kv) with
  | Some g => if same_field g f then as_kind (snd kv) else None
  | None => None
  end.

(** The value of the field [f] after the object: that of the last member
    that gives it one, else the zero value [zero]. *)
Definition last_given {A : Type} (f : json.field) (as_kind : jvalue -> option A)
  (zero : A) (members : list (string * jvalue)) : A :=
  default zero (last (omap (gives f as_kind) members)).

(** The profile after the object. *)
Definition stored_profile (members : list (string * jvalue)) : WebAppUser :=
  mkWebAppUser
    (last_given json.FID as_int 0 members)
    (last_given json.FIsBot as_bool false members)
    (last_given json.FIsPremium as_bool false members)
    (last_given json.FFirstName as_string EmptyString members)
    (last_given json.FLastName as_string EmptyString members)
    (last_given json.FUsername as_string EmptyString members)
    (last_given json.FLanguageCode as_string EmptyString members)
    (last_given json.FAddedToAttachmentMenu as_bool false members)
    (last_given json.FAllowsWriteToPm as_bool false members)
    (last_given json.FPhotoURL as_string EmptyString members).

(** The error of a member whose key names a field that its value does not
    fit; [null] fits every field. *)
Definition misfit (kv : string * jvalue) : option error :=
  match named_field (fst kv) with
  | None => None
  | Some f =>
      let mismatch what := Some (UnmarshalTypeError what (json.name f)) in
      match snd kv, json.kindOf f with
      | JNull, _ => None
      | JBool _, json.KBool => None
      | JBool _, _ => mismatch "bool"
      | JString _, json.KString => None
      | JString _, _ => mismatch "string"
      | JNumber text, json.KInt =>
          if int64_value text is Some _ then None
          else mismatch ("number " +:+ text)
      | JNumber _, _ => mismatch "number"
      end
  end.

(** The first such error, in the order of the text. *)
Definition first_misfit (members : list (string * jvalue)) : option error :=
  head (omap misfit members).

(** The profile after one more member. *)
Definition described (u : WebAppUser) (kv : string * jvalue) : WebAppUser :=
  mkWebAppUser
    (default (ID u) (gives json.FID as_int kv))
    (default (IsBot u) (gives json.FIsBot as_bool kv))
    (default (IsPremium u) (gives json.FIsPremium as_bool kv))
    (default (FirstName u) (gives json.FFirstName as_string kv))
    (default (LastName u) (gives json.FLastName as_string kv))
    (default (Username u) (gives json.FUsername as_string kv))
    (default (LanguageCode u) (gives json.FLanguageCode as_string kv))
    (default (AddedToAttachmentMenu u) (gives json.FAddedToAttachmentMenu as_bool kv))
    (default (AllowsWriteToPm u) (gives json.FAllowsWriteToPm as_bool kv))
    (default (PhotoURL u) (gives json.FPhotoURL as_string kv)).

(* ===================================================================== *)
(** * Properties *)
(* ===================================================================== *)

(* ===================================================================== *)
(** ** The library models on known answers *)
(* ===================================================================== *)

(** Test vectors: FIPS 180-4 for SHA-256, RFC 4231 for HMAC-SHA256. *)
Example sha256_abc :
  hex.EncodeToString (sha256.Sum256 (bytes_of_string "abc"))
  = "ba7816bf8f01cfea414140de5dae2223b00361a396177a9cb410ff61f20015ad".
Proof. vm_compute. reflexivity. Qed.

Example sha256_empty :
  hex.EncodeToString (sha256.Sum256 [])
  = "e3b0c44298fc1c149afbf4c8996fb92427ae41e4649b934ca495991b7852b855".
Proof. vm_compute. reflexivity. Qed.

Example sha256_two_blocks :
  hex.EncodeToString (sha256.Sum256 (bytes_of_string
    "abcdbcdecdefdefgefghfghighijhijkijkljklmklmnlmnomnopnopq"))
  = "248d6a61d20638b8e5c026930c3e6039a33ce45964ff2167f6ecedd419db06c1".
Proof. vm_compute. reflexivity. Qed.

Example sha256_padding_boundaries :
  map (fun n => hex.EncodeToString (sha256.Sum256 (repeat 97 n)))
      [55; 56; 64; 119; 120]%nat
  = [ "9f4390f8d30c2dd92ec9f095b65e2b9ae9b0a925a5258e241c9f1e910f734318";
      "b35439a4ac6f0948b6d6f9e3c6af0f5f590ce20f1bde7090ef7970686ec6738a";
      "ffe054fe7ae0cb6dc65c3af9b61d5209f439851db43d0ba5997337df154668eb";
      "31eba51c313a5c08226adf18d4a359cfdfd8d2e816b13f4af952f7ea6584dcfb";
      "2f3d335432c70b580af0e8e1b3674a7c020d683aa5f73aaaedfdc55af904c21c" ].
Proof. vm_compute. reflexivity. Qed.

Example hmac_rfc4231_case6 :
  hex.EncodeToString
    (hmac.Sum (hmac.Write (hmac.New (repeat 0xaa 131))
                 (bytes_of_string
                    "Test Using Larger Than Block-Size Key - Hash Key First")))
  = "60e431591ee0b67f0d8a26aacbf5b77f8e0bc6213728c5140546040f0ee37f54".
Proof. vm_compute. reflexivity. Qed.

Example hmac_rfc4231_case2 :
  hex.EncodeToString
    (hmac.Sum (hmac.Write (hmac.New (bytes_of_string "Jefe"))
                 (bytes_of_string "what do ya want for nothing?")))
  = "5bdcc146bf60754e6a042426089575c75a003f089d2739839dec58b964ec3843".
Proof. vm_compute. reflexivity. Qed.

(* ===================================================================== *)
(** ** Bytes *)
(* ===================================================================== *)

Lemma byte_of_ascii_range (c : ascii) : 0 <= byte_of_ascii c < 256.
Proof.
  unfold byte_of_ascii. pose proof (N_ascii_bounded c) as H.
  lia.
Qed.

Lemma byte_of_ascii_inj (a b : ascii) : byte_of_ascii a = byte_of_ascii b -> a = b.
Proof.
  unfold byte_of_ascii. intros H. apply N2Z.inj in H.
  rewrite <- (ascii_N_embedding a), <- (ascii_N_embedding b). now rewrite H.
Qed.

Lemma bytes_of_string_inj (a b : string) :
  bytes_of_string a = bytes_of_string b -> a = b.
Proof.
  revert b. induction a as [|x a IH]; intros [|y b]; simpl; try discriminate.
  - reflexivity.
  - intros H. injection H as Hxy Hab.
    f_equal; [now apply byte_of_ascii_inj | now apply IH].
Qed.

Lemma bytes_of_string_range (s : string) :
  Forall (fun b => 0 <= b < 256) (bytes_of_string s).
Proof.
  induction s as [|c s IH]; simpl; constructor; auto using byte_of_ascii_range.
Qed.


Lemma append_cons (x : ascii) (a b : string) :
  String x a +:+ b = String x (a +:+ b).
Proof. reflexivity. Qed.

Lemma append_empty (b : string) : EmptyString +:+ b = b.
Proof. reflexivity. Qed.

Lemma append_assoc (a b c : string) : (a +:+ b) +:+ c = a +:+ (b +:+ c).
Proof.
  induction a as [|x a IH]; [reflexivity |].
  rewrite !append_cons. f_equal. exact IH.
Qed.

(* ===================================================================== *)
(** ** The digest and its hexadecimal form *)
(* ===================================================================== *)

Lemma Sum256_length (msg : list Z) : length (sha256.Sum256 msg) = 32%nat.
Proof.
  unfold sha256.Sum256.
  generalize (sha256.blocks (length (sha256.pad msg) / sha256.BlockSize)
                sha256.init (sha256.pad msg)).
  intros st. reflexivity.
Qed.

Lemma hex_length (src : list Z) :
  String.length (hex.EncodeToString src) = (2 * length src)%nat.
Proof. induction src as [|v r IH]; simpl; [reflexivity | rewrite IH; lia]. Qed.

Lemma hex_digit_lower (n : Z) : lower_hex (hex.digit n).
Proof.
  unfold hex.digit. generalize (Z.to_nat n). intros k.
  do 16 (destruct k as [|k]; [vm_compute; intuition discriminate |]).
  vm_compute; intuition discriminate.
Qed.

Lemma hex_lower (src : list Z) :
  Forall lower_hex (list_ascii_of_string (hex.EncodeToString src)).
Proof.
  induction src as [|v r IH]; simpl; [constructor |].
  constructor; [apply hex_digit_lower |].
  constructor; [apply hex_digit_lower | exact IH].
Qed.

Lemma hmac_is_HMAC_SHA256 (key msg : list Z) :
  hmac.Sum (hmac.Write (hmac.New key) msg) = HMAC_SHA256 key msg.
Proof.
  unfold hmac.Sum, hmac.Write, hmac.New, HMAC_SHA256, hmac.copy_into,
    sha256.Sum, sha256.Write, sha256.New, sha256.BlockSize. simpl.
  destruct (64 <? length key)%nat eqn:Hlen.
  - rewrite firstn_all2 by (rewrite Sum256_length; lia). reflexivity.
  - apply Nat.ltb_ge in Hlen. rewrite firstn_all2 by lia. reflexivity.
Qed.

(** The signature of the package is the signer of the specification. *)
Lemma computeHMAC_Signer (s t : string) : computeHMAC s t = Signer s t.
Proof.
  unfold computeHMAC, Signer. now rewrite !hmac_is_HMAC_SHA256.
Qed.

Lemma computeHMAC_length (s t : string) : String.length (computeHMAC s t) = 64%nat.
Proof.
  rewrite computeHMAC_Signer. unfold Signer, HMAC_SHA256.
  rewrite hex_length, Sum256_length. reflexivity.
Qed.

(* ===================================================================== *)
(** ** The constant-time comparison *)
(* ===================================================================== *)

Lemma byte_lor_lxor_range (v a b : Z) :
  0 <= v < 256 -> 0 <= a < 256 -> 0 <= b < 256 ->
  0 <= Z.lor v (Z.lxor a b) < 256.
Proof.
  intros Hv Ha Hb.
  assert (Hx : 0 <= Z.lxor a b) by (apply Z.lxor_nonneg; lia).
  assert (Hn : 0 <= Z.lor v (Z.lxor a b)) by (apply Z.lor_nonneg; lia).
  split; [exact Hn |].
  change 256 with (2 ^ 8).
  apply (Z.bounded_iff_bits_nonneg 8); [lia | exact Hn |].
  intros l Hl.
  rewrite Z.lor_spec, Z.lxor_spec.
  rewrite (proj1 (Z.bounded_iff_bits_nonneg 8 v ltac:(lia) ltac:(lia)) (proj2 Hv) l Hl).
  rewrite (proj1 (Z.bounded_iff_bits_nonneg 8 a ltac:(lia) ltac:(lia)) (proj2 Ha) l Hl).
  rewrite (proj1 (Z.bounded_iff_bits_nonneg 8 b ltac:(lia) ltac:(lia)) (proj2 Hb) l Hl).
  reflexivity.
Qed.

(** The loop runs once per byte whatever the bytes are, and its accumulator
    ends at zero exactly for equal inputs. *)
Lemma accumulate_spec (x : list Z) :
  forall (y : list Z) (v : Z) (n : nat),
    length x = length y ->
    Forall (fun b => 0 <= b < 256) x -> Forall (fun b => 0 <= b < 256) y ->
    0 <= v < 256 ->
    snd (subtle.accumulate x y v n) = (n + length x)%nat
    /\ 0 <= fst (subtle.accumulate x y v n) < 256
    /\ (fst (subtle.accumulate x y v n) = 0 <-> v = 0 /\ x = y).
Proof.
  induction x as [|a x IH]; intros [|b y] v n Hlen Hx Hy Hv; simpl in *;
    try discriminate.
  - repeat split; try lia; tauto.
  - inversion Hx as [|? ? Ha Hx']; inversion Hy as [|? ? Hb Hy']; subst.
    assert (Hv' := byte_lor_lxor_range v a b Hv Ha Hb).
    destruct (IH y (Z.lor v (Z.lxor a b)) (S n) ltac:(lia) Hx' Hy' Hv')
      as (Hs & Hr & Hz).
    split; [rewrite Hs; lia |]. split; [exact Hr |].
    rewrite Hz, Z.lor_eq_0_iff, Z.lxor_eq_0_iff.
    split.
    + intros [[? ?] ?]; subst; auto.
    + intros [? Heq]; injection Heq as ? ?; subst; auto.
Qed.

Lemma ConstantTimeByteEq_zero (v : Z) :
  0 <= v < 256 -> (subtle.ConstantTimeByteEq v 0 = 1 <-> v = 0).
Proof.
  intros Hv. unfold subtle.ConstantTimeByteEq.
  rewrite Z.lxor_0_r, Z.shiftr_div_pow2 by lia.
  destruct (Z.eq_dec v 0) as [->|Hne].
  - split; [reflexivity | intros _; reflexivity].
  - split; [| tauto].
    rewrite Z.mod_small by lia.
    rewrite Z.div_small by lia. discriminate.
Qed.

Lemma Equal_steps_spec (mac1 mac2 : list Z) :
  hmac.Equal_steps mac1 mac2
  = (subtle.ConstantTimeCompare mac1 mac2 =? 1,
     snd (subtle.ConstantTimeCompare_steps mac1 mac2)).
Proof.
  unfold hmac.Equal_steps, subtle.ConstantTimeCompare.
  destruct (subtle.ConstantTimeCompare_steps mac1 mac2); reflexivity.
Qed.

(** [hmac.Equal] on the bytes of two strings decides their equality. *)
Lemma hmac_Equal_iff (a b : string) :
  hmac.Equal (bytes_of_string a) (bytes_of_string b) = true <-> a = b.
Proof.
  unfold hmac.Equal. rewrite Equal_steps_spec. cbn [fst].
  unfold subtle.ConstantTimeCompare, subtle.ConstantTimeCompare_steps.
  destruct (length (bytes_of_string a) =? length (bytes_of_string b))%nat eqn:Hlen;
    cbn [negb].
  - apply Nat.eqb_eq in Hlen.
    destruct (accumulate_spec _ _ 0 O Hlen (bytes_of_string_range a)
                (bytes_of_string_range b) ltac:(lia)) as (_ & Hr & Hz).
    destruct (subtle.accumulate (bytes_of_string a) (bytes_of_string b) 0 0)
      as [v n] eqn:Hacc. cbn [fst snd] in *.
    split.
    + intros H. apply Z.eqb_eq in H.
      apply (ConstantTimeByteEq_zero v Hr) in H.
      apply Hz in H. now apply bytes_of_string_inj.
    + intros ->. apply Z.eqb_eq. apply (ConstantTimeByteEq_zero v Hr).
      apply Hz. auto.
  - apply Nat.eqb_neq in Hlen. cbn [fst]. split; [discriminate |].
    intros ->. contradiction.
Qed.


(** What [validateDataSignature] does: it prints the two hashes, runs the
    loop of the comparison, and answers by [hmac.Equal]. *)
Lemma validateDataSignature_run (params : gmap string string)
  (receivedHash token : string) :
  let expectedHash :=
    computeHMAC (createDataCheckString params (index params "auth_date")) token in
  validateDataSignature params receivedHash token
  = (mkEffects [Println expectedHash receivedHash]
               (snd (subtle.ConstantTimeCompare_steps
                       (bytes_of_string expectedHash)
                       (bytes_of_string receivedHash))),
     if hmac.Equal (bytes_of_string expectedHash) (bytes_of_string receivedHash)
     then None else Some ErrInvalidHash).
Proof.
  intros expectedHash. unfold validateDataSignature, hmac.Equal.
  fold expectedHash. rewrite Equal_steps_spec. cbn [fst].
  destruct (subtle.ConstantTimeCompare _ _ =? 1); reflexivity.
Qed.

(* ===================================================================== *)
(** ** The order of strings and [sort.Strings] *)
(* ===================================================================== *)

Lemma lex_le_refl (a : string) : lex_le a a.
Proof. induction a; constructor; assumption. Qed.

Lemma lex_le_trans (a b c : string) : lex_le a b -> lex_le b c -> lex_le a c.
Proof.
  intros Hab. revert c.
  induction Hab as [b | x y a b Hxy | x a b Hab IH]; intros c Hbc.
  - constructor.
  - inversion Hbc; subst.
    + apply lex_le_byte. lia.
    + apply lex_le_byte. assumption.
  - inversion Hbc; subst.
    + apply lex_le_byte. assumption.
    + apply lex_le_rest. auto.
Qed.

Lemma lex_le_antisym (a b : string) : lex_le a b -> lex_le b a -> a = b.
Proof.
  intros Hab.
  induction Hab as [b | x y a b Hxy | x a b Hab IH]; intros Hba.
  - inversion Hba. reflexivity.
  - inversion Hba; subst; lia.
  - inversion Hba; subst; [lia | f_equal; auto].
Qed.

#[local] Instance lex_le_transitive : Transitive lex_le.
Proof. intros a b c. apply lex_le_trans. Qed.

#[local] Instance lex_le_antisymm : AntiSymm eq lex_le.
Proof. intros a b. apply lex_le_antisym. Qed.

Lemma less_true_le (a : string) : forall b, sort.less a b = true -> lex_le a b.
Proof.
  induction a as [|x a IH]; intros [|y b]; simpl; try discriminate.
  - intros _. constructor.
  - destruct (byte_of_ascii x <? byte_of_ascii y) eqn:Hxy.
    + intros _. apply lex_le_byte. lia.
    + destruct (byte_of_ascii y <? byte_of_ascii x) eqn:Hyx; [discriminate |].
      intros H. assert (x = y) as -> by (apply byte_of_ascii_inj; lia).
      apply lex_le_rest. auto.
Qed.

Lemma less_false_le (a : string) : forall b, sort.less a b = false -> lex_le b a.
Proof.
  induction a as [|x a IH]; intros [|y b]; simpl; try discriminate.
  - intros _. constructor.
  - intros _. constructor.
  - destruct (byte_of_ascii x <? byte_of_ascii y) eqn:Hxy; [discriminate |].
    destruct (byte_of_ascii y <? byte_of_ascii x) eqn:Hyx.
    + intros _. apply lex_le_byte. lia.
    + intros H. assert (x = y) as -> by (apply byte_of_ascii_inj; lia).
      apply lex_le_rest. auto.
Qed.

Lemma insert_Permutation (x : string) (l : list string) :
  sort.insert x l ≡ₚ x :: l.
Proof.
  induction l as [|y l IH]; simpl; [reflexivity |].
  destruct (sort.less y x); [| reflexivity].
  rewrite IH. apply perm_swap.
Qed.

Lemma insert_HdRel (a x : string) (l : list string) :
  lex_le a x -> HdRel lex_le a l -> HdRel lex_le a (sort.insert x l).
Proof.
  intros Hax Hl. destruct l as [|y l]; simpl.
  - constructor. assumption.
  - destruct (sort.less y x); constructor; [| assumption].
    inversion Hl; assumption.
Qed.

Lemma insert_Sorted (x : string) (l : list string) :
  Sorted lex_le l -> Sorted lex_le (sort.insert x l).
Proof.
  induction l as [|y l IH]; simpl; intros Hs.
  - repeat constructor.
  - apply Sorted_inv in Hs as [Hs Hhd].
    destruct (sort.less y x) eqn:Hyx.
    + constructor; [auto |].
      apply insert_HdRel; [now apply less_true_le | assumption].
    + constructor; [constructor; assumption |].
      constructor. now apply less_false_le.
Qed.

Lemma Strings_Permutation (l : list string) : sort.Strings l ≡ₚ l.
Proof.
  induction l as [|x l IH]; simpl; [reflexivity |].
  rewrite insert_Permutation. now rewrite IH.
Qed.

Lemma Strings_Sorted (l : list string) : Sorted lex_le (sort.Strings l).
Proof.
  induction l as [|x l IH]; simpl; [constructor | now apply insert_Sorted].
Qed.

(** The increasing arrangement of a list is unique, so [sort.Strings] gives
    it whatever the order of its argument. *)
Lemma Strings_unique (l sorted : list string) :
  sorted ≡ₚ l -> Sorted lex_le sorted -> sort.Strings l = sorted.
Proof.
  intros Hp Hs. apply (Sorted_unique lex_le); auto using Strings_Sorted.
  rewrite Strings_Permutation. now symmetry.
Qed.

Lemma Strings_Permutation_eq (l1 l2 : list string) :
  l1 ≡ₚ l2 -> sort.Strings l1 = sort.Strings l2.
Proof.
  intros Hp. apply Strings_unique; [| apply Strings_Sorted].
  rewrite Strings_Permutation. now symmetry.
Qed.

(* ===================================================================== *)
(** ** The data-check string *)
(* ===================================================================== *)

Lemma dataCheck_fold (order : list (string * string)) (acc : list string) :
  fold_left
    (fun pairs kv =>
       if String.eqb (fst kv) "hash" || String.eqb (fst kv) "auth_date"
       then pairs else pairs ++ [fst kv +:+ "=" +:+ snd kv]) order acc
  = acc ++ map (fun kv => fst kv +:+ "=" +:+ snd kv)
             (filter (fun kv => fst kv <> "hash" /\ fst kv <> "auth_date") order).
Proof.
  revert acc. induction order as [|[k v] order IH]; intros acc.
  - simpl. now rewrite app_nil_r.
  - rewrite filter_cons. cbn [fold_left fst snd]. rewrite IH.
    destruct (decide (k <> "hash" /\ k <> "auth_date")) as [[Hh Ha]|Hn].
    + rewrite (proj2 (String.eqb_neq _ _) Hh), (proj2 (String.eqb_neq _ _) Ha).
      cbn [orb map fst snd]. now rewrite <- app_assoc.
    + destruct (String.eqb_spec k "hash") as [->|Hh]; [reflexivity |].
      destruct (String.eqb_spec k "auth_date") as [->|Ha]; [reflexivity |].
      tauto.
Qed.

Lemma dataCheckPairs_lines (order : list (string * string)) (authDate : string) :
  dataCheckPairs order authDate
  = map (fun kv => fst kv +:+ "=" +:+ snd kv)
        (filter (fun kv => fst kv <> "hash" /\ fst kv <> "auth_date") order)
    ++ ["auth_date=" +:+ authDate].
Proof. unfold dataCheckPairs. now rewrite dataCheck_fold. Qed.

Lemma dataCheckPairs_Permutation (o1 o2 : list (string * string)) (a : string) :
  o1 ≡ₚ o2 -> dataCheckPairs o1 a ≡ₚ dataCheckPairs o2 a.
Proof.
  intros Hp. rewrite !dataCheckPairs_lines.
  apply Permutation_app_tail, Permutation_map. now rewrite Hp.
Qed.

Lemma createDataCheckString_in_Permutation (o1 o2 : list (string * string))
  (a : string) :
  o1 ≡ₚ o2 -> createDataCheckString_in o1 a = createDataCheckString_in o2 a.
Proof.
  intros Hp. unfold createDataCheckString_in.
  now rewrite (Strings_Permutation_eq _ _ (dataCheckPairs_Permutation _ _ a Hp)).
Qed.

Lemma Join_terminated (l : list string) :
  l <> [] -> strings.Join l newline +:+ newline = terminated l.
Proof.
  induction l as [|x l IH]; [congruence |]. intros _.
  destruct l as [|y l].
  - simpl. reflexivity.
  - change (strings.Join (x :: y :: l) newline)
      with (x +:+ newline +:+ strings.Join (y :: l) newline).
    change (terminated (x :: y :: l)) with (x +:+ newline +:+ terminated (y :: l)).
    rewrite <- IH by congruence.
    rewrite !append_assoc. reflexivity.
Qed.

Lemma canonical_lines_pairs (params : gmap string string) (authDate : string) :
  dataCheckPairs (map_to_list params) authDate = canonical_lines params authDate.
Proof. apply dataCheckPairs_lines. Qed.

Lemma dataCheckPairs_nonempty (order : list (string * string)) (a : string) :
  sort.Strings (dataCheckPairs order a) <> [].
Proof.
  intros H. pose proof (Strings_Permutation (dataCheckPairs order a)) as Hp.
  rewrite H, dataCheckPairs_lines in Hp.
  apply Permutation_nil in Hp. destruct (map _ _); discriminate.
Qed.

(** C1.  The data-check string of a field map is made of the lines
    [key=value], one per field other than [hash] and [auth_date] with the
    value as it is in the map, and of the line [auth_date=<authDate>]; the
    lines are in increasing byte-wise order of their whole text, there is
    exactly one such arrangement, and the string is these lines joined by a
    line feed, in whatever order the map is gone through: with one more line
    feed at its end it is every line followed by a line feed. *)
Theorem createDataCheckString_sorted_lines
  (params : gmap string string) (authDate : string) :
  exists lines : list string,
    lines ≡ₚ canonical_lines params authDate
    /\ Sorted lex_le lines
    /\ (forall other : list string,
          other ≡ₚ canonical_lines params authDate ->
          Sorted lex_le other -> other = lines)
    /\ (forall order : list (string * string),
          order ≡ₚ map_to_list params ->
          createDataCheckString_in order authDate = strings.Join lines newline)
    /\ createDataCheckString params authDate = strings.Join lines newline
    /\ createDataCheckString params authDate +:+ newline = terminated lines.
Proof.
  exists (sort.Strings (dataCheckPairs (map_to_list params) authDate)).
  rewrite <- canonical_lines_pairs.
  split; [apply Strings_Permutation |].
  split; [apply Strings_Sorted |].
  split; [intros other Hp Hs; symmetry; now apply Strings_unique |].
  split; [intros order Ho; now apply createDataCheckString_in_Permutation |].
  split; [reflexivity |].
  unfold createDataCheckString, createDataCheckString_in.
  apply Join_terminated, dataCheckPairs_nonempty.
Qed.

(* ===================================================================== *)
(** ** The field map of a payload *)
(* ===================================================================== *)

Lemma parseSegment_pairs (segs : list string) :
  forall (m : gmap string (list string)) (e : option error),
    fst (fold_left url.parseSegment segs (m, e))
    = fold_left add_value (omap segment_pair segs) m.
Proof.
  induction segs as [|seg segs IH]; intros m e; [reflexivity |].
  cbn [fold_left omap list_omap]. unfold url.parseSegment at 2, segment_pair.
  destruct (strings.Contains ";" seg); [apply IH |].
  destruct (String.eqb seg EmptyString); [apply IH |].
  destruct (strings.Cut "=" seg) as [k v].
  destruct (url.QueryUnescape k) as [k' [ek|]]; [apply IH |].
  destruct (url.QueryUnescape v) as [v' [ev|]]; [apply IH |].
  cbn [fold_left]. apply IH.
Qed.

Lemma ParseQuery_values (payload : string) :
  snd (url.ParseQuery payload) = None ->
  fst (url.ParseQuery payload) = fold_left add_value (payload_pairs payload) ∅.
Proof.
  unfold url.ParseQuery, payload_pairs.
  destruct (negb (url.urlParamsWithinMax (strings.Count "&" payload + 1)));
    [discriminate |].
  intros _. apply parseSegment_pairs.
Qed.

Lemma add_value_lookup (pairs : list (string * string)) :
  forall (m : gmap string (list string)) (k : string),
    fold_left add_value pairs m !! k
    = match m !! k, values_of k pairs with
      | None, [] => None
      | o, vs => Some (default [] o ++ vs)
      end.
Proof.
  induction pairs as [|[k' v] pairs IH]; intros m k.
  - cbn. destruct (m !! k); cbn; [now rewrite app_nil_r | reflexivity].
  - cbn [fold_left]. rewrite IH. unfold add_value, values_of. cbn [fst snd].
    rewrite filter_cons. cbn [fst].
    destruct (decide (k' = k)) as [->|Hne].
    + rewrite lookup_insert_eq. cbn [map snd].
      destruct (m !! k) as [l|]; cbn [default].
      * unfold id. now rewrite <- app_assoc.
      * reflexivity.
    + rewrite lookup_insert_ne by exact Hne. reflexivity.
Qed.

Lemma first_occurrence_values (k : string) (pairs : list (string * string)) :
  first_occurrence k pairs = head (values_of k pairs).
Proof.
  unfold values_of. induction pairs as [|[k' v] pairs IH]; [reflexivity |].
  rewrite filter_cons. cbn [first_occurrence fst].
  destruct (String.eqb_spec k' k) as [->|Hne].
  - rewrite decide_True by reflexivity. reflexivity.
  - rewrite decide_False by exact Hne. exact IH.
Qed.

Lemma first_occurrence_list_to_map (k : string) (pairs : list (string * string)) :
  first_occurrence k pairs = (list_to_map pairs : gmap string string) !! k.
Proof.
  induction pairs as [|[k' v] pairs IH]; [reflexivity |].
  cbn [first_occurrence list_to_map foldr].
  destruct (String.eqb_spec k' k) as [->|Hne].
  - now rewrite lookup_insert_eq.
  - rewrite lookup_insert_ne by exact Hne. exact IH.
Qed.

(** A payload that parses gives the map of the first value of every key. *)
Lemma parseInitData_first (payload : string) :
  snd (url.ParseQuery payload) = None ->
  parseInitData payload
  = (list_to_map (payload_pairs payload),
     default EmptyString (first_occurrence "hash" (payload_pairs payload)),
     None).
Proof.
  intros Hok. unfold parseInitData.
  pose proof (ParseQuery_values payload Hok) as Hv.
  destruct (url.ParseQuery payload) as [values e]. cbn [fst snd] in *. subst e.
  assert (Hp : map_imap (fun key (_ : list string) => Some (url.Get values key)) values
               = (list_to_map (payload_pairs payload) : gmap string string)).
  { apply map_eq. intros k. rewrite map_lookup_imap.
    rewrite <- first_occurrence_list_to_map, first_occurrence_values.
    unfold url.Get. rewrite Hv, add_value_lookup, lookup_empty.
    destruct (values_of k (payload_pairs payload)); reflexivity. }
  rewrite Hp. unfold index. now rewrite <- first_occurrence_list_to_map.
Qed.

Lemma parseInitData_error (payload : string) (e : error) :
  snd (url.ParseQuery payload) = Some e ->
  parseInitData payload = (∅, EmptyString, Some (Errorf_wv ErrInvalidDataFormat e)).
Proof.
  intros He. unfold parseInitData.
  destruct (url.ParseQuery payload) as [values e']. cbn in He. now subst e'.
Qed.

(* ===================================================================== *)
(** ** The order of the fields *)
(* ===================================================================== *)

Lemma canonical_delete_hash (params : gmap string string) (a : string) :
  createDataCheckString (delete "hash" params) a = createDataCheckString params a.
Proof.
  unfold createDataCheckString, createDataCheckString_in. f_equal.
  apply Strings_Permutation_eq. rewrite !dataCheckPairs_lines.
  apply Permutation_app_tail, Permutation_map.
  destruct (params !! "hash") as [h|] eqn:Hh.
  - rewrite <- (map_to_list_delete params "hash" h Hh).
    rewrite filter_cons. cbn [fst]. rewrite decide_False by tauto. reflexivity.
  - now rewrite delete_id.
Qed.


Lemma parseInitData_pairs (p p' : string) :
  snd (url.ParseQuery p) = None -> snd (url.ParseQuery p') = None ->
  (forall k, first_occurrence k (payload_pairs p')
             = first_occurrence k (payload_pairs p)) ->
  parseInitData p' = parseInitData p.
Proof.
  intros Hp Hp' Hk. rewrite (parseInitData_first p Hp), (parseInitData_first p' Hp').
  rewrite Hk. f_equal. f_equal. apply map_eq. intros k.
  rewrite <- !first_occurrence_list_to_map. apply Hk.
Qed.

Lemma first_occurrence_Permutation (l l' : list (string * string)) (k : string) :
  NoDup (map fst l) -> l' ≡ₚ l -> first_occurrence k l' = first_occurrence k l.
Proof.
  intros Hnd Hp. rewrite !first_occurrence_list_to_map.
  now rewrite (list_to_map_proper l l' Hnd (symmetry Hp)).
Qed.

(** C7.  The data-check string does not depend on the order of the fields.
    Whatever order [range] hands out the entries of the field map in, the
    string is the same; it is a function of the map without its [hash] entry
    and of the [auth_date] given; and two payloads that parse and hold the
    same fields, each key once, in different orders give the same field map,
    hence the same string. *)
Theorem createDataCheckString_order_independent
  (params : gmap string string) (authDate : string) :
  (forall order : list (string * string),
     order ≡ₚ map_to_list params ->
     createDataCheckString_in order authDate
     = createDataCheckString params authDate)
  /\ createDataCheckString (delete "hash" params) authDate
     = createDataCheckString params authDate
  /\ (forall payload payload' : string,
        snd (url.ParseQuery payload) = None ->
        snd (url.ParseQuery payload') = None ->
        NoDup (map fst (payload_pairs payload)) ->
        payload_pairs payload' ≡ₚ payload_pairs payload ->
        parseInitData payload' = parseInitData payload
        /\ createDataCheckString (fst (fst (parseInitData payload'))) authDate
           = createDataCheckString (fst (fst (parseInitData payload))) authDate).
Proof.
  split; [intros order Ho; now apply createDataCheckString_in_Permutation |].
  split; [apply canonical_delete_hash |].
  intros payload payload' Hp Hp' Hnd Hperm.
  assert (He : parseInitData payload' = parseInitData payload).
  { apply parseInitData_pairs; auto.
    intros k. now apply first_occurrence_Permutation. }
  split; [exact He | now rewrite He].
Qed.

(* ===================================================================== *)
(** ** Keys that occur more than once *)
(* ===================================================================== *)



Lemma first_only_keys (l : list (string * string)) (k : string) :
  k ∈ map fst (first_only l) -> k ∈ map fst l.
Proof.
  induction l as [|[k' v] l IH]; [easy |].
  cbn [first_only map fst]. rewrite !elem_of_cons.
  intros [->|H]; [now left |]. right. apply IH.
  apply list_elem_of_fmap in H as ([k0 v0] & -> & H).
  apply list_elem_of_filter in H as [_ H].
  apply list_elem_of_fmap. now exists (k0, v0).
Qed.




(* ===================================================================== *)
(** ** The signature *)
(* ===================================================================== *)

(** C2.  The signature is the lowercase hexadecimal form of
    HMAC-SHA256(HMAC-SHA256("WebAppData", token), canonical string); it has
    64 characters, each a digit or a letter from [a] to [f].  [computeHMAC]
    is a total function: it has a result on all inputs and the same result
    on the same inputs. *)
Theorem computeHMAC_signature (s t : string) :
  computeHMAC s t
  = hex.EncodeToString
      (HMAC_SHA256 (HMAC_SHA256 (bytes_of_string "WebAppData") (bytes_of_string t))
                   (bytes_of_string s))
  /\ String.length (computeHMAC s t) = 64%nat
  /\ Forall lower_hex (list_ascii_of_string (computeHMAC s t))
  /\ (forall s' t', s' = s -> t' = t -> computeHMAC s' t' = computeHMAC s t).
Proof.
  split; [apply computeHMAC_Signer |].
  split; [apply computeHMAC_length |].
  split; [apply hex_lower |].
  intros s' t' -> ->. reflexivity.
Qed.


(* ===================================================================== *)
(** ** The required fields *)
(* ===================================================================== *)

Lemma index_empty_iff (params : gmap string string) (k : string) :
  String.eqb (index params k) EmptyString = true <-> absent_or_empty params k.
Proof.
  unfold index, absent_or_empty. rewrite String.eqb_eq.
  destruct (params !! k) as [v|]; cbn [default]; unfold id.
  - split; [intros ->; now right | intros [H|H]; congruence].
  - split; [now left | reflexivity].
Qed.

Lemma index_empty_false (params : gmap string string) (k : string) :
  ~ absent_or_empty params k -> String.eqb (index params k) EmptyString = false.
Proof.
  intros H. apply not_true_is_false. now rewrite index_empty_iff.
Qed.

(** C3 (amended).  The required-field check looks at [hash], then [user],
    then [auth_date], and fails at the first of them that is absent or
    empty: with [ErrInvalidHash] for [hash], the very error of a signature
    mismatch, with [ErrUserFieldMissing] for [user], with
    [ErrAuthDateMissing] for [auth_date].  A map without [hash] and without
    [user] reports the error of [hash]. *)
Theorem validateRequiredFields_order (params : gmap string string) :
  (absent_or_empty params "hash" ->
     validateRequiredFields params = Some ErrInvalidHash)
  /\ (~ absent_or_empty params "hash" -> absent_or_empty params "user" ->
        validateRequiredFields params = Some ErrUserFieldMissing)
  /\ (~ absent_or_empty params "hash" -> ~ absent_or_empty params "user" ->
        absent_or_empty params "auth_date" ->
        validateRequiredFields params = Some ErrAuthDateMissing)
  /\ (~ absent_or_empty params "hash" -> ~ absent_or_empty params "user" ->
        ~ absent_or_empty params "auth_date" ->
        validateRequiredFields params = None)
  /\ (forall receivedHash token,
        computeHMAC (createDataCheckString params (index params "auth_date")) token
        <> receivedHash ->
        snd (validateDataSignature params receivedHash token) = Some ErrInvalidHash).
Proof.
  unfold validateRequiredFields.
  split; [intros H; now rewrite (proj2 (index_empty_iff _ _) H) |].
  split; [intros H1 H2; rewrite (index_empty_false _ _ H1);
          now rewrite (proj2 (index_empty_iff _ _) H2) |].
  split; [intros H1 H2 H3; rewrite (index_empty_false _ _ H1),
            (index_empty_false _ _ H2); now rewrite (proj2 (index_empty_iff _ _) H3) |].
  split; [intros H1 H2 H3; now rewrite (index_empty_false _ _ H1),
            (index_empty_false _ _ H2), (index_empty_false _ _ H3) |].
  intros receivedHash token Hne. rewrite validateDataSignature_run. cbn [snd].
  destruct (hmac.Equal _ _) eqn:E; [| reflexivity].
  apply hmac_Equal_iff in E. contradiction.
Qed.

(* ===================================================================== *)
(** ** The stages of the call *)
(* ===================================================================== *)

(** The call after its first three stages have passed. *)
Lemma VerifyWebAppData_stages (now : time.Time) (payload token : string)
  (params : gmap string string) (hashValue : string) :
  parseInitData payload = (params, hashValue, None) ->
  validateRequiredFields params = None ->
  validateAuthTimestamp now (index params "auth_date") = None ->
  VerifyWebAppData now payload token
  = match validateDataSignature params hashValue token with
    | (eff, Some e) => mkOutcome zeroUser (Some e) (printed eff)
    | (eff, None) =>
        let '(u, e) := decodeUserData (index params "user") in
        mkOutcome u e (printed eff)
    end.
Proof.
  intros Hp Hr Ht. unfold VerifyWebAppData. now rewrite Hp, Hr, Ht.
Qed.

(** Every failure other than a JSON decoding failure comes with the zero
    profile. *)
Lemma VerifyWebAppData_zero_profile (now : time.Time) (payload token : string)
  (e : error) :
  err (VerifyWebAppData now payload token) = Some e ->
  (forall cause, e <> Errorf_w "json decode failed" cause) ->
  user (VerifyWebAppData now payload token) = zeroUser.
Proof.
  unfold VerifyWebAppData.
  destruct (parseInitData payload) as [[params hashValue] [e0|]]; [reflexivity |].
  destruct (validateRequiredFields params); [reflexivity |].
  destruct (validateAuthTimestamp now (index params "auth_date")); [reflexivity |].
  destruct (validateDataSignature params hashValue token) as [out [e1|]];
    [reflexivity |].
  unfold decodeUserData.
  destruct (url.QueryUnescape (index params "user")) as [d [e2|]]; [reflexivity |].
  destruct (json.Unmarshal d zeroUser) as [u [e3|]]; cbn [err user].
  - intros [= <-] Hne. now destruct (Hne e3).
  - discriminate.
Qed.

(* ===================================================================== *)
(** ** [strconv.ParseInt] *)
(* ===================================================================== *)

Lemma digits_value_ge (s : string) :
  forall acc v, 0 <= acc -> digits_value s acc = Some v -> acc <= v.
Proof.
  induction s as [|c s IH]; intros acc v Hacc; cbn [digits_value].
  - intros [= <-]. lia.
  - destruct ((48 <=? byte_of_ascii c) && (byte_of_ascii c <=? 57)) eqn:Hd;
      [| discriminate].
    apply andb_prop in Hd as [H1 H2]. apply Z.leb_le in H1, H2.
    intros Hv. apply IH in Hv; lia.
Qed.

Lemma parseDigits_spec (s0 s : string) :
  forall n, 0 <= n <= strconv.maxUint64 ->
    match digits_value s n with
    | Some v =>
        if v <=? strconv.maxUint64 then strconv.parseDigits s0 s n = (v, None)
        else strconv.parseDigits s0 s n
             = (strconv.maxUint64, Some (NumError "ParseUint" s0 ErrRange))
    | None =>
        strconv.parseDigits s0 s n = (0, Some (NumError "ParseUint" s0 ErrSyntax))
        \/ strconv.parseDigits s0 s n
           = (strconv.maxUint64, Some (NumError "ParseUint" s0 ErrRange))
    end.
Proof.
  assert (Hmax : strconv.maxUint64 = 18446744073709551615) by reflexivity.
  induction s as [|c s IH]; intros n Hn; cbn [digits_value strconv.parseDigits].
  - rewrite (proj2 (Z.leb_le n strconv.maxUint64)) by lia. reflexivity.
  - cbv zeta.
    destruct ((48 <=? byte_of_ascii c) && (byte_of_ascii c <=? 57)) eqn:Hd;
      [| now left].
    apply andb_prop in Hd as [H1 H2]. apply Z.leb_le in H1, H2.
    set (d := byte_of_ascii c - 48) in *. assert (Hdr : 0 <= d <= 9) by lia.
    clearbody d.
    destruct (strconv.maxUint64 / 10 + 1 <=? n) eqn:Hcut.
    + apply Z.leb_le in Hcut.
      assert (Hbig : strconv.maxUint64 < 10 * n + d)
        by (rewrite Hmax in *; Z.to_euclidean_division_equations; lia).
      destruct (digits_value s (10 * n + d)) as [v|] eqn:Hv; [| now right].
      apply digits_value_ge in Hv; [| lia].
      now rewrite (proj2 (Z.leb_gt v strconv.maxUint64)) by lia.
    + apply Z.leb_gt in Hcut.
      assert (Hn10 : n * 10 + d < 2 ^ 64 + 4)
        by (rewrite Hmax in *; Z.to_euclidean_division_equations; lia).
      destruct (Z_lt_le_dec (n * 10 + d) (2 ^ 64)) as [Hfit|Hover].
      * rewrite (Z.mod_small (n * 10 + d)) by lia.
        rewrite (proj2 (Z.ltb_ge (n * 10 + d) (n * 10))) by lia.
        rewrite (proj2 (Z.ltb_ge strconv.maxUint64 (n * 10 + d))) by lia.
        cbn [orb]. replace (10 * n + d) with (n * 10 + d) by lia.
        apply IH. lia.
      * assert (Hm : (n * 10 + d) mod 2 ^ 64 = n * 10 + d - 2 ^ 64)
          by (Z.to_euclidean_division_equations; lia).
        rewrite Hm. rewrite (proj2 (Z.ltb_lt (n * 10 + d - 2 ^ 64) (n * 10))) by lia.
        cbn [orb].
        destruct (digits_value s (10 * n + d)) as [v|] eqn:Hv; [| now right].
        apply digits_value_ge in Hv; [| lia].
        now rewrite (proj2 (Z.leb_gt v strconv.maxUint64)) by lia.
Qed.

Lemma ParseUint_spec (s : string) :
  s <> EmptyString ->
  match digits_value s 0 with
  | Some v =>
      if v <=? strconv.maxUint64 then strconv.ParseUint s = (v, None)
      else strconv.ParseUint s
           = (strconv.maxUint64, Some (NumError "ParseUint" s ErrRange))
  | None =>
      strconv.ParseUint s = (0, Some (NumError "ParseUint" s ErrSyntax))
      \/ strconv.ParseUint s
         = (strconv.maxUint64, Some (NumError "ParseUint" s ErrRange))
  end.
Proof.
  intros Hne. unfold strconv.ParseUint.
  rewrite (proj2 (String.eqb_neq s EmptyString) Hne).
  apply parseDigits_spec. unfold strconv.maxUint64. lia.
Qed.

(** What [ParseInt] makes of the sign and of the result of [ParseUint]. *)
Lemma ParseInt_of_digits (s0 digits : string) (neg : bool) :
  digits <> EmptyString ->
  let finish (r : Z * option error) : Z * option error :=
    match r with
    | (_, Some (NumError _ _ ErrSyntax)) =>
        (0, Some (NumError "ParseInt" s0 ErrSyntax))
    | (un, _) =>
        if negb neg && (2 ^ 63 <=? un) then
          (2 ^ 63 - 1, Some (NumError "ParseInt" s0 ErrRange))
        else if neg && (2 ^ 63 <? un) then
          (- 2 ^ 63, Some (NumError "ParseInt" s0 ErrRange))
        else (if neg then - un else un, None)
    end in
  match digits_value digits 0 with
  | Some v =>
      let x := if neg then - v else v in
      if (- 2 ^ 63 <=? x) && (x <? 2 ^ 63)
      then finish (strconv.ParseUint digits) = (x, None)
      else exists n, finish (strconv.ParseUint digits)
                     = (n, Some (NumError "ParseInt" s0 ErrRange))
  | None =>
      exists n e, finish (strconv.ParseUint digits)
                  = (n, Some (NumError "ParseInt" s0 e))
  end.
Proof.
  intros Hne finish. pose proof (ParseUint_spec digits Hne) as HU.
  assert (Hmax : strconv.maxUint64 = 18446744073709551615) by reflexivity.
  destruct (digits_value digits 0) as [v|] eqn:Hv.
  - assert (Hv0 : 0 <= v) by (apply digits_value_ge in Hv; lia).
    cbv zeta.
    destruct (v <=? strconv.maxUint64) eqn:Hle;
      [apply Z.leb_le in Hle | apply Z.leb_gt in Hle]; rewrite HU; subst finish;
      cbv beta iota.
    + destruct neg; cbn [negb andb].
      * destruct (2 ^ 63 <? v) eqn:E; [apply Z.ltb_lt in E | apply Z.ltb_ge in E].
        -- rewrite (proj2 (andb_false_iff _ _)); [eauto |].
           left. apply Z.leb_gt. lia.
        -- rewrite (proj2 (andb_true_iff _ _)); [reflexivity |].
           split; [apply Z.leb_le | apply Z.ltb_lt]; lia.
      * destruct (2 ^ 63 <=? v) eqn:E; [apply Z.leb_le in E | apply Z.leb_gt in E].
        -- rewrite (proj2 (andb_false_iff _ _)); [eauto |].
           right. apply Z.ltb_ge. lia.
        -- rewrite (proj2 (andb_true_iff _ _)); [reflexivity |].
           split; [apply Z.leb_le | apply Z.ltb_lt]; lia.
    + destruct neg; cbn [negb andb].
      * rewrite (proj2 (Z.ltb_lt (2 ^ 63) strconv.maxUint64)) by (rewrite Hmax; lia).
        rewrite (proj2 (andb_false_iff _ _)); [eauto |].
        left. apply Z.leb_gt. lia.
      * rewrite (proj2 (Z.leb_le (2 ^ 63) strconv.maxUint64)) by (rewrite Hmax; lia).
        rewrite (proj2 (andb_false_iff _ _)); [eauto |].
        right. apply Z.ltb_ge. lia.
  - destruct HU as [HU|HU]; rewrite HU; subst finish; cbv beta iota; [eauto |].
    destruct neg; cbn [negb andb].
    + rewrite (proj2 (Z.ltb_lt (2 ^ 63) strconv.maxUint64)) by (rewrite Hmax; lia).
      eauto.
    + rewrite (proj2 (Z.leb_le (2 ^ 63) strconv.maxUint64)) by (rewrite Hmax; lia).
      eauto.
Qed.

(** [ParseInt(s, 10, 64)] succeeds exactly on the texts that write an integer
    of 64 bits in base 10, and gives that integer. *)
Lemma ParseInt_spec (s : string) :
  match decimal_value s with
  | Some v =>
      if (- 2 ^ 63 <=? v) && (v <? 2 ^ 63) then strconv.ParseInt s = (v, None)
      else exists n, strconv.ParseInt s = (n, Some (NumError "ParseInt" s ErrRange))
  | None => exists n e, strconv.ParseInt s = (n, Some (NumError "ParseInt" s e))
  end.
Proof.
  destruct s as [|c r]; [cbn; eauto |].
  unfold decimal_value, strconv.ParseInt.
  destruct (Ascii.eqb c "+") eqn:Eplus.
  - apply Ascii.eqb_eq in Eplus. subst c.
    change (Ascii.eqb "+" "-") with false. cbn [orb].
    destruct (String.eqb_spec r EmptyString) as [->|Hne]; [cbn; eauto |].
    pose proof (ParseInt_of_digits (String "+" r) r false Hne) as H.
    cbv zeta in H. destruct (digits_value r 0); exact H.
  - destruct (Ascii.eqb c "-") eqn:Eminus.
    + apply Ascii.eqb_eq in Eminus. subst c. cbn [orb].
      destruct (String.eqb_spec r EmptyString) as [->|Hne]; [cbn; eauto |].
      pose proof (ParseInt_of_digits (String "-" r) r true Hne) as H.
      cbv zeta in H. destruct (digits_value r 0); exact H.
    + cbn [orb].
      pose proof (ParseInt_of_digits (String c r) (String c r) false
                    ltac:(discriminate)) as H.
      cbv zeta in H. destruct (digits_value (String c r) 0); exact H.
Qed.

(* ===================================================================== *)
(** ** Arithmetic of [time] *)
(* ===================================================================== *)

Lemma int64_small (x : Z) : - 2 ^ 63 <= x < 2 ^ 63 -> time.int64 x = x.
Proof. unfold time.int64. intros H. Z.to_euclidean_division_equations. lia. Qed.

Lemma int64_range (x : Z) : - 2 ^ 63 <= time.int64 x < 2 ^ 63.
Proof. unfold time.int64. Z.to_euclidean_division_equations. lia. Qed.

Lemma int64_cong (x : Z) : exists k, time.int64 x = x + k * 2 ^ 64.
Proof.
  unfold time.int64. exists (- ((x + 2 ^ 63) / 2 ^ 64)).
  Z.to_euclidean_division_equations. lia.
Qed.

Lemma int64_unique (x y k : Z) :
  x = y + k * 2 ^ 64 -> - 2 ^ 63 <= y < 2 ^ 63 -> time.int64 x = y.
Proof.
  intros Hx Hy. destruct (int64_cong x) as [j Hj].
  pose proof (int64_range x). lia.
Qed.

(** The difference computed by [Sub] is the true difference, wrapped. *)
Lemma Sub_wrapped (a b c e : Z) :
  time.int64 (time.int64 (time.int64 (a - b) * time.Second) + time.int64 (c - e))
  = time.int64 ((a - b) * 1000000000 + (c - e)).
Proof.
  unfold time.Second.
  destruct (int64_cong (a - b)) as [k1 H1].
  destruct (int64_cong (time.int64 (a - b) * 1000000000)) as [k2 H2].
  destruct (int64_cong (c - e)) as [k3 H3].
  destruct (int64_cong ((a - b) * 1000000000 + (c - e))) as [k4 H4].
  apply (int64_unique _ _ (k1 * 1000000000 + k2 + k3 - k4)).
  - lia.
  - apply int64_range.
Qed.

Ltac compare_cases :=
  repeat match goal with
  | H : (_ <? _) = true |- _ => apply Z.ltb_lt in H
  | H : (_ <? _) = false |- _ => apply Z.ltb_ge in H
  | H : (_ <=? _) = true |- _ => apply Z.leb_le in H
  | H : (_ <=? _) = false |- _ => apply Z.leb_gt in H
  end.

(** [addSec]: the exact sum when it fits an [int64], else one of the two
    saturated values. *)
Lemma addSec_spec (s n d : Z) :
  - 2 ^ 63 <= s < 2 ^ 63 -> - 2 ^ 63 <= d < 2 ^ 63 ->
  if (- 2 ^ 63 <=? s + d) && (s + d <? 2 ^ 63)
  then time.addSec (time.mkTime s n) d = time.mkTime (s + d) n
  else time.sec (time.addSec (time.mkTime s n) d) = 2 ^ 63 - 1
       \/ time.sec (time.addSec (time.mkTime s n) d) = - (2 ^ 63 - 1).
Proof.
  intros Hs Hd. unfold time.addSec. cbn [time.sec time.nsec].
  destruct (int64_cong (s + d)) as [k Hk].
  pose proof (int64_range (s + d)) as Hrange.
  destruct ((- 2 ^ 63 <=? s + d) && (s + d <? 2 ^ 63)) eqn:E.
  - apply andb_prop in E as [Ea Eb]. compare_cases.
    rewrite (int64_small (s + d)) by lia.
    destruct (s <? s + d) eqn:E2, (0 <? d) eqn:E3; cbn [Bool.eqb];
      compare_cases; try lia; reflexivity.
  - apply andb_false_iff in E.
    destruct (s <? time.int64 (s + d)) eqn:E2, (0 <? d) eqn:E3;
      cbn [Bool.eqb time.sec]; compare_cases;
      destruct E as [E|E]; compare_cases; lia.
Qed.

(** [Add] on a time with its nanoseconds in range: the exact sum when its
    seconds fit an [int64], a saturated time otherwise. *)
Lemma Add_spec (s n d : Z) :
  - 2 ^ 63 <= s < 2 ^ 63 -> 0 <= n < 1000000000 -> - 2 ^ 63 <= d < 2 ^ 63 ->
  let total := s * 1000000000 + n + d in
  if (- 2 ^ 63 <=? total / 1000000000) && (total / 1000000000 <? 2 ^ 63)
  then time.Add (time.mkTime s n) d
       = time.mkTime (total / 1000000000) (total mod 1000000000)
  else time.sec (time.Add (time.mkTime s n) d) = 2 ^ 63 - 1
       \/ time.sec (time.Add (time.mkTime s n) d) = - (2 ^ 63 - 1).
Proof.
  intros Hs Hn Hd total. subst total.
  unfold time.Add. cbn [time.sec time.nsec].
  set (q := Z.quot d 1000000000). set (r := Z.rem d 1000000000).
  assert (Hqr : d = 1000000000 * q + r /\ - 1000000000 < r < 1000000000
                /\ (0 <= d -> 0 <= r) /\ (d <= 0 -> r <= 0)).
  { subst q r. Z.to_euclidean_division_equations. lia. }
  clearbody q r. destruct Hqr as (Hd' & Hr & Hr1 & Hr2). subst d.
  assert (Hq : - 9223372037 <= q <= 9223372037) by lia.
  set (total := s * 1000000000 + n + (1000000000 * q + r)).
  destruct (1000000000 <=? n + r) eqn:E1;
    [| destruct (n + r <? 0) eqn:E0]; compare_cases.
  - assert (T : total / 1000000000 = s + (q + 1)
                /\ total mod 1000000000 = n + r - 1000000000)
      by (subst total; Z.to_euclidean_division_equations; lia).
    destruct T as [-> ->]. apply addSec_spec; lia.
  - assert (T : total / 1000000000 = s + (q - 1)
                /\ total mod 1000000000 = n + r + 1000000000)
      by (subst total; Z.to_euclidean_division_equations; lia).
    destruct T as [-> ->]. apply addSec_spec; lia.
  - assert (T : total / 1000000000 = s + q /\ total mod 1000000000 = n + r)
      by (subst total; Z.to_euclidean_division_equations; lia).
    destruct T as [-> ->]. apply addSec_spec; lia.
Qed.

(** [Sub] is the true difference in nanoseconds, brought into the range of a
    [Duration]. *)
Lemma Sub_spec (ts tn us un : Z) :
  - (2 ^ 63 - 1) < ts < 2 ^ 63 - 1 -> 0 <= tn < 1000000000 ->
  - 2 ^ 63 <= us < 2 ^ 63 -> 0 <= un < 1000000000 ->
  time.Sub (time.mkTime ts tn) (time.mkTime us un)
  = clamp ((ts - us) * 1000000000 + (tn - un)).
Proof.
  intros Hts Htn Hus Hun. unfold time.Sub. cbn [time.sec time.nsec].
  rewrite Sub_wrapped.
  set (D := (ts - us) * 1000000000 + (tn - un)).
  pose proof (int64_range D) as Hr.
  pose proof (Add_spec us un (time.int64 D) Hus Hun Hr) as HA.
  cbv zeta in HA.
  unfold clamp, time.minDuration, time.maxDuration.
  destruct (D <? - 2 ^ 63) eqn:Elo; [apply Z.ltb_lt in Elo | apply Z.ltb_ge in Elo].
  - (* below the range: the sum cannot be [t] *)
    assert (Hne : time.Equal (time.Add (time.mkTime us un) (time.int64 D))
                             (time.mkTime ts tn) = false).
    { unfold time.Equal. cbn [time.sec time.nsec].
      destruct ((- 2 ^ 63 <=? (us * 1000000000 + un + time.int64 D) / 1000000000)
                && ((us * 1000000000 + un + time.int64 D) / 1000000000 <? 2 ^ 63)).
      - rewrite HA. cbn [time.sec time.nsec].
        apply andb_false_iff.
        destruct (Z.eqb_spec ((us * 1000000000 + un + time.int64 D) / 1000000000) ts)
          as [E1|]; [| now left].
        destruct (Z.eqb_spec ((us * 1000000000 + un + time.int64 D) mod 1000000000) tn)
          as [E2|]; [| now right].
        exfalso. subst D. Z.to_euclidean_division_equations. lia.
      - apply andb_false_iff. left. apply Z.eqb_neq. lia. }
    rewrite Hne. unfold time.Before. cbn [time.sec time.nsec].
    assert (ts < us) by (subst D; lia).
    now rewrite (proj2 (Z.ltb_lt ts us)).
  - destruct (2 ^ 63 - 1 <? D) eqn:Ehi; [apply Z.ltb_lt in Ehi | apply Z.ltb_ge in Ehi].
    + assert (Hne : time.Equal (time.Add (time.mkTime us un) (time.int64 D))
                               (time.mkTime ts tn) = false).
      { unfold time.Equal. cbn [time.sec time.nsec].
        destruct ((- 2 ^ 63 <=? (us * 1000000000 + un + time.int64 D) / 1000000000)
                  && ((us * 1000000000 + un + time.int64 D) / 1000000000 <? 2 ^ 63)).
        - rewrite HA. cbn [time.sec time.nsec].
          apply andb_false_iff.
          destruct (Z.eqb_spec ((us * 1000000000 + un + time.int64 D) / 1000000000) ts)
            as [E1|]; [| now left].
          destruct (Z.eqb_spec ((us * 1000000000 + un + time.int64 D) mod 1000000000) tn)
            as [E2|]; [| now right].
          exfalso. subst D. Z.to_euclidean_division_equations. lia.
        - apply andb_false_iff. left. apply Z.eqb_neq. lia. }
      rewrite Hne. unfold time.Before. cbn [time.sec time.nsec].
      assert (Hlt : us < ts) by (subst D; lia).
      rewrite (proj2 (Z.ltb_ge ts us)) by lia.
      rewrite (proj2 (Z.eqb_neq ts us)) by lia. reflexivity.
    + rewrite (int64_small D) in * by lia.
      assert (Hdiv : (us * 1000000000 + un + D) / 1000000000 = ts
                     /\ (us * 1000000000 + un + D) mod 1000000000 = tn)
        by (subst D; Z.to_euclidean_division_equations; lia).
      destruct Hdiv as [Hq Hm]. rewrite Hq, Hm in HA.
      rewrite (proj2 (Z.leb_le (- 2 ^ 63) ts)) in HA by lia.
      rewrite (proj2 (Z.ltb_lt ts (2 ^ 63))) in HA by lia.
      cbn [andb] in HA. rewrite HA. unfold time.Equal. cbn [time.sec time.nsec].
      now rewrite !Z.eqb_refl.
Qed.

Lemma clamp_exceeds (d : Z) : (MaxDataAge <? clamp d) = (MaxDataAge <? d).
Proof.
  unfold clamp, MaxDataAge, time.Hour, time.Second, time.minDuration,
    time.maxDuration.
  destruct (d <? - 2 ^ 63) eqn:E1; [apply Z.ltb_lt in E1 | apply Z.ltb_ge in E1].
  - rewrite (proj2 (Z.ltb_ge _ _)) by lia. symmetry. apply Z.ltb_ge. lia.
  - destruct (2 ^ 63 - 1 <? d) eqn:E2; [apply Z.ltb_lt in E2 | reflexivity].
    rewrite (proj2 (Z.ltb_lt _ _)) by lia. symmetry. apply Z.ltb_lt. lia.
Qed.

(* ===================================================================== *)
(** ** The timestamp and the scenario *)
(* ===================================================================== *)

Lemma validateAuthTimestamp_parsed (now : time.Time) (authDate : string) (ts : Z) :
  strconv.ParseInt authDate = (ts, None) ->
  validateAuthTimestamp now authDate
  = if MaxDataAge <? time.Since now (time.Unix ts 0) then Some ErrDataExpired
    else None.
Proof. intros H. unfold validateAuthTimestamp. now rewrite H. Qed.

Lemma validateAuthTimestamp_invalid (now : time.Time) (authDate : string)
  (n : Z) (e : error) :
  strconv.ParseInt authDate = (n, Some e) ->
  validateAuthTimestamp now authDate = Some (Errorf_wv ErrAuthDateInvalid e).
Proof. intros H. unfold validateAuthTimestamp. now rewrite H. Qed.

Lemma scenario_parses : snd (url.ParseQuery scenario_payload) = None.
Proof. vm_compute. reflexivity. Qed.

Lemma scenario_canonical_string :
  createDataCheckString (fst (fst (parseInitData scenario_payload))) scenario_authDate
  = scenario_canonical.
Proof. vm_compute. reflexivity. Qed.

(** The clock of the call: [unix_sec] seconds and [unix_nsec] nanoseconds
    after the Unix epoch, not before year 1 and below [2^62] seconds. *)
Section Clock.

Variables unix_sec unix_nsec : Z.
Hypothesis clock_sec : - time.unixToInternal <= unix_sec < 2 ^ 62.
Hypothesis clock_nsec : 0 <= unix_nsec < 1000000000.

(** The age that [validateAuthTimestamp] compares with [MaxDataAge], for a
    timestamp that [time.Unix] represents without wrapping. *)
Lemma Since_Unix (ts : Z) :
  - 2 ^ 63 <= ts <= maxUnix ->
  time.Since (time.Now unix_sec unix_nsec) (time.Unix ts 0)
  = clamp (age unix_sec unix_nsec ts).
Proof.
  unfold maxUnix, age. intros Hts.
  assert (Hu : time.unixToInternal = 62135596800) by reflexivity.
  unfold time.Since, time.Now, time.Unix.
  change ((0 <? 0) || (1000000000 <=? 0)) with false. cbv iota.
  rewrite (int64_small (unix_sec + time.unixToInternal)) by lia.
  rewrite (int64_small (ts + time.unixToInternal)) by lia.
  rewrite Sub_spec by lia. f_equal. lia.
Qed.

(** A timestamp beyond [maxUnix] wraps around in [time.Unix] to a time some
    292 billion years back: its age is the largest [Duration]. *)
Lemma Since_Unix_wrapped (ts : Z) :
  maxUnix < ts < 2 ^ 63 ->
  time.Since (time.Now unix_sec unix_nsec) (time.Unix ts 0) = time.maxDuration.
Proof.
  unfold maxUnix. intros Hts.
  assert (Hu : time.unixToInternal = 62135596800) by reflexivity.
  unfold time.Since, time.Now, time.Unix.
  change ((0 <? 0) || (1000000000 <=? 0)) with false. cbv iota.
  rewrite (int64_small (unix_sec + time.unixToInternal)) by lia.
  rewrite (int64_unique (ts + time.unixToInternal)
             (ts + time.unixToInternal - 2 ^ 64) 1) by lia.
  rewrite Sub_spec by lia. unfold clamp, time.minDuration, time.maxDuration.
  rewrite (proj2 (Z.ltb_ge _ _)) by lia.
  rewrite (proj2 (Z.ltb_lt _ _)) by lia. reflexivity.
Qed.

Lemma validateAuthTimestamp_age (ts : Z) (authDate : string) :
  decimal_value authDate = Some ts -> - 2 ^ 63 <= ts <= maxUnix ->
  validateAuthTimestamp (time.Now unix_sec unix_nsec) authDate
  = if day <? age unix_sec unix_nsec ts then Some ErrDataExpired else None.
Proof.
  intros Hv Hts. pose proof (ParseInt_spec authDate) as HP.
  rewrite Hv in HP.
  assert (Hu : maxUnix = 9223371974719179007) by reflexivity.
  rewrite (proj2 (andb_true_iff _ _)) in HP
    by (split; [apply Z.leb_le | apply Z.ltb_lt]; lia).
  rewrite (validateAuthTimestamp_parsed _ _ _ HP).
  rewrite Since_Unix by assumption. now rewrite clamp_exceeds.
Qed.

(** C4 (amended).  The timestamp check fails with [ErrAuthDateInvalid]
    exactly when [auth_date] does not write a 64-bit signed integer in base
    10.  For a timestamp up to [maxUnix], the last second that [time.Unix]
    represents, it fails with [ErrDataExpired] exactly when the time since
    then, to the nanosecond, exceeds 24 hours: [now - MaxAge - 1] is
    expired, [now - MaxAge + 1] is accepted, and so is every timestamp in the
    future.  A timestamp beyond [maxUnix] is expired. *)
Theorem validateAuthTimestamp_spec (authDate : string) :
  let now := time.Now unix_sec unix_nsec in
  ((exists e, validateAuthTimestamp now authDate
              = Some (Errorf_wv ErrAuthDateInvalid e))
   <-> ~ (exists ts, decimal_value authDate = Some ts /\ - 2 ^ 63 <= ts < 2 ^ 63))
  /\ (forall ts, decimal_value authDate = Some ts -> - 2 ^ 63 <= ts <= maxUnix ->
        (validateAuthTimestamp now authDate = Some ErrDataExpired
         <-> day < age unix_sec unix_nsec ts)
        /\ (validateAuthTimestamp now authDate = None
            <-> age unix_sec unix_nsec ts <= day)
        /\ (ts = unix_sec - 24 * 3600 - 1 ->
            validateAuthTimestamp now authDate = Some ErrDataExpired)
        /\ (ts = unix_sec - 24 * 3600 + 1 ->
            validateAuthTimestamp now authDate = None)
        /\ (unix_sec < ts -> validateAuthTimestamp now authDate = None))
  /\ (forall ts, decimal_value authDate = Some ts -> maxUnix < ts < 2 ^ 63 ->
        validateAuthTimestamp now authDate = Some ErrDataExpired).
Proof.
  intros now.
  assert (Hu : maxUnix = 9223371974719179007) by reflexivity.
  assert (Hday : day = 86400000000000) by reflexivity.
  pose proof (ParseInt_spec authDate) as HP.
  split; [| split].
  - destruct (decimal_value authDate) as [v|] eqn:Hv.
    + destruct ((- 2 ^ 63 <=? v) && (v <? 2 ^ 63)) eqn:Hr.
      * apply andb_prop in Hr as [H1 H2]. compare_cases.
        rewrite (validateAuthTimestamp_parsed _ _ _ HP).
        split.
        -- intros [e He]. destruct (MaxDataAge <? _); discriminate.
        -- intros Hno. exfalso. apply Hno. exists v. auto.
      * destruct HP as [n HP]. rewrite (validateAuthTimestamp_invalid _ _ _ _ HP).
        split; [| eauto].
        intros _ (ts & [= <-] & Hts).
        apply andb_false_iff in Hr as [Hr|Hr]; compare_cases; lia.
    + destruct HP as (n & e & HP). rewrite (validateAuthTimestamp_invalid _ _ _ _ HP).
      split; [| eauto]. intros _ (ts & [=] & _).
  - intros ts Hv Hts. subst now.
    rewrite (validateAuthTimestamp_age _ _ Hv Hts).
    unfold age in *. rewrite Hday.
    destruct (86400000000000 <? (unix_sec - ts) * 1000000000 + unix_nsec) eqn:E;
      compare_cases;
      repeat split; try (intros; lia); auto; try discriminate.
  - intros ts Hv Hts. rewrite Hv in HP.
    rewrite (proj2 (andb_true_iff _ _)) in HP
      by (split; [apply Z.leb_le | apply Z.ltb_lt]; lia).
    subst now. rewrite (validateAuthTimestamp_parsed _ _ _ HP).
    rewrite Since_Unix_wrapped by lia. reflexivity.
Qed.

(** The call on a payload that parses, has its three fields and a timestamp
    [ts] no older than 24 hours: what is left is the signature check and the
    user decoder. *)
Lemma VerifyWebAppData_fresh (ts : Z) (payload token : string) :
  snd (url.ParseQuery payload) = None ->
  let params : gmap string string := list_to_map (payload_pairs payload) in
  validateRequiredFields params = None ->
  decimal_value (index params "auth_date") = Some ts ->
  - 2 ^ 63 <= ts <= maxUnix ->
  age unix_sec unix_nsec ts <= day ->
  VerifyWebAppData (time.Now unix_sec unix_nsec) payload token
  = match validateDataSignature params (index params "hash") token with
    | (eff, Some e) => mkOutcome zeroUser (Some e) (printed eff)
    | (eff, None) =>
        let '(u, e) := decodeUserData (index params "user") in
        mkOutcome u e (printed eff)
    end.
Proof.
  intros Hp params Hr Hv Hts Hage.
  apply VerifyWebAppData_stages.
  - rewrite (parseInitData_first payload Hp). subst params. unfold index.
    now rewrite <- first_occurrence_list_to_map.
  - exact Hr.
  - rewrite (validateAuthTimestamp_age _ _ Hv Hts).
    apply Z.ltb_ge in Hage. now rewrite Hage.
Qed.

(** The same payload with a timestamp older than 24 hours. *)
Lemma VerifyWebAppData_stale (ts : Z) (payload token : string) :
  snd (url.ParseQuery payload) = None ->
  let params : gmap string string := list_to_map (payload_pairs payload) in
  validateRequiredFields params = None ->
  decimal_value (index params "auth_date") = Some ts ->
  - 2 ^ 63 <= ts <= maxUnix ->
  day < age unix_sec unix_nsec ts ->
  VerifyWebAppData (time.Now unix_sec unix_nsec) payload token
  = mkOutcome zeroUser (Some ErrDataExpired) [].
Proof.
  intros Hp params Hr Hv Hts Hage.
  unfold VerifyWebAppData. rewrite (parseInitData_first payload Hp). fold params.
  rewrite Hr. rewrite (validateAuthTimestamp_age _ _ Hv Hts).
  apply Z.ltb_lt in Hage. now rewrite Hage.
Qed.

(** C6 (amended).  In the scenario of the specification the canonical string
    is [auth_date=1625097522], a line feed, [user=] and the user JSON; the
    hash of the payload is the signature that the package computes over it;
    and the payload verifies, giving a profile with [ID = 12345] and
    [FirstName = "Test"], whenever the clock is at most 24 hours past
    1625097522.  With a later clock the call fails with [ErrDataExpired]. *)
Theorem scenario_verifies :
  let out := VerifyWebAppData (time.Now unix_sec unix_nsec)
                              scenario_payload scenario_token in
  createDataCheckString (fst (fst (parseInitData scenario_payload))) scenario_authDate
  = scenario_canonical
  /\ scenario_hash = computeHMAC scenario_canonical scenario_token
  /\ (age unix_sec unix_nsec 1625097522 <= day ->
      err out = None /\ ID (user out) = 12345 /\ FirstName (user out) = "Test")
  /\ (day < age unix_sec unix_nsec 1625097522 ->
      err out = Some ErrDataExpired /\ user out = zeroUser).
Proof.
  intros out.
  split; [apply scenario_canonical_string |].
  split; [symmetry; apply computeHMAC_Signer |].
  split.
  - intros Hage. subst out.
    rewrite (VerifyWebAppData_fresh 1625097522 scenario_payload scenario_token
               scenario_parses);
      [vm_compute; auto | vm_compute; reflexivity | vm_compute; reflexivity
      | vm_compute; split; discriminate | exact Hage].
  - intros Hage. subst out.
    rewrite (VerifyWebAppData_stale 1625097522 scenario_payload scenario_token
               scenario_parses);
      [split; reflexivity | vm_compute; reflexivity | vm_compute; reflexivity
      | vm_compute; split; discriminate | exact Hage].
Qed.

End Clock.

(* ===================================================================== *)
(** ** The user decoder *)
(* ===================================================================== *)

Lemma ishex_not_percent (a : ascii) : url.ishex a = true -> Ascii.eqb a "%" = false.
Proof.
  intros H. destruct (Ascii.eqb_spec a "%") as [->|]; [| reflexivity].
  discriminate H.
Qed.

(** The first loop of [unescape] stops with an [EscapeError] on a text with
    a [%] that two hexadecimal digits do not follow. *)
Lemma scan_bad_escape (k : nat) :
  forall (s : string) (n : nat) (hasPlus : bool),
    (String.length s <= k)%nat -> bad_escape s = true ->
    exists e, url.scan s n hasPlus = inl (EscapeError e).
Proof.
  induction k as [|k IH]; intros s n hasPlus Hlen Hbad.
  - destruct s; [discriminate Hbad | cbn in Hlen; lia].
  - destruct s as [|c r]; [discriminate Hbad |].
    cbn [String.length] in Hlen. cbn [bad_escape] in Hbad. cbn [url.scan].
    destruct (Ascii.eqb c "%") eqn:Ec.
    + destruct r as [|a [|b r']]; [eauto | eauto |].
      destruct (url.ishex a && url.ishex b) eqn:Eh; [| eauto].
      apply andb_prop in Eh as [Ha Hb]. cbn [andb negb orb] in Hbad.
      cbn [bad_escape] in Hbad.
      rewrite (ishex_not_percent a Ha), (ishex_not_percent b Hb) in Hbad.
      cbn [andb orb] in Hbad. cbn [String.length] in Hlen.
      apply IH; [lia | exact Hbad].
    + cbn [andb orb] in Hbad.
      destruct (Ascii.eqb c "+"); apply IH; try lia; exact Hbad.
Qed.

Lemma decodeUserData_bad_escape (s : string) :
  bad_escape s = true ->
  exists e, decodeUserData s
            = (zeroUser, Some (Errorf_w "url unescape failed" (EscapeError e))).
Proof.
  intros Hbad. unfold decodeUserData, url.QueryUnescape.
  destruct (scan_bad_escape (String.length s) s O false (le_n _) Hbad) as [e He].
  rewrite He. eauto.
Qed.

(** On a text without such a [%] the first loop ends; its count and its
    flag only grow, and when they have not grown the second loop changes
    nothing. *)
Lemma scan_good_escape (k : nat) :
  forall (s : string) (n : nat) (hasPlus : bool),
    (String.length s <= k)%nat -> bad_escape s = false ->
    exists n' hasPlus',
      url.scan s n hasPlus = inr (n', hasPlus')
      /\ (n <= n')%nat /\ (hasPlus = true -> hasPlus' = true)
      /\ (n' = n -> hasPlus' = false -> url.rewrite s = s).
Proof.
  induction k as [|k IH]; intros s n hasPlus Hlen Hgood.
  - destruct s; [| cbn in Hlen; lia]. exists n, hasPlus. cbn. auto.
  - destruct s as [|c r]; [exists n, hasPlus; cbn; auto |].
    cbn [String.length] in Hlen. cbn [bad_escape] in Hgood.
    apply orb_false_iff in Hgood as [Hc Hr]. cbn [url.scan url.rewrite].
    destruct (Ascii.eqb c "%") eqn:Ec.
    + cbn [andb] in Hc. apply negb_false_iff in Hc.
      destruct r as [|a [|b r']]; try discriminate Hc. rewrite Hc.
      cbn [bad_escape] in Hr.
      apply orb_false_iff in Hr as [_ Hr]. apply orb_false_iff in Hr as [_ Hr].
      cbn [String.length] in Hlen.
      destruct (IH r' (S n) hasPlus ltac:(lia) Hr) as (n' & hp' & Hs & Hn & Hp & _).
      exists n', hp'. repeat split; auto; lia.
    + destruct (Ascii.eqb c "+") eqn:Ep.
      * destruct (IH r n true ltac:(lia) Hr) as (n' & hp' & Hs & Hn & Hp & _).
        exists n', hp'. repeat split; auto.
        intros _ Hf. rewrite (Hp eq_refl) in Hf. discriminate.
      * destruct (IH r n hasPlus ltac:(lia) Hr) as (n' & hp' & Hs & Hn & Hp & Hid).
        exists n', hp'. repeat split; auto.
        intros Hn' Hf. now rewrite (Hid Hn' Hf).
Qed.

(** Unescaping succeeds exactly on the texts without such a [%], and gives
    what the second loop writes. *)
Lemma QueryUnescape_good_escape (s : string) :
  bad_escape s = false -> url.QueryUnescape s = (url.rewrite s, None).
Proof.
  intros Hgood. unfold url.QueryUnescape.
  destruct (scan_good_escape (String.length s) s O false (le_n _) Hgood)
    as (n' & hp' & Hs & _ & _ & Hid).
  rewrite Hs. destruct n' as [|n']; cbn [Nat.eqb andb]; [| reflexivity].
  destruct hp'; cbn [negb]; [reflexivity |].
  now rewrite (Hid eq_refl eq_refl).
Qed.

Lemma scan_no_percent (s : string) :
  forall (n : nat) (hasPlus : bool),
    strings.Contains "%" s = false ->
    url.scan s n hasPlus = inr (n, hasPlus || strings.Contains "+" s).
Proof.
  induction s as [|c r IH]; intros n hasPlus Hno; cbn [url.scan strings.Contains].
  - now rewrite orb_false_r.
  - cbn [strings.Contains] in Hno. apply orb_false_iff in Hno as [Hc Hr].
    rewrite Hc. destruct (Ascii.eqb c "+"); rewrite IH by exact Hr; cbn [orb].
    + now rewrite orb_true_r.
    + reflexivity.
Qed.

Lemma rewrite_no_percent (s : string) :
  strings.Contains "%" s = false -> url.rewrite s = plus_to_space s.
Proof.
  induction s as [|c r IH]; intros Hno; [reflexivity |].
  cbn [strings.Contains] in Hno. apply orb_false_iff in Hno as [Hc Hr].
  cbn [url.rewrite plus_to_space]. rewrite Hc.
  destruct (Ascii.eqb c "+"); now rewrite IH.
Qed.

Lemma plus_to_space_no_plus (s : string) :
  strings.Contains "+" s = false -> plus_to_space s = s.
Proof.
  induction s as [|c r IH]; intros Hno; [reflexivity |].
  cbn [strings.Contains] in Hno. apply orb_false_iff in Hno as [Hc Hr].
  cbn [plus_to_space]. now rewrite Hc, IH.
Qed.

(** Without a [%], unescaping turns every [+] into a space and nothing
    else. *)
Lemma QueryUnescape_plus (s : string) :
  strings.Contains "%" s = false ->
  url.QueryUnescape s = (plus_to_space s, None).
Proof.
  intros Hno. unfold url.QueryUnescape. rewrite (scan_no_percent s O false Hno).
  cbn [orb Nat.eqb andb].
  destruct (strings.Contains "+" s) eqn:Hp; cbn [negb].
  - now rewrite rewrite_no_percent.
  - now rewrite plus_to_space_no_plus.
Qed.

(** C10.  The user decoder unescapes the value of [user] once more, whatever
    the value is.  After the required-field, timestamp and signature checks
    have passed, the result of the call is the result of the decoder on the
    value that the parser decoded.  When that value has a [%] that two
    hexadecimal digits do not follow, the call fails with an unescape error
    and the zero profile; otherwise the JSON decoder reads the value
    unescaped a second time, in which every [+] has become a space: without
    a [%] in the value that is the only change. *)
Theorem decodeUserData_second_pass
  (now : time.Time) (payload token : string)
  (params : gmap string string) (hashValue : string) (eff : effects) :
  parseInitData payload = (params, hashValue, None) ->
  validateRequiredFields params = None ->
  validateAuthTimestamp now (index params "auth_date") = None ->
  validateDataSignature params hashValue token = (eff, None) ->
  let userValue := index params "user" in
  let out := printed eff in
  VerifyWebAppData now payload token
  = (let '(u, e) := decodeUserData userValue in mkOutcome u e out)
  /\ (bad_escape userValue = true ->
      exists e, VerifyWebAppData now payload token
                = mkOutcome zeroUser
                    (Some (Errorf_w "url unescape failed" (EscapeError e))) out)
  /\ (bad_escape userValue = false ->
      VerifyWebAppData now payload token
      = match json.Unmarshal (url.rewrite userValue) zeroUser with
        | (u, Some e) => mkOutcome u (Some (Errorf_w "json decode failed" e)) out
        | (u, None) => mkOutcome u None out
        end)
  /\ (forall r, url.rewrite (String "+" r) = String " " (url.rewrite r))
  /\ (strings.Contains "%" userValue = false ->
      url.rewrite userValue = plus_to_space userValue).
Proof.
  intros Hp Hr Ht Hsig userValue out.
  rewrite (VerifyWebAppData_stages now payload token params hashValue Hp Hr Ht).
  rewrite Hsig. fold userValue. fold out.
  split; [reflexivity |]. split; [| split; [| split]].
  - intros Hbad. destruct (decodeUserData_bad_escape userValue Hbad) as [e He].
    exists e. now rewrite He.
  - intros Hgood. unfold decodeUserData.
    rewrite (QueryUnescape_good_escape userValue Hgood).
    destruct (json.Unmarshal (url.rewrite userValue) zeroUser) as [u [e|]];
      reflexivity.
  - reflexivity.
  - apply rewrite_no_percent.
Qed.

(* ===================================================================== *)
(** ** The tests of the package *)
(* ===================================================================== *)

(** The cases of webapps_test.go, the clock of the tests being read as
    1800000000. *)
Example TestParseInitData :
  let '(params, hash, e) :=
    parseInitData ("query_id=AAHdF6IQAAAAAN0XohDhrOrc&user=%7B%22id%22%3A123456789"
      +:+ "%2C%22first_name%22%3A%22Test%22%2C%22last_name%22%3A%22User%22"
      +:+ "%2C%22username%22%3A%22testuser%22%2C%22language_code%22%3A%22en%22%7D"
      +:+ "&auth_date=1625097522&hash=abc123") in
  e = None /\ hash = "abc123"
  /\ index params "query_id" = "AAHdF6IQAAAAAN0XohDhrOrc"
  /\ index params "user"
     = quoted ("{'id':123456789,'first_name':'Test','last_name':'User',"
               +:+ "'username':'testuser','language_code':'en'}")
  /\ index params "auth_date" = "1625097522"
  /\ index params "hash" = "abc123".
Proof. vm_compute. repeat split. Qed.

Example TestValidateRequiredFields :
  validateRequiredFields
    (<["hash" := "abc123"]> (<["user" := quoted "{'id':123456789}"]>
       (<["auth_date" := "1625097522"]> ∅))) = None
  /\ validateRequiredFields
       (<["user" := quoted "{'id':123456789}"]> (<["auth_date" := "1625097522"]> ∅))
     = Some ErrInvalidHash
  /\ validateRequiredFields
       (<["hash" := EmptyString]> (<["user" := quoted "{'id':123456789}"]>
          (<["auth_date" := "1625097522"]> ∅))) = Some ErrInvalidHash
  /\ validateRequiredFields
       (<["hash" := "abc123"]> (<["auth_date" := "1625097522"]> ∅))
     = Some ErrUserFieldMissing
  /\ validateRequiredFields
       (<["hash" := "abc123"]> (<["user" := quoted "{'id':123456789}"]> ∅))
     = Some ErrAuthDateMissing.
Proof. vm_compute. repeat split. Qed.

Example TestValidateAuthTimestamp :
  validateAuthTimestamp (time.Now 1800000000 0) "1799999000" = None
  /\ validateAuthTimestamp (time.Now 1800000000 0) "1799910000" = Some ErrDataExpired
  /\ validateAuthTimestamp (time.Now 1800000000 0) "not-a-number"
     = Some (Errorf_wv ErrAuthDateInvalid (NumError "ParseInt" "not-a-number" ErrSyntax)).
Proof. vm_compute. repeat split. Qed.

Example TestCreateDataCheckString :
  createDataCheckString
    (<["query_id" := "AAHdF6IQAAAAAN0XohDhrOrc"]>
       (<["user" := quoted "{'id':123456789}"]> (<["hash" := "abc123"]> ∅)))
    "1625097522"
  = "auth_date=1625097522" +:+ newline +:+ "query_id=AAHdF6IQAAAAAN0XohDhrOrc"
    +:+ newline +:+ quoted "user={'id':123456789}"
  /\ createDataCheckString
       (<["hash" := "abc123"]> (<["auth_date" := "1625097522"]>
          (<["user" := quoted "{'id':123456789}"]> ∅)))
       "1625097522"
     = "auth_date=1625097522" +:+ newline +:+ quoted "user={'id':123456789}".
Proof. vm_compute. repeat split. Qed.

Example TestDecodeUserData :
  decodeUserData ("%7B%22id%22%3A123456%2C%22first_name%22%3A%22John%22"
    +:+ "%2C%22last_name%22%3A%22Doe%22%2C%22username%22%3A%22johndoe%22"
    +:+ "%2C%22language_code%22%3A%22en%22%7D")
  = (mkWebAppUser 123456 false false "John" "Doe" "johndoe" "en" false false
       EmptyString, None)
  /\ decodeUserData "%7Binvalid-json%7D"
     = (zeroUser, Some (Errorf_w "json decode failed" SyntaxError)).
Proof. vm_compute. repeat split. Qed.

Example TestValidateDataSignature :
  let params : gmap string string :=
    <["user" := quoted "{'id':123456789}"]> (<["auth_date" := "1625097522"]> ∅) in
  snd (validateDataSignature params
         (computeHMAC (createDataCheckString params "1625097522") "test_token")
         "test_token") = None
  /\ snd (validateDataSignature params "invalid_hash_value" "wrong_token")
     = Some ErrInvalidHash.
Proof. vm_compute. repeat split. Qed.

Example TestVerifyWebAppData_Integration :
  let userJSON :=
    quoted ("{'id':12345,'is_bot':false,'is_premium':false,'first_name':'Test',"
            +:+ "'last_name':'User','username':'testuser','language_code':'ru',"
            +:+ "'added_to_attachment_menu':false,'allows_write_to_pm':false,"
            +:+ "'photo_url':''}") in
  let params : gmap string string :=
    <["user" := userJSON]> (<["auth_date" := "1800000000"]> ∅) in
  let hash := computeHMAC (createDataCheckString params "1800000000")
                          "test_token_12345" in
  let initData :=
    "auth_date=1800000000&user=" +:+ url.QueryEscape userJSON +:+ "&hash=" +:+ hash in
  err (VerifyWebAppData (time.Now 1800000000 0) initData "test_token_12345") = None
  /\ user (VerifyWebAppData (time.Now 1800000000 0) initData "test_token_12345")
     = mkWebAppUser 12345 false false "Test" "User" "testuser" "ru" false false
         EmptyString
  /\ err (VerifyWebAppData (time.Now 1800000000 0) initData "wrong_token")
     = Some ErrInvalidHash.
Proof. vm_compute. repeat split. Qed.

Example TestVerifyWebAppData_MissingFields :
  err (VerifyWebAppData (time.Now 1800000000 0)
         "auth_date=1625097522&user=%7B%22id%22%3A123456%7D" "test_token")
  = Some ErrInvalidHash
  /\ err (VerifyWebAppData (time.Now 1800000000 0)
            "auth_date=1625097522&hash=abc123" "test_token")
     = Some ErrUserFieldMissing
  /\ err (VerifyWebAppData (time.Now 1800000000 0)
            "user=%7B%22id%22%3A123456%7D&hash=abc123" "test_token")
     = Some ErrAuthDateMissing.
Proof. vm_compute. repeat split. Qed.

Example TestVerifyWebAppData_InvalidUserJSON :
  err (VerifyWebAppData (time.Now 1800000000 0)
         ("auth_date=1800000000&user=" +:+ url.QueryEscape "{invalid-json}"
          +:+ "&hash=abc123") "test_token")
  = Some ErrInvalidHash.
Proof. vm_compute. reflexivity. Qed.

Example TestVerifyWebAppData_InvalidAuthDate :
  match err (VerifyWebAppData (time.Now 1800000000 0)
               ("auth_date=not-a-timestamp&user="
                +:+ url.QueryEscape (quoted ("{'id':12345,'is_bot':false,"
                      +:+ "'is_premium':false,'first_name':'','last_name':'',"
                      +:+ "'username':'','language_code':'',"
                      +:+ "'added_to_attachment_menu':false,"
                      +:+ "'allows_write_to_pm':false,'photo_url':''}"))
                +:+ "&hash=abc123") "test_token") with
  | Some e => errors_Is e ErrAuthDateInvalid = true
  | None => False
  end.
Proof. vm_compute. reflexivity. Qed.

(* ===================================================================== *)
(** ** Instances *)
(* ===================================================================== *)

(** C5.  A payload with a valid signature, a fresh timestamp and a user
    object whose [first_name] is a number: the call returns the JSON decoding
    error together with a profile that already holds [ID = 12345], not the
    zero profile. *)
Theorem VerifyWebAppData_partial_profile :
  let out := VerifyWebAppData (time.Now 1625097522 0) mistyped_payload scenario_token in
  err out = Some (Errorf_w "json decode failed"
                    (UnmarshalTypeError "number" "first_name"))
  /\ ID (user out) = 12345
  /\ user out <> zeroUser.
Proof.
  vm_compute. split; [reflexivity |]. split; [reflexivity | discriminate].
Qed.

Lemma createDataCheckString_sorted_lines_witness :
  exists lines : list string,
    lines ≡ₚ canonical_lines
               (<["user" := "u"]> (<["hash" := "h"]> (<["query_id" := "q"]> ∅))) "7"
    /\ createDataCheckString
         (<["user" := "u"]> (<["hash" := "h"]> (<["query_id" := "q"]> ∅))) "7"
       = strings.Join lines newline.
Proof.
  destruct (createDataCheckString_sorted_lines
              (<["user" := "u"]> (<["hash" := "h"]> (<["query_id" := "q"]> ∅))) "7")
    as (lines & Hp & _ & _ & _ & Hj & _).
  exists lines. split; [exact Hp | exact Hj].
Defined.

Example createDataCheckString_example :
  createDataCheckString
    (<["user" := "u"]> (<["hash" := "h"]> (<["query_id" := "q"]> ∅))) "7"
  = "auth_date=7" +:+ newline +:+ "query_id=q" +:+ newline +:+ "user=u".
Proof. vm_compute. reflexivity. Qed.

Lemma computeHMAC_signature_witness :
  String.length (computeHMAC scenario_canonical scenario_token) = 64%nat
  /\ computeHMAC scenario_canonical scenario_token
     = "1cb994d2f04b9e705ca19668938a5a7c0b18d2ae990486750df14bf01ece9e61".
Proof.
  split.
  - apply (computeHMAC_signature scenario_canonical scenario_token).
  - vm_compute. reflexivity.
Defined.

Lemma validateRequiredFields_order_witness :
  absent_or_empty (<["auth_date" := "1625097522"]> ∅) "hash"
  /\ absent_or_empty (<["auth_date" := "1625097522"]> ∅) "user"
  /\ validateRequiredFields (<["auth_date" := "1625097522"]> ∅) = Some ErrInvalidHash.
Proof.
  assert (Hh : absent_or_empty (<["auth_date" := "1625097522"]> ∅) "hash")
    by (left; vm_compute; reflexivity).
  split; [exact Hh |].
  split; [left; vm_compute; reflexivity |].
  exact (proj1 (validateRequiredFields_order (<["auth_date" := "1625097522"]> ∅)) Hh).
Defined.

(** The claim C3 as it was stated fails on the empty field map: the error
    for a missing [hash] is no error of its own but the one of a signature
    mismatch. *)
Lemma missing_hash_is_ErrInvalidHash :
  validateRequiredFields ∅ = Some ErrInvalidHash
  /\ snd (validateDataSignature ∅ "0" scenario_token) = Some ErrInvalidHash
  /\ ~ (exists e, validateRequiredFields ∅ = Some e
                  /\ Some e <> snd (validateDataSignature ∅ "0" scenario_token)).
Proof.
  assert (H1 : validateRequiredFields ∅ = Some ErrInvalidHash)
    by (vm_compute; reflexivity).
  assert (H2 : snd (validateDataSignature ∅ "0" scenario_token) = Some ErrInvalidHash)
    by (vm_compute; reflexivity).
  split; [exact H1 |]. split; [exact H2 |].
  intros (e & He & Hne). rewrite H1 in He. rewrite H2 in Hne. congruence.
Qed.

Lemma validateAuthTimestamp_spec_witness :
  (- time.unixToInternal <= 1800000000 < 2 ^ 62)
  /\ (0 <= 5 < 1000000000)
  /\ validateAuthTimestamp (time.Now 1800000000 5) "1799913599" = Some ErrDataExpired
  /\ validateAuthTimestamp (time.Now 1800000000 5) "1799913601" = None
  /\ validateAuthTimestamp (time.Now 1800000000 5) "1900000000" = None.
Proof.
  assert (Hs : - time.unixToInternal <= 1800000000 < 2 ^ 62)
    by (vm_compute; intuition discriminate).
  assert (Hn : 0 <= 5 < 1000000000) by lia.
  split; [exact Hs |]. split; [exact Hn |]. split; [| split].
  - destruct (validateAuthTimestamp_spec 1800000000 5 Hs Hn "1799913599")
      as (_ & H & _).
    destruct (H 1799913599 eq_refl ltac:(vm_compute; intuition discriminate))
      as (_ & _ & Hexp & _).
    apply Hexp. reflexivity.
  - destruct (validateAuthTimestamp_spec 1800000000 5 Hs Hn "1799913601")
      as (_ & H & _).
    destruct (H 1799913601 eq_refl ltac:(vm_compute; intuition discriminate))
      as (_ & _ & _ & Hok & _).
    apply Hok. reflexivity.
  - destruct (validateAuthTimestamp_spec 1800000000 5 Hs Hn "1900000000")
      as (_ & H & _).
    destruct (H 1900000000 eq_refl ltac:(vm_compute; intuition discriminate))
      as (_ & _ & _ & _ & Hfuture).
    apply Hfuture. lia.
Defined.

(** The claim C4 as it was stated fails on the largest [int64]: the
    timestamp is in the future and the check rejects it as expired. *)
Lemma future_timestamp_expired :
  decimal_value "9223372036854775807" = Some 9223372036854775807
  /\ 1800000000 < 9223372036854775807
  /\ validateAuthTimestamp (time.Now 1800000000 0) "9223372036854775807"
     = Some ErrDataExpired.
Proof.
  split; [reflexivity |]. split; [lia |]. vm_compute. reflexivity.
Qed.

Lemma scenario_verifies_witness :
  (- time.unixToInternal <= 1625097622 < 2 ^ 62)
  /\ (0 <= 0 < 1000000000)
  /\ age 1625097622 0 1625097522 <= day
  /\ err (VerifyWebAppData (time.Now 1625097622 0) scenario_payload scenario_token)
     = None
  /\ ID (user (VerifyWebAppData (time.Now 1625097622 0) scenario_payload
                 scenario_token)) = 12345.
Proof.
  assert (Hs : - time.unixToInternal <= 1625097622 < 2 ^ 62)
    by (vm_compute; intuition discriminate).
  assert (Hn : 0 <= 0 < 1000000000) by lia.
  assert (Hage : age 1625097622 0 1625097522 <= day) by (vm_compute; discriminate).
  split; [exact Hs |]. split; [exact Hn |]. split; [exact Hage |].
  destruct (scenario_verifies 1625097622 0 Hs Hn) as (_ & _ & Hfresh & _).
  destruct (Hfresh Hage) as (He & Hid & _).
  split; [exact He | exact Hid].
Defined.

(** The claim C6 as it was stated fails once the timestamp of the scenario
    is more than 24 hours old: here the clock reads 1800000000. *)
Lemma scenario_expired :
  err (VerifyWebAppData (time.Now 1800000000 0) scenario_payload scenario_token)
  = Some ErrDataExpired
  /\ user (VerifyWebAppData (time.Now 1800000000 0) scenario_payload scenario_token)
     = zeroUser
  /\ ~ (err (VerifyWebAppData (time.Now 1800000000 0) scenario_payload
               scenario_token) = None).
Proof.
  assert (H : VerifyWebAppData (time.Now 1800000000 0) scenario_payload scenario_token
              = mkOutcome zeroUser (Some ErrDataExpired) [])
    by (vm_compute; reflexivity).
  rewrite H. cbn [err user]. split; [reflexivity |]. split; [reflexivity | discriminate].
Qed.

Lemma createDataCheckString_order_independent_witness :
  createDataCheckString_in [("b", "2"); ("a", "1")] "7"
  = createDataCheckString (<["a" := "1"]> (<["b" := "2"]> ∅)) "7"
  /\ parseInitData "b=2&hash=h&a=1" = parseInitData "a=1&b=2&hash=h".
Proof.
  assert (Ho : [("b", "2"); ("a", "1")]
               ≡ₚ map_to_list (<["a" := "1"]> (<["b" := "2"]> (∅ : gmap string string)))).
  { rewrite map_to_list_insert by (vm_compute; reflexivity).
    rewrite map_to_list_insert by (vm_compute; reflexivity).
    rewrite map_to_list_empty. apply perm_swap. }
  assert (Hnd : NoDup (map fst (payload_pairs "a=1&b=2&hash=h"))).
  { change (NoDup ["a"; "b"; "hash"]).
    repeat (constructor; [rewrite ?elem_of_cons, ?elem_of_nil; intuition discriminate |]).
    constructor. }
  assert (Hperm : payload_pairs "b=2&hash=h&a=1" ≡ₚ payload_pairs "a=1&b=2&hash=h").
  { vm_compute. apply Permutation_cons_app with (l1 := [("a", "1")]) (l2 := [("hash", "h")]).
    apply perm_swap. }
  destruct (createDataCheckString_order_independent
              (<["a" := "1"]> (<["b" := "2"]> ∅)) "7") as (H1 & _ & H3).
  split; [exact (H1 _ Ho) |].
  exact (proj1 (H3 "a=1&b=2&hash=h" "b=2&hash=h&a=1"
                  ltac:(vm_compute; reflexivity) ltac:(vm_compute; reflexivity)
                  Hnd Hperm)).
Defined.



Lemma decodeUserData_second_pass_witness :
  index (fst (fst (parseInitData (signed_payload "%")))) "user" = "%"
  /\ snd (validateDataSignature (fst (fst (parseInitData (signed_payload "%"))))
            (snd (fst (parseInitData (signed_payload "%")))) scenario_token) = None
  /\ exists e out,
       VerifyWebAppData (time.Now 1625097522 0) (signed_payload "%") scenario_token
       = mkOutcome zeroUser (Some (Errorf_w "url unescape failed" (EscapeError e))) out.
Proof.
  assert (Hp : parseInitData (signed_payload "%")
               = (list_to_map (payload_pairs (signed_payload "%")),
                  default EmptyString
                    (first_occurrence "hash" (payload_pairs (signed_payload "%"))),
                  None))
    by (apply parseInitData_first; vm_compute; reflexivity).
  rewrite Hp. cbn [fst snd].
  split; [vm_compute; reflexivity |].
  split; [vm_compute; reflexivity |].
  destruct (decodeUserData_second_pass (time.Now 1625097522 0) (signed_payload "%")
              scenario_token _ _
              (fst (validateDataSignature
                      (list_to_map (payload_pairs (signed_payload "%")))
                      (default EmptyString
                         (first_occurrence "hash" (payload_pairs (signed_payload "%"))))
                      scenario_token))
              Hp ltac:(vm_compute; reflexivity) ltac:(vm_compute; reflexivity)
              ltac:(vm_compute; reflexivity)) as (_ & Hbad & _).
  destruct (Hbad ltac:(vm_compute; reflexivity)) as [e He].
  eauto.
Defined.

(** A [+] in the value of [user] reaches the profile as a space, although
    the signature covers the [+]. *)
Example plus_becomes_space :
  let out := VerifyWebAppData (time.Now 1625097522 0)
               (signed_payload (quoted "{'first_name':'A+B'}")) scenario_token in
  err out = None /\ FirstName (user out) = "A B".
Proof. vm_compute. split; reflexivity. Qed.



(* ===================================================================== *)
(** ** Payloads that do not parse *)
(* ===================================================================== *)

Lemma QueryUnescape_bad_escape (s : string) :
  bad_escape s = true ->
  exists e, url.QueryUnescape s = (EmptyString, Some (EscapeError e)).
Proof.
  intros Hbad. unfold url.QueryUnescape.
  destruct (scan_bad_escape (String.length s) s O false (le_n _) Hbad) as [e He].
  rewrite He. eauto.
Qed.

(** One step of the loop of [parseQuery]: the error is kept, or set by a
    segment that is not well formed. *)
Lemma parseSegment_error (m : gmap string (list string)) (e : option error)
  (seg : string) :
  (forall x, e = Some x -> parse_cause x) ->
  (forall x, snd (url.parseSegment (m, e) seg) = Some x -> parse_cause x)
  /\ (snd (url.parseSegment (m, e) seg) = None <-> e = None /\ segment_ok seg = true).
Proof.
  intros He. unfold url.parseSegment, segment_ok.
  destruct (strings.Contains ";" seg); cbn [negb andb snd].
  - split; [intros x [= <-]; right; now left |].
    split; [discriminate | intros [_ H]; discriminate].
  - destruct (String.eqb seg EmptyString); cbn [orb snd].
    + split; [exact He | tauto].
    + destruct (strings.Cut "=" seg) as [k v].
      destruct (bad_escape k) eqn:Hk; cbn [negb andb].
      * destruct (QueryUnescape_bad_escape k Hk) as [c ->]. cbn [snd].
        split.
        -- destruct e as [x|]; intros y [= <-];
             [now apply He | right; right; eauto].
        -- split; [destruct e; discriminate | intros [_ H]; discriminate].
      * rewrite (QueryUnescape_good_escape k Hk).
        destruct (bad_escape v) eqn:Hv; cbn [negb].
        -- destruct (QueryUnescape_bad_escape v Hv) as [c ->]. cbn [snd].
           split.
           ++ destruct e as [x|]; intros y [= <-];
             [now apply He | right; right; eauto].
           ++ split; [destruct e; discriminate | intros [_ H]; discriminate].
        -- rewrite (QueryUnescape_good_escape v Hv). cbn [snd].
           split; [exact He | tauto].
Qed.

Lemma parseSegments_error (segs : list string) :
  forall (m : gmap string (list string)) (e : option error),
    (forall x, e = Some x -> parse_cause x) ->
    (forall x, snd (fold_left url.parseSegment segs (m, e)) = Some x -> parse_cause x)
    /\ (snd (fold_left url.parseSegment segs (m, e)) = None
        <-> e = None /\ forallb segment_ok segs = true).
Proof.
  induction segs as [|seg segs IH]; intros m e He; cbn [fold_left forallb].
  - cbn [snd]. split; [exact He | tauto].
  - destruct (parseSegment_error m e seg He) as [Hk Hn].
    destruct (url.parseSegment (m, e) seg) as [m' e'] eqn:Hstep. cbn [snd] in *.
    destruct (IH m' e' Hk) as [Hk' Hn']. split; [exact Hk' |].
    rewrite Hn', Hn, andb_true_iff. tauto.
Qed.

(** [url.ParseQuery] succeeds exactly on the well-formed payloads. *)
Lemma ParseQuery_well_formed (payload : string) :
  (snd (url.ParseQuery payload) = None <-> well_formed payload = true)
  /\ (forall x, snd (url.ParseQuery payload) = Some x -> parse_cause x).
Proof.
  unfold url.ParseQuery, well_formed, url.urlParamsWithinMax, url.defaultMaxParams.
  destruct (strings.Count "&" payload + 1 <=? 10000); cbn [negb andb snd].
  - destruct (parseSegments_error (strings.segments "&" payload) ∅ None
                ltac:(discriminate)) as [Hk Hn].
    split; [rewrite Hn; tauto | exact Hk].
  - split; [split; discriminate |]. intros x [= <-]. now left.
Qed.

(** A payload of more than 10000 parameters is refused as a whole. *)
Lemma ParseQuery_limit (payload : string) :
  10000 < strings.Count "&" payload + 1 ->
  url.ParseQuery payload = (∅, Some ParamsLimitError).
Proof.
  intros H. unfold url.ParseQuery, url.urlParamsWithinMax, url.defaultMaxParams.
  now rewrite (proj2 (Z.leb_gt _ _) H).
Qed.

Lemma Contains_segments (c sep : ascii) (s : string) :
  Ascii.eqb c sep = false ->
  strings.Contains c s = existsb (strings.Contains c) (strings.segments sep s).
Proof.
  intros Hne. induction s as [|x s IH]; [reflexivity |].
  cbn [strings.Contains strings.segments].
  destruct (Ascii.eqb x sep) eqn:Hx.
  - apply Ascii.eqb_eq in Hx. subst x.
    rewrite Ascii.eqb_sym, Hne. cbn [existsb strings.Contains orb]. exact IH.
  - rewrite IH. destruct (strings.segments sep s) as [|h t].
    + cbn [existsb strings.Contains]. now rewrite !orb_false_r.
    + cbn [existsb strings.Contains]. now rewrite orb_assoc.
Qed.

Lemma semicolon_not_well_formed (payload : string) :
  strings.Contains ";" payload = true -> well_formed payload = false.
Proof.
  intros H. rewrite (Contains_segments ";" "&") in H by reflexivity.
  unfold well_formed. apply existsb_exists in H as (seg & Hin & Hseg).
  apply not_true_is_false. intros Hall. apply andb_prop in Hall as [_ Hall].
  rewrite forallb_forall in Hall. specialize (Hall seg Hin).
  unfold segment_ok in Hall. rewrite Hseg in Hall. discriminate.
Qed.

(** X1.  A payload parses exactly when it has 10000 parameters at most,
    counted as one more than its [&], and none of its segments between [&]
    has a semicolon or, on either side of its first [=], a [%] that two
    hexadecimal digits do not follow.  Any other payload - any payload with
    a semicolon, any payload of more than 10000 parameters - makes
    [parseInitData] return the empty map, the empty hash and
    [ErrInvalidDataFormat] around the cause, and makes [VerifyWebAppData]
    return the zero profile and that error under "parsing failed", which
    [errors.Is] relates to [ErrInvalidDataFormat], without printing. *)
Theorem parseInitData_well_formed (payload : string) :
  (well_formed payload = true <-> snd (parseInitData payload) = None)
  /\ (strings.Contains ";" payload = true -> well_formed payload = false)
  /\ (10000 < strings.Count "&" payload + 1 ->
      well_formed payload = false
      /\ parseInitData payload
         = (∅, EmptyString, Some (Errorf_wv ErrInvalidDataFormat ParamsLimitError)))
  /\ (well_formed payload = false ->
      exists cause,
        parse_cause cause
        /\ parseInitData payload
           = (∅, EmptyString, Some (Errorf_wv ErrInvalidDataFormat cause))
        /\ forall (now : time.Time) (token : string),
             VerifyWebAppData now payload token
             = mkOutcome zeroUser
                 (Some (Errorf_w "parsing failed"
                          (Errorf_wv ErrInvalidDataFormat cause))) []
             /\ errors_Is (Errorf_w "parsing failed"
                             (Errorf_wv ErrInvalidDataFormat cause))
                          ErrInvalidDataFormat = true).
Proof.
  destruct (ParseQuery_well_formed payload) as [Hiff Hcause].
  split; [| split; [| split]].
  - rewrite <- Hiff. unfold parseInitData.
    destruct (url.ParseQuery payload) as [values [e|]]; cbn [snd];
      split; intros; try discriminate; reflexivity.
  - apply semicolon_not_well_formed.
  - intros Hmany. split.
    + unfold well_formed. now rewrite (proj2 (Z.leb_gt _ _) Hmany).
    + unfold parseInitData. now rewrite (ParseQuery_limit payload Hmany).
  - intros Hbad.
    destruct (snd (url.ParseQuery payload)) as [cause|] eqn:He.
    + exists cause. split; [now apply Hcause |].
      rewrite (parseInitData_error payload cause He).
      split; [reflexivity |].
      intros now token. unfold VerifyWebAppData.
      rewrite (parseInitData_error payload cause He). split; reflexivity.
    + pose proof (proj1 Hiff eq_refl). congruence.
Qed.

Lemma parseInitData_well_formed_witness :
  well_formed "user=a;b&hash=%zz" = false
  /\ (exists cause,
        parseInitData "user=a;b&hash=%zz"
        = (∅, EmptyString, Some (Errorf_wv ErrInvalidDataFormat cause)))
  /\ parseInitData (copies 10000 "&")
     = (∅, EmptyString, Some (Errorf_wv ErrInvalidDataFormat ParamsLimitError)).
Proof.
  assert (H : well_formed "user=a;b&hash=%zz" = false)
    by exact (proj1 (proj2 (parseInitData_well_formed "user=a;b&hash=%zz")) eq_refl).
  split; [exact H |]. split.
  - destruct (proj2 (proj2 (proj2 (parseInitData_well_formed "user=a;b&hash=%zz"))) H)
      as (cause & _ & Hp & _).
    exists cause. exact Hp.
  - apply (proj1 (proj2 (proj2 (parseInitData_well_formed (copies 10000 "&"))))).
    vm_compute. reflexivity.
Defined.

(** The limit at work on a payload that is otherwise accepted: with 9997
    more [&] after it the payload of the scenario has 10000 parameters and
    is accepted, with 9998 it has 10001 and is refused. *)
Example parameter_limit :
  err (VerifyWebAppData (time.Now 1625097522 0)
         (scenario_payload +:+ copies 9997 "&") scenario_token) = None
  /\ err (VerifyWebAppData (time.Now 1625097522 0)
            (scenario_payload +:+ copies 9998 "&") scenario_token)
     = Some (Errorf_w "parsing failed"
               (Errorf_wv ErrInvalidDataFormat ParamsLimitError)).
Proof. vm_compute. split; reflexivity. Qed.

(* ===================================================================== *)
(** ** Encoding and parsing *)
(* ===================================================================== *)

Ltac each_byte c := destruct c as [[] [] [] [] [] [] [] []].

Lemma QueryEscape_cons (c : ascii) (r : string) :
  url.QueryEscape (String c r)
  = url.QueryEscape (String c EmptyString) +:+ url.QueryEscape r.
Proof.
  cbn [url.QueryEscape]. destruct (Ascii.eqb c " "); [reflexivity |].
  destruct (url.shouldEscape c); reflexivity.
Qed.

(** What [url.QueryEscape] writes for one byte is read back as that byte. *)
Lemma rewrite_escaped_byte (c : ascii) (t : string) :
  url.rewrite (url.QueryEscape (String c EmptyString) +:+ t)
  = String c (url.rewrite t).
Proof. each_byte c; reflexivity. Qed.

Lemma bad_escape_escaped_byte (c : ascii) (t : string) :
  bad_escape (url.QueryEscape (String c EmptyString) +:+ t) = bad_escape t.
Proof. each_byte c; reflexivity. Qed.

Lemma escaped_byte_separators (c : ascii) :
  strings.Contains "&" (url.QueryEscape (String c EmptyString)) = false
  /\ strings.Contains "=" (url.QueryEscape (String c EmptyString)) = false
  /\ strings.Contains ";" (url.QueryEscape (String c EmptyString)) = false.
Proof. each_byte c; repeat split. Qed.

Lemma Contains_app (c : ascii) (a b : string) :
  strings.Contains c (a +:+ b) = strings.Contains c a || strings.Contains c b.
Proof.
  induction a as [|x a IH]; [reflexivity |].
  rewrite append_cons. cbn [strings.Contains]. now rewrite IH, orb_assoc.
Qed.

Lemma rewrite_QueryEscape (s : string) : url.rewrite (url.QueryEscape s) = s.
Proof.
  induction s as [|c s IH]; [reflexivity |].
  now rewrite QueryEscape_cons, rewrite_escaped_byte, IH.
Qed.

Lemma bad_escape_QueryEscape (s : string) : bad_escape (url.QueryEscape s) = false.
Proof.
  induction s as [|c s IH]; [reflexivity |].
  now rewrite QueryEscape_cons, bad_escape_escaped_byte.
Qed.

Lemma QueryEscape_separators (s : string) :
  strings.Contains "&" (url.QueryEscape s) = false
  /\ strings.Contains "=" (url.QueryEscape s) = false
  /\ strings.Contains ";" (url.QueryEscape s) = false.
Proof.
  induction s as [|c s (IH1 & IH2 & IH3)]; [repeat split |].
  rewrite QueryEscape_cons, !Contains_app, IH1, IH2, IH3.
  destruct (escaped_byte_separators c) as (-> & -> & ->). repeat split.
Qed.

(** [url.QueryUnescape] undoes [url.QueryEscape]. *)
Lemma QueryUnescape_QueryEscape (s : string) :
  url.QueryUnescape (url.QueryEscape s) = (s, None).
Proof.
  rewrite (QueryUnescape_good_escape _ (bad_escape_QueryEscape s)).
  now rewrite rewrite_QueryEscape.
Qed.

Lemma segments_plain (sep : ascii) (a : string) :
  strings.Contains sep a = false -> strings.segments sep a = [a].
Proof.
  induction a as [|x a IH]; [reflexivity |].
  cbn [strings.Contains strings.segments]. intros H.
  apply orb_false_iff in H as [Hx Ha]. rewrite Hx, (IH Ha). reflexivity.
Qed.

Lemma segments_app (sep : ascii) (a rest : string) :
  strings.Contains sep a = false ->
  strings.segments sep (a +:+ String sep rest) = a :: strings.segments sep rest.
Proof.
  induction a as [|x a IH].
  - intros _. rewrite append_empty. cbn [strings.segments].
    now rewrite Ascii.eqb_refl.
  - rewrite append_cons. cbn [strings.Contains strings.segments]. intros H.
    apply orb_false_iff in H as [Hx Ha]. rewrite Hx, (IH Ha). reflexivity.
Qed.

Lemma Cut_app (k v : string) :
  strings.Contains "=" k = false ->
  strings.Cut "=" (k +:+ String "=" v) = (k, v).
Proof.
  induction k as [|x k IH]; [reflexivity |].
  rewrite append_cons. cbn [strings.Contains strings.Cut]. intros H.
  apply orb_false_iff in H as [Hx Hk]. rewrite Hx, (IH Hk). reflexivity.
Qed.

(** Cutting at the separator undoes [strings.Join], for elements without
    the separator. *)
Lemma segments_Join (sep : ascii) (l : list string) :
  l <> [] -> Forall (fun a => strings.Contains sep a = false) l ->
  strings.segments sep (strings.Join l (String sep EmptyString)) = l.
Proof.
  induction l as [|a l IH]; [congruence |]. intros _ Hall.
  apply Forall_cons in Hall as [Ha Hl]. destruct l as [|b l].
  - now apply segments_plain.
  - change (strings.Join (a :: b :: l) (String sep EmptyString))
      with (a +:+ String sep (strings.Join (b :: l) (String sep EmptyString))).
    rewrite (segments_app _ _ _ Ha), IH by (congruence || exact Hl). reflexivity.
Qed.

(** The segment written for a pair stands for that pair. *)
Lemma segment_pair_encoded (k v : string) :
  segment_pair (url.QueryEscape k +:+ "=" +:+ url.QueryEscape v) = Some (k, v)
  /\ strings.Contains "&" (url.QueryEscape k +:+ "=" +:+ url.QueryEscape v) = false.
Proof.
  destruct (QueryEscape_separators k) as (Hk1 & Hk2 & Hk3).
  destruct (QueryEscape_separators v) as (Hv1 & Hv2 & Hv3).
  split.
  - unfold segment_pair.
    rewrite !Contains_app, Hk3, Hv3. cbn [strings.Contains orb Ascii.eqb].
    change (String.eqb (url.QueryEscape k +:+ "=" +:+ url.QueryEscape v) EmptyString)
      with (String.eqb (url.QueryEscape k +:+ String "=" (url.QueryEscape v))
                       EmptyString).
    rewrite (proj2 (String.eqb_neq _ _))
      by (destruct (url.QueryEscape k); discriminate).
    change (url.QueryEscape k +:+ "=" +:+ url.QueryEscape v)
      with (url.QueryEscape k +:+ String "=" (url.QueryEscape v)).
    rewrite (Cut_app _ _ Hk2), !QueryUnescape_QueryEscape. reflexivity.
  - rewrite !Contains_app, Hk1, Hv1. reflexivity.
Qed.

Lemma payload_pairs_encode_pairs (pairs : list (string * string)) :
  payload_pairs (encode_pairs pairs) = pairs.
Proof.
  unfold payload_pairs, encode_pairs.
  destruct pairs as [|p pairs]; [reflexivity |].
  rewrite segments_Join.
  - generalize (p :: pairs). intros l. induction l as [|[k v] l IH]; [reflexivity |].
    cbn [map omap list_omap fst snd].
    rewrite (proj1 (segment_pair_encoded k v)). cbn. now f_equal.
  - discriminate.
  - apply Forall_forall. intros a Ha. apply list_elem_of_fmap in Ha as ([k v] & -> & _).
    apply segment_pair_encoded.
Qed.

Lemma Count_nonneg (sep : ascii) (s : string) : 0 <= strings.Count sep s.
Proof.
  induction s as [|c s IH]; [reflexivity |].
  cbn [strings.Count]. destruct (Ascii.eqb c sep); lia.
Qed.

(** One segment more than separators. *)
Lemma Count_segments (sep : ascii) (s : string) :
  Z.of_nat (length (strings.segments sep s)) = strings.Count sep s + 1.
Proof.
  induction s as [|c s IH]; [reflexivity |].
  pose proof (Count_nonneg sep s) as Hc.
  cbn [strings.segments strings.Count].
  destruct (Ascii.eqb c sep).
  - cbn [length]. lia.
  - destruct (strings.segments sep s) as [|h t]; cbn [length] in *; lia.
Qed.

(** The encoding of a list of pairs has as many parameters as pairs, and one
    for no pair. *)
Lemma Count_encode_pairs (pairs : list (string * string)) :
  strings.Count "&" (encode_pairs pairs) + 1 = Z.max 1 (Z.of_nat (length pairs)).
Proof.
  rewrite <- Count_segments. unfold encode_pairs.
  destruct pairs as [|p pairs]; [reflexivity |].
  change "&"%string with (String "&"%char EmptyString).
  rewrite segments_Join.
  - rewrite length_map. cbn [length]. lia.
  - discriminate.
  - apply Forall_forall. intros a Ha. apply list_elem_of_fmap in Ha as ([k v] & -> & _).
    apply segment_pair_encoded.
Qed.

Lemma well_formed_encode_pairs (pairs : list (string * string)) :
  Z.of_nat (length pairs) <= 10000 -> well_formed (encode_pairs pairs) = true.
Proof.
  intros Hlen. unfold well_formed. rewrite Count_encode_pairs.
  rewrite (proj2 (Z.leb_le _ _)) by lia. cbn [andb]. unfold encode_pairs.
  destruct pairs as [|p pairs]; [reflexivity |].
  rewrite segments_Join.
  - apply forallb_forall. intros a Ha. apply in_map_iff in Ha as ([k v] & <- & _).
    cbn [fst snd]. unfold segment_ok.
    destruct (QueryEscape_separators k) as (Hk1 & Hk2 & Hk3).
    destruct (QueryEscape_separators v) as (Hv1 & Hv2 & Hv3).
    rewrite !Contains_app, Hk3, Hv3. cbn [strings.Contains orb Ascii.eqb negb andb].
    change (url.QueryEscape k +:+ "=" +:+ url.QueryEscape v)
      with (url.QueryEscape k +:+ String "=" (url.QueryEscape v)).
    rewrite (Cut_app _ _ Hk2), !bad_escape_QueryEscape. cbn. apply orb_true_r.
  - discriminate.
  - apply Forall_forall. intros a Ha. apply list_elem_of_fmap in Ha as ([k v] & -> & _).
    apply segment_pair_encoded.
Qed.

(** X2.  Parsing undoes form encoding, up to the limit of the parser.  For
    every list of pairs, keys and values being any byte strings, the pairs of
    the payload made of [key=value] segments escaped by [url.QueryEscape]
    and joined by [&] are the pairs given.  A list of 10000 pairs at most
    parses without an error: the field map holds for every key the first
    value given for it, and the hash returned is the first value given for
    [hash], or the empty string.  A longer list makes a payload that
    [parseInitData] refuses with [ErrInvalidDataFormat]. *)
Theorem parseInitData_encode_pairs (pairs : list (string * string)) :
  payload_pairs (encode_pairs pairs) = pairs
  /\ (Z.of_nat (length pairs) <= 10000 ->
      parseInitData (encode_pairs pairs)
      = (list_to_map pairs,
         default EmptyString (first_occurrence "hash" pairs), None)
      /\ (forall k, index (fst (fst (parseInitData (encode_pairs pairs)))) k
                    = default EmptyString (first_occurrence k pairs)))
  /\ (10000 < Z.of_nat (length pairs) ->
      parseInitData (encode_pairs pairs)
      = (∅, EmptyString, Some (Errorf_wv ErrInvalidDataFormat ParamsLimitError))).
Proof.
  split; [apply payload_pairs_encode_pairs |]. split.
  - intros Hlen.
    assert (Hp : parseInitData (encode_pairs pairs)
                 = (list_to_map pairs,
                    default EmptyString (first_occurrence "hash" pairs), None)).
    { rewrite parseInitData_first.
      - now rewrite payload_pairs_encode_pairs.
      - now apply ParseQuery_well_formed, well_formed_encode_pairs. }
    split; [exact Hp |].
    intros k. rewrite Hp. cbn [fst]. unfold index.
    now rewrite <- first_occurrence_list_to_map.
  - intros Hlen. unfold parseInitData. rewrite ParseQuery_limit; [reflexivity |].
    rewrite Count_encode_pairs. lia.
Qed.

(* ===================================================================== *)
(** ** The signature gate *)
(* ===================================================================== *)

Lemma validateRequiredFields_None (params : gmap string string) :
  validateRequiredFields params = None
  <-> index params "hash" <> EmptyString
      /\ index params "user" <> EmptyString
      /\ index params "auth_date" <> EmptyString.
Proof.
  unfold validateRequiredFields.
  destruct (String.eqb_spec (index params "hash") EmptyString) as [Hh|Hh];
    [split; [discriminate | tauto] |].
  destruct (String.eqb_spec (index params "user") EmptyString) as [Hu|Hu];
    [split; [discriminate | tauto] |].
  destruct (String.eqb_spec (index params "auth_date") EmptyString) as [Ha|Ha];
    [split; [discriminate | tauto] |].
  tauto.
Qed.

(** The signature check prints the expected hash and the received one, and
    passes when the two are the same text. *)
Lemma validateDataSignature_eq (params : gmap string string)
  (receivedHash token : string) :
  let expected :=
    computeHMAC (createDataCheckString params (index params "auth_date")) token in
  validateDataSignature params receivedHash token
  = (mkEffects [Println expected receivedHash]
               (snd (subtle.ConstantTimeCompare_steps
                       (bytes_of_string expected) (bytes_of_string receivedHash))),
     if String.eqb receivedHash expected then None else Some ErrInvalidHash).
Proof.
  intros expected. rewrite validateDataSignature_run. fold expected.
  destruct (hmac.Equal (bytes_of_string expected) (bytes_of_string receivedHash))
    eqn:He.
  - apply hmac_Equal_iff in He. subst receivedHash. now rewrite String.eqb_refl.
  - destruct (String.eqb_spec receivedHash expected) as [->|Hne]; [| reflexivity].
    rewrite (proj2 (hmac_Equal_iff expected expected) eq_refl) in He. discriminate.
Qed.

Lemma decimal_value_nonempty (s : string) (v : Z) :
  decimal_value s = Some v -> s <> EmptyString.
Proof. destruct s; [discriminate | discriminate]. Qed.

Section Gate.

Variables unix_sec unix_nsec : Z.
Hypothesis clock_sec : - time.unixToInternal <= unix_sec < 2 ^ 62.
Hypothesis clock_nsec : 0 <= unix_nsec < 1000000000.

(** The timestamp check passes exactly on the timestamps that [time.Unix]
    represents and that are no older than 24 hours. *)
Lemma validateAuthTimestamp_None (authDate : string) :
  validateAuthTimestamp (time.Now unix_sec unix_nsec) authDate = None
  <-> exists ts, decimal_value authDate = Some ts
                 /\ - 2 ^ 63 <= ts <= maxUnix
                 /\ age unix_sec unix_nsec ts <= day.
Proof.
  assert (Hu : maxUnix = 9223371974719179007) by reflexivity.
  pose proof (ParseInt_spec authDate) as HP.
  split.
  - intros Hnone. destruct (decimal_value authDate) as [v|] eqn:Hv.
    + destruct ((- 2 ^ 63 <=? v) && (v <? 2 ^ 63)) eqn:Hr.
      * apply andb_prop in Hr as [H1 H2].
        apply Z.leb_le in H1. apply Z.ltb_lt in H2.
        destruct (Z_le_gt_dec v maxUnix) as [Hle|Hgt].
        -- exists v. split; [reflexivity |]. split; [lia |].
           rewrite (validateAuthTimestamp_age unix_sec unix_nsec clock_sec
                      clock_nsec v authDate Hv) in Hnone by lia.
           destruct (day <? age unix_sec unix_nsec v) eqn:E; [discriminate |].
           now apply Z.ltb_ge in E.
        -- rewrite (validateAuthTimestamp_parsed _ _ _ HP) in Hnone.
           rewrite (Since_Unix_wrapped unix_sec unix_nsec clock_sec clock_nsec)
             in Hnone by lia.
           discriminate.
      * destruct HP as [n HP].
        rewrite (validateAuthTimestamp_invalid _ _ _ _ HP) in Hnone. discriminate.
    + destruct HP as (n & e & HP).
      rewrite (validateAuthTimestamp_invalid _ _ _ _ HP) in Hnone. discriminate.
  - intros (ts & Hv & Hts & Hage).
    rewrite (validateAuthTimestamp_age unix_sec unix_nsec clock_sec clock_nsec
               ts authDate Hv Hts).
    apply Z.ltb_ge in Hage. now rewrite Hage.
Qed.

(** X3.  The signature gate.  For a payload that parses - 10000 parameters at
    most, no semicolon, no ill-formed escape -, holds a [user] and a [hash],
    and carries a timestamp that [time.Unix] represents and that is no older
    than 24 hours, the call
    prints the signature that it expects next to the one it received, and it
    accepts exactly when the received [hash] is the lower-case hexadecimal
    text of that signature: it then answers what the user decoder answers on
    the [user] field.  Any other hash gives [ErrInvalidHash] with the zero
    profile. *)
Theorem VerifyWebAppData_signature_gate (ts : Z) (payload token : string) :
  let params : gmap string string := list_to_map (payload_pairs payload) in
  let expected :=
    computeHMAC (createDataCheckString params (index params "auth_date")) token in
  well_formed payload = true ->
  index params "hash" <> EmptyString ->
  index params "user" <> EmptyString ->
  decimal_value (index params "auth_date") = Some ts ->
  - 2 ^ 63 <= ts <= maxUnix ->
  age unix_sec unix_nsec ts <= day ->
  VerifyWebAppData (time.Now unix_sec unix_nsec) payload token
  = if String.eqb (index params "hash") expected
    then mkOutcome (fst (decodeUserData (index params "user")))
                   (snd (decodeUserData (index params "user")))
                   [Println expected expected]
    else mkOutcome zeroUser (Some ErrInvalidHash)
                   [Println expected (index params "hash")].
Proof.
  intros params expected Hwf Hh Hu Hv Hts Hage.
  apply ParseQuery_well_formed in Hwf.
  rewrite (VerifyWebAppData_fresh unix_sec unix_nsec clock_sec clock_nsec
             ts payload token Hwf);
    [| apply validateRequiredFields_None; repeat split;
       [exact Hh | exact Hu | exact (decimal_value_nonempty _ _ Hv)]
     | exact Hv | exact Hts | exact Hage].
  fold params. rewrite validateDataSignature_eq. fold expected.
  destruct (String.eqb_spec (index params "hash") expected) as [->|Hne].
  - now destruct (decodeUserData (index params "user")).
  - reflexivity.
Qed.

(** X4.  What acceptance implies.  When the call returns no error, the
    payload parses; its [hash] is the signature computed over its other
    fields with the token; its [user] is not empty and decodes, without an
    error, to the profile returned; its [auth_date] writes a timestamp that
    [time.Unix] represents and that is no older than 24 hours; and the one
    line printed holds the signature twice. *)
Theorem VerifyWebAppData_accepted (payload token : string) :
  let out := VerifyWebAppData (time.Now unix_sec unix_nsec) payload token in
  let params : gmap string string := list_to_map (payload_pairs payload) in
  err out = None ->
  well_formed payload = true
  /\ index params "hash"
     = computeHMAC (createDataCheckString (delete "hash" params)
                                          (index params "auth_date")) token
  /\ String.length (index params "hash") = 64%nat
  /\ index params "user" <> EmptyString
  /\ decodeUserData (index params "user") = (user out, None)
  /\ (exists ts, decimal_value (index params "auth_date") = Some ts
                 /\ - 2 ^ 63 <= ts <= maxUnix
                 /\ age unix_sec unix_nsec ts <= day)
  /\ stdout out = [Println (index params "hash") (index params "hash")].
Proof.
  intros out params Herr. subst out.
  destruct (well_formed payload) eqn:Hwf.
  2:{ exfalso. unfold VerifyWebAppData in Herr.
      destruct (snd (url.ParseQuery payload)) as [e|] eqn:He.
      - rewrite (parseInitData_error _ _ He) in Herr. discriminate.
      - apply ParseQuery_well_formed in He. congruence. }
  pose proof (proj2 (proj1 (ParseQuery_well_formed payload)) Hwf) as Hp.
  pose proof (parseInitData_first payload Hp) as Hparse.
  fold params in Hparse.
  assert (Hhash : default EmptyString (first_occurrence "hash" (payload_pairs payload))
                  = index params "hash").
  { unfold index, params. now rewrite <- first_occurrence_list_to_map. }
  rewrite Hhash in Hparse.
  unfold VerifyWebAppData in *. rewrite Hparse in *.
  destruct (validateRequiredFields params) eqn:Hr; [discriminate |].
  destruct (validateAuthTimestamp (time.Now unix_sec unix_nsec)
              (index params "auth_date")) eqn:Ht; [discriminate |].
  apply validateRequiredFields_None in Hr as (Hh & Hu & Ha).
  apply validateAuthTimestamp_None in Ht.
  rewrite validateDataSignature_eq in *.
  rewrite canonical_delete_hash.
  destruct (String.eqb_spec (index params "hash")
              (computeHMAC
                 (createDataCheckString params (index params "auth_date")) token))
    as [Heq|Hne]; [| discriminate].
  destruct (decodeUserData (index params "user")) as [u e] eqn:Hd.
  cbn [err user stdout] in *. subst e.
  split; [reflexivity |]. split; [exact Heq |].
  split; [rewrite Heq; apply computeHMAC_length |].
  split; [exact Hu |]. split; [reflexivity |]. split; [exact Ht |].
  now rewrite <- Heq.
Qed.

End Gate.
(* ===================================================================== *)
(** ** The integration test *)
(* ===================================================================== *)

Lemma QueryEscape_unreserved (s : string) :
  unreserved_text s = true -> url.QueryEscape s = s.
Proof.
  induction s as [|c s IH]; [reflexivity |].
  cbn [unreserved_text url.QueryEscape]. unfold unreserved.
  intros H. apply andb_prop in H as [Hc Hs]. apply andb_prop in Hc as [H1 H2].
  apply negb_true_iff in H1, H2. rewrite H1, H2, (IH Hs). reflexivity.
Qed.

Lemma lower_hex_unreserved (c : ascii) : lower_hex c -> unreserved c = true.
Proof.
  unfold lower_hex.
  each_byte c; first [reflexivity | vm_compute; intros [[H1 H2]|[H1 H2]]; congruence].
Qed.

Lemma lower_hex_unreserved_text (s : string) :
  Forall lower_hex (list_ascii_of_string s) -> unreserved_text s = true.
Proof.
  induction s as [|c s IH]; [reflexivity |].
  cbn [list_ascii_of_string unreserved_text]. intros H.
  apply Forall_cons in H as [Hc Hs].
  now rewrite (lower_hex_unreserved c Hc), (IH Hs).
Qed.

Lemma computeHMAC_unreserved (s t : string) : unreserved_text (computeHMAC s t) = true.
Proof.
  apply lower_hex_unreserved_text. rewrite computeHMAC_Signer. apply hex_lower.
Qed.

Lemma digits_unreserved (s : string) :
  forall acc v, digits_value s acc = Some v -> unreserved_text s = true.
Proof.
  induction s as [|c s IH]; [reflexivity |].
  intros acc v. cbn [digits_value unreserved_text].
  destruct ((48 <=? byte_of_ascii c) && (byte_of_ascii c <=? 57)) eqn:Hd;
    [| discriminate].
  intros H. rewrite (IH _ _ H), andb_true_r. clear H IH.
  revert Hd. each_byte c; vm_compute; congruence.
Qed.

(** A decimal text without a [+] is made of unreserved bytes. *)
Lemma decimal_unreserved (s : string) (v : Z) :
  decimal_value s = Some v -> strings.Contains "+" s = false ->
  unreserved_text s = true.
Proof.
  destruct s as [|c r]; [discriminate |].
  unfold decimal_value. cbn [strings.Contains].
  destruct (Ascii.eqb c "+") eqn:Eplus; [discriminate |].
  destruct (Ascii.eqb c "-") eqn:Eminus.
  - apply Ascii.eqb_eq in Eminus. subst c.
    destruct (String.eqb r EmptyString); [discriminate |].
    destruct (digits_value r 0) as [w|] eqn:Hw; [| discriminate].
    intros _ _. cbn [unreserved_text]. now rewrite (digits_unreserved r 0 w Hw).
  - intros H _. exact (digits_unreserved _ _ _ H).
Qed.

(** The init data of the integration test is the form encoding of its three
    fields. *)
Lemma test_initData_encode_pairs (userJSON authDate token : string) :
  unreserved_text authDate = true ->
  test_initData userJSON authDate token
  = encode_pairs [("auth_date", authDate); ("user", userJSON);
                  ("hash", test_hash userJSON authDate token)].
Proof.
  intros Ha. unfold test_initData, encode_pairs.
  cbn [map fst snd strings.Join].
  rewrite (QueryEscape_unreserved authDate Ha).
  assert (Hh : unreserved_text (test_hash userJSON authDate token) = true)
    by (unfold test_hash; apply computeHMAC_unreserved).
  rewrite (QueryEscape_unreserved _ Hh).
  change (url.QueryEscape "auth_date") with "auth_date".
  change (url.QueryEscape "user") with "user".
  change (url.QueryEscape "hash") with "hash".
  rewrite !append_assoc. reflexivity.
Qed.

Lemma test_fields_delete_hash (userJSON authDate h : string) :
  delete "hash" (list_to_map [("auth_date", authDate); ("user", userJSON);
                              ("hash", h)] : gmap string string)
  = <["user" := userJSON]> (<["auth_date" := authDate]> ∅).
Proof.
  cbn [list_to_map foldr fst snd]. apply map_eq. intros k.
  destruct (String.eqb_spec k "hash") as [->|Hh]; [reflexivity |].
  destruct (String.eqb_spec k "auth_date") as [->|Ha]; [reflexivity |].
  destruct (String.eqb_spec k "user") as [->|Hu]; [reflexivity |].
  rewrite fin_maps.lookup_delete_ne by (intro; congruence).
  rewrite !lookup_insert_ne by (intro; congruence). reflexivity.
Qed.

(* ===================================================================== *)
(** ** The errors of the call *)
(* ===================================================================== *)









(* ===================================================================== *)
(** ** The clock *)
(* ===================================================================== *)

(** Between two readings of the clock the timestamp check changes its answer
    in one way only: to [ErrDataExpired]. *)
Lemma validateAuthTimestamp_later (s1 n1 s2 n2 : Z) (authDate : string) :
  - time.unixToInternal <= s1 < 2 ^ 62 -> 0 <= n1 < 1000000000 ->
  - time.unixToInternal <= s2 < 2 ^ 62 -> 0 <= n2 < 1000000000 ->
  s1 * 1000000000 + n1 <= s2 * 1000000000 + n2 ->
  validateAuthTimestamp (time.Now s2 n2) authDate
  = validateAuthTimestamp (time.Now s1 n1) authDate
  \/ validateAuthTimestamp (time.Now s2 n2) authDate = Some ErrDataExpired.
Proof.
  intros Hs1 Hn1 Hs2 Hn2 Hle.
  assert (Hu : maxUnix = 9223371974719179007) by reflexivity.
  pose proof (ParseInt_spec authDate) as HP.
  destruct (decimal_value authDate) as [v|] eqn:Hv.
  - destruct ((- 2 ^ 63 <=? v) && (v <? 2 ^ 63)) eqn:Hr.
    + apply andb_prop in Hr as [H1 H2].
      apply Z.leb_le in H1. apply Z.ltb_lt in H2.
      destruct (Z_le_gt_dec v maxUnix) as [Hsmall|Hbig].
      * rewrite (validateAuthTimestamp_age s1 n1 Hs1 Hn1 v authDate Hv) by lia.
        rewrite (validateAuthTimestamp_age s2 n2 Hs2 Hn2 v authDate Hv) by lia.
        unfold age.
        destruct (day <? (s2 - v) * 1000000000 + n2) eqn:E2; [now right | left].
        apply Z.ltb_ge in E2.
        rewrite (proj2 (Z.ltb_ge _ _)) by lia. reflexivity.
      * right. rewrite (validateAuthTimestamp_parsed _ _ _ HP).
        rewrite (Since_Unix_wrapped s2 n2 Hs2 Hn2) by lia. reflexivity.
    + destruct HP as [n HP]. left.
      now rewrite !(validateAuthTimestamp_invalid _ _ _ _ HP).
  - destruct HP as (n & e & HP). left.
    now rewrite !(validateAuthTimestamp_invalid _ _ _ _ HP).
Qed.

(** X7.  The clock matters through expiry alone.  Of two calls on the same
    payload and token, the later one gives what the earlier one gave, or
    fails with [ErrDataExpired] and prints nothing; a payload that was
    rejected as expired is rejected as expired ever after. *)
Theorem VerifyWebAppData_later_clock (s1 n1 s2 n2 : Z) (payload token : string) :
  - time.unixToInternal <= s1 < 2 ^ 62 -> 0 <= n1 < 1000000000 ->
  - time.unixToInternal <= s2 < 2 ^ 62 -> 0 <= n2 < 1000000000 ->
  s1 * 1000000000 + n1 <= s2 * 1000000000 + n2 ->
  let earlier := VerifyWebAppData (time.Now s1 n1) payload token in
  let later := VerifyWebAppData (time.Now s2 n2) payload token in
  (later = earlier \/ later = mkOutcome zeroUser (Some ErrDataExpired) [])
  /\ (err earlier = Some ErrDataExpired -> later = earlier).
Proof.
  intros Hs1 Hn1 Hs2 Hn2 Hle earlier later.
  assert (H : later = earlier
              \/ later = mkOutcome zeroUser (Some ErrDataExpired) []).
  { subst earlier later. unfold VerifyWebAppData.
    destruct (parseInitData payload) as [[params hashValue] [e|]]; [now left |].
    destruct (validateRequiredFields params); [now left |].
    destruct (validateAuthTimestamp_later s1 n1 s2 n2 (index params "auth_date")
                Hs1 Hn1 Hs2 Hn2 Hle) as [-> | ->]; [now left | now right]. }
  split; [exact H |].
  intros He. destruct H as [H|H]; [exact H |].
  rewrite H. subst earlier. clear H later. revert He.
  unfold VerifyWebAppData.
  destruct (parseInitData payload) as [[params hashValue] [e|]]; [discriminate |].
  destruct (validateRequiredFields params) as [e|] eqn:Hr.
  { unfold validateRequiredFields in Hr.
    repeat (destruct (String.eqb _ EmptyString) in Hr;
            [injection Hr as <-; discriminate |]).
    discriminate. }
  destruct (validateAuthTimestamp (time.Now s1 n1) (index params "auth_date"))
    as [e|] eqn:Ht.
  { cbn [err]. now intros [= ->]. }
  rewrite validateDataSignature_eq.
  destruct (String.eqb hashValue _); [| discriminate].
  unfold decodeUserData.
  destruct (url.QueryUnescape (index params "user")) as [d [x|]]; [discriminate |].
  destruct (json.Unmarshal d zeroUser) as [u [x|]]; discriminate.
Qed.
(* ===================================================================== *)
(** ** What the data-check string determines *)
(* ===================================================================== *)

Lemma Join_sorted_inj (l l' : list string) :
  sort.Strings l <> [] -> sort.Strings l' <> [] ->
  Forall (fun a => strings.Contains linefeed a = false) l ->
  Forall (fun a => strings.Contains linefeed a = false) l' ->
  strings.Join (sort.Strings l) newline = strings.Join (sort.Strings l') newline ->
  l ≡ₚ l'.
Proof.
  intros Hl Hl' Hall Hall' Heq.
  apply (f_equal (strings.segments linefeed)) in Heq.
  change newline with (String linefeed EmptyString) in Heq.
  rewrite !segments_Join in Heq;
    [| exact Hl' | now rewrite Strings_Permutation
     | exact Hl | now rewrite Strings_Permutation].
  rewrite <- (Strings_Permutation l), <- (Strings_Permutation l'). now rewrite Heq.
Qed.

Lemma dataCheckPairs_cut (m : gmap string string) (a : string) :
  plain_fields m ->
  map (strings.Cut "=") (dataCheckPairs (map_to_list m) a)
  = filter (fun kv => fst kv <> "hash" /\ fst kv <> "auth_date") (map_to_list m)
    ++ [("auth_date", a)].
Proof.
  intros Hm. rewrite dataCheckPairs_lines, map_app. f_equal.
  assert (H : Forall (fun kv => strings.Contains "=" (fst kv) = false)
                     (map_to_list m)).
  { apply Forall_forall. intros [k v] Hkv. apply elem_of_map_to_list in Hkv.
    now apply (Hm k v). }
  induction H as [|[k v] l Hk Hl IH]; [reflexivity |].
  rewrite filter_cons. cbn [fst].
  destruct (decide (k <> "hash" /\ k <> "auth_date")); [| exact IH].
  cbn [map fst snd]. rewrite IH. f_equal.
  change (k +:+ "=" +:+ v) with (k +:+ String "=" v). now apply Cut_app.
Qed.

Lemma dataCheckPairs_plain (m : gmap string string) (a : string) :
  plain_fields m -> strings.Contains linefeed a = false ->
  Forall (fun x => strings.Contains linefeed x = false)
         (dataCheckPairs (map_to_list m) a).
Proof.
  intros Hm Ha. rewrite dataCheckPairs_lines. apply Forall_app. split.
  - apply Forall_forall. intros x Hx.
    apply list_elem_of_fmap in Hx as ([k v] & -> & Hkv).
    apply list_elem_of_filter in Hkv as [_ Hkv].
    apply elem_of_map_to_list in Hkv. destruct (Hm k v Hkv) as (_ & Hk & Hv).
    cbn [fst snd]. now rewrite !Contains_app, Hk, Hv.
  - constructor; [| constructor]. now rewrite Contains_app, Ha.
Qed.

Lemma signed_fields_lookup (m : gmap string string) (k : string) :
  signed_fields m !! k
  = if String.eqb k "hash" || String.eqb k "auth_date" then None else m !! k.
Proof.
  unfold signed_fields.
  destruct (String.eqb_spec k "auth_date") as [->|Ha].
  - rewrite orb_true_r. apply lookup_delete_eq.
  - rewrite fin_maps.lookup_delete_ne by (intro; congruence).
    destruct (String.eqb_spec k "hash") as [->|Hh].
    + apply lookup_delete_eq.
    + now rewrite fin_maps.lookup_delete_ne by (intro; congruence).
Qed.

(** X8.  The data-check string is unambiguous on plain fields.  When no key
    holds a [=] or a line feed and no value holds a line feed, two calls of
    [createDataCheckString] give the same string only for the same
    [authDate] and the same fields other than [hash] and [auth_date]. *)
Theorem createDataCheckString_injective (m m' : gmap string string)
  (a a' : string) :
  plain_fields m -> plain_fields m' ->
  strings.Contains linefeed a = false -> strings.Contains linefeed a' = false ->
  createDataCheckString m a = createDataCheckString m' a' ->
  a = a' /\ signed_fields m = signed_fields m'.
Proof.
  intros Hm Hm' Ha Ha' Heq.
  unfold createDataCheckString, createDataCheckString_in in Heq.
  apply Join_sorted_inj in Heq;
    [| apply dataCheckPairs_nonempty | apply dataCheckPairs_nonempty
     | now apply dataCheckPairs_plain | now apply dataCheckPairs_plain].
  apply (Permutation_map (strings.Cut "=")) in Heq.
  rewrite (dataCheckPairs_cut m a Hm), (dataCheckPairs_cut m' a' Hm') in Heq.
  assert (Hin : forall (x y : gmap string string) (b b' : string),
    filter (fun kv => fst kv <> "hash" /\ fst kv <> "auth_date") (map_to_list x)
      ++ [("auth_date", b)]
    ≡ₚ filter (fun kv => fst kv <> "hash" /\ fst kv <> "auth_date") (map_to_list y)
         ++ [("auth_date", b')] ->
    b = b'
    /\ forall k v, k <> "hash" -> k <> "auth_date" ->
         x !! k = Some v -> y !! k = Some v).
  { intros x y b b' Hp. split.
    - assert (H : ("auth_date", b) ∈
                  filter (fun kv => fst kv <> "hash" /\ fst kv <> "auth_date")
                         (map_to_list y) ++ [("auth_date", b')]).
      { rewrite <- Hp. apply elem_of_app. right. now left. }
      apply elem_of_app in H as [H|H].
      + apply list_elem_of_filter in H as [[_ H] _]. now destruct H.
      + apply list_elem_of_singleton in H. congruence.
    - intros k v Hh Hd Hx.
      assert (H : (k, v) ∈
                  filter (fun kv => fst kv <> "hash" /\ fst kv <> "auth_date")
                         (map_to_list y) ++ [("auth_date", b')]).
      { rewrite <- Hp. apply elem_of_app. left.
        apply list_elem_of_filter. split; [now split |].
        now apply elem_of_map_to_list. }
      apply elem_of_app in H as [H|H].
      + apply list_elem_of_filter in H as [_ H]. now apply elem_of_map_to_list in H.
      + apply list_elem_of_singleton in H. congruence. }
  destruct (Hin m m' a a' Heq) as [Haa Hmm].
  destruct (Hin m' m a' a (symmetry Heq)) as [_ Hmm'].
  split; [exact Haa |].
  apply map_eq. intros k. rewrite !signed_fields_lookup.
  destruct (String.eqb_spec k "hash") as [->|Hh]; [reflexivity |].
  destruct (String.eqb_spec k "auth_date") as [->|Hd]; [reflexivity |].
  cbn [orb].
  destruct (m !! k) as [v|] eqn:Hk.
  - symmetry. now apply Hmm.
  - destruct (m' !! k) as [v'|] eqn:Hk'; [| reflexivity].
    rewrite (Hmm' k v' Hh Hd Hk') in Hk. discriminate.
Qed.

Lemma length_append (a b : string) :
  String.length (a +:+ b) = (String.length a + String.length b)%nat.
Proof.
  induction a as [|x a IH]; [reflexivity |].
  rewrite append_cons. cbn [String.length Nat.add]. now rewrite IH.
Qed.

Lemma createDataCheckString_insert (m : gmap string string) (k v a : string) :
  m !! k = None -> k <> "hash" -> k <> "auth_date" ->
  dataCheckPairs (map_to_list (<[k := v]> m)) a
  ≡ₚ (k +:+ "=" +:+ v) :: dataCheckPairs (map_to_list m) a.
Proof.
  intros Hk Hh Hd. rewrite !dataCheckPairs_lines.
  rewrite (map_to_list_insert m k v Hk).
  rewrite filter_cons. cbn [fst]. rewrite decide_True by tauto. reflexivity.
Qed.

(** X9.  A [=] in a key makes the data-check string ambiguous.  The key and
    the value are joined by a [=] that is not escaped, so, for a key [k]
    other than [hash] and [auth_date], a field named [k=v] with the value
    [w] and a field named [k] with the value [v=w] give the same line: added
    to a field map that has neither key, they make two field maps that
    differ, give the same data-check string, and pass the signature check
    with the same hashes. *)
Theorem createDataCheckString_ambiguous (m : gmap string string)
  (k v w a : string) :
  let m1 : gmap string string := <[k +:+ "=" +:+ v := w]> m in
  let m2 : gmap string string := <[k := v +:+ "=" +:+ w]> m in
  k <> "hash" -> k <> "auth_date" ->
  m !! k = None -> m !! (k +:+ "=" +:+ v) = None ->
  m1 <> m2
  /\ createDataCheckString m1 a = createDataCheckString m2 a
  /\ forall receivedHash token,
       validateDataSignature m1 receivedHash token
       = validateDataSignature m2 receivedHash token.
Proof.
  intros m1 m2 Hh Hd Hk Hkv.
  assert (Hc : strings.Contains "=" (k +:+ "=" +:+ v) = true).
  { rewrite !Contains_app. cbn [strings.Contains Ascii.eqb].
    now rewrite orb_true_r. }
  assert (Hne : k +:+ "=" +:+ v <> k).
  { intros E. apply (f_equal String.length) in E.
    rewrite !length_append in E. cbn [String.length] in E. lia. }
  assert (Hh1 : k +:+ "=" +:+ v <> "hash")
    by (intros E; rewrite E in Hc; discriminate).
  assert (Hd1 : k +:+ "=" +:+ v <> "auth_date")
    by (intros E; rewrite E in Hc; discriminate).
  assert (Hs : forall b, createDataCheckString m1 b = createDataCheckString m2 b).
  { intros b. unfold createDataCheckString, createDataCheckString_in. f_equal.
    apply Strings_Permutation_eq. subst m1 m2.
    rewrite (createDataCheckString_insert m _ w b Hkv Hh1 Hd1).
    rewrite (createDataCheckString_insert m _ (v +:+ "=" +:+ w) b Hk Hh Hd).
    now rewrite !append_assoc. }
  split; [| split].
  - intros E. apply (f_equal (fun x : gmap string string => x !! k)) in E.
    subst m1 m2. rewrite lookup_insert_eq, lookup_insert_ne in E by exact Hne.
    congruence.
  - apply Hs.
  - intros receivedHash token. unfold validateDataSignature.
    assert (Hi : index m1 "auth_date" = index m2 "auth_date").
    { unfold index. subst m1 m2.
      rewrite !lookup_insert_ne by (intro; congruence). reflexivity. }
    now rewrite Hi, Hs.
Qed.
(* ===================================================================== *)
(** ** The earlier version *)
(* ===================================================================== *)

(** The values that [url.ParseQuery] keeps under a key are never an empty
    list; the field map holds the first of them. *)
Lemma ParseQuery_lookup (payload k : string) :
  snd (url.ParseQuery payload) = None ->
  fst (url.ParseQuery payload) !! k
  = match values_of k (payload_pairs payload) with
    | [] => None
    | vs => Some vs
    end.
Proof.
  intros Hok. rewrite (ParseQuery_values payload Hok), add_value_lookup, lookup_empty.
  destruct (values_of k (payload_pairs payload)); reflexivity.
Qed.

Lemma ParseQuery_fmap (payload : string) :
  snd (url.ParseQuery payload) = None ->
  (list_to_map (payload_pairs payload) : gmap string string)
  = hd EmptyString <$> fst (url.ParseQuery payload).
Proof.
  intros Hok. apply map_eq. intros k.
  rewrite lookup_fmap, (ParseQuery_lookup _ _ Hok), <- first_occurrence_list_to_map,
    first_occurrence_values.
  destruct (values_of k (payload_pairs payload)); reflexivity.
Qed.

Lemma ParseQuery_Get (payload k : string) :
  snd (url.ParseQuery payload) = None ->
  url.Get (fst (url.ParseQuery payload)) k
  = index (list_to_map (payload_pairs payload)) k.
Proof.
  intros Hok. unfold url.Get, index.
  rewrite (ParseQuery_lookup _ _ Hok), <- first_occurrence_list_to_map,
    first_occurrence_values.
  destruct (values_of k (payload_pairs payload)); reflexivity.
Qed.

Lemma dataToCheck_fold (order : list (string * list string)) :
  Forall (fun kv => snd kv <> []) order ->
  forall acc,
    fold_left
      (fun acc kv =>
         match acc with
         | None => None
         | Some lines =>
             if String.eqb (fst kv) "hash" then Some lines
             else
               match snd kv with
               | v0 :: _ => Some (lines ++ [fst kv +:+ "=" +:+ v0])
               | [] => None
               end
         end)
      order (Some acc)
    = Some (acc ++ map (fun kv => fst kv +:+ "=" +:+ snd kv)
                       (filter (fun kv => fst kv <> "hash")
                               (map (fun kv => (fst kv, hd EmptyString (snd kv)))
                                    order))).
Proof.
  induction 1 as [|[k vs] order Hk Ho IH]; intros acc; cbn [fold_left map].
  - now rewrite app_nil_r.
  - rewrite filter_cons. cbn [fst snd] in *.
    destruct (String.eqb_spec k "hash") as [->|Hne].
    + rewrite decide_False by tauto. apply IH.
    + rewrite decide_True by exact Hne.
      destruct vs as [|v0 vs]; [congruence |].
      rewrite IH. cbn [map fst snd hd]. now rewrite <- app_assoc.
Qed.

(** The lines of the earlier version are those of its data-check string. *)
Lemma dataToCheck_lines (payload : string) (order : list (string * list string)) :
  snd (url.ParseQuery payload) = None ->
  order ≡ₚ map_to_list (fst (url.ParseQuery payload)) ->
  exists lines,
    legacy.dataToCheck order = Some lines
    /\ strings.Join (sort.Strings lines) newline
       = legacy.dataCheckString (list_to_map (payload_pairs payload)).
Proof.
  intros Hok Hp.
  assert (Hne : Forall (fun kv => snd kv <> []) order).
  { apply Forall_forall. intros [k vs] Hkv. rewrite Hp in Hkv.
    apply elem_of_map_to_list in Hkv. rewrite (ParseQuery_lookup _ _ Hok) in Hkv.
    cbn [snd]. destruct (values_of k (payload_pairs payload)); congruence. }
  eexists. split; [exact (dataToCheck_fold order Hne []) |].
  unfold legacy.dataCheckString. f_equal. apply Strings_Permutation_eq.
  cbn [app]. apply Permutation_map.
  rewrite (ParseQuery_fmap _ Hok), map_to_list_fmap.
  apply filter_Permutation. rewrite Hp.
  apply Permutation_map' with (f := fun kv : string * list string =>
                                     (fst kv, hd EmptyString (snd kv))).
  reflexivity.
Qed.

Lemma filter_ext_elem {A : Type} (P Q : A -> Prop)
  `{!forall x, Decision (P x)} `{!forall x, Decision (Q x)} (l : list A) :
  (forall x, x ∈ l -> P x <-> Q x) -> filter P l = filter Q l.
Proof.
  induction l as [|x l IH]; intros Hall; [reflexivity |].
  rewrite !filter_cons.
  assert (Hx : P x <-> Q x) by (apply Hall; now left).
  rewrite IH by (intros y Hy; apply Hall; now right).
  destruct (decide (P x)), (decide (Q x)); tauto || reflexivity.
Qed.

(** With an [auth_date] among the fields, the earlier version signs the
    string that [createDataCheckString] makes of them. *)
Lemma dataCheckString_auth_date (params : gmap string string) (a : string) :
  params !! "auth_date" = Some a ->
  legacy.dataCheckString params = createDataCheckString params a.
Proof.
  intros Ha. unfold legacy.dataCheckString, createDataCheckString,
    createDataCheckString_in.
  f_equal. apply Strings_Permutation_eq. rewrite dataCheckPairs_lines.
  rewrite <- (map_to_list_delete params "auth_date" a Ha).
  rewrite !filter_cons. cbn [fst].
  rewrite decide_True by discriminate. rewrite decide_False by tauto.
  cbn [map fst snd]. rewrite Permutation_cons_append.
  apply Permutation_app_tail.
  rewrite (filter_ext_elem (fun kv : string * string => fst kv <> "hash")
             (fun kv => fst kv <> "hash" /\ fst kv <> "auth_date")); [reflexivity |].
  intros [k v] Hkv. apply elem_of_map_to_list in Hkv. cbn [fst].
  split; [| tauto]. intros Hh. split; [exact Hh |]. intros ->.
  rewrite lookup_delete_eq in Hkv. discriminate.
Qed.

(** X10.  The earlier [VerifyWebAppData], the one of the README.  For every
    decoder and every order of [range], the call never panics on [v[0]]: a
    payload that does not parse - more than 10000 parameters, a semicolon,
    an ill-formed escape - gives the parse error with the zero profile;
    one that parses is accepted exactly when its [hash] is the signature of
    the lines of all its other fields, [auth_date] included as a field like
    any other, and is then decoded from the [user] field as it is; any
    other hash gives [HashIsNotValid].  With an [auth_date] among the fields
    the string signed is the one of [createDataCheckString]. *)
Theorem legacy_VerifyWebAppData_spec
  (Unmarshal : string -> legacy.WebAppUser -> legacy.WebAppUser * option legacy.cause)
  (order : list (string * list string)) (payload token : string) :
  let params : gmap string string := list_to_map (payload_pairs payload) in
  let expected := computeHMAC (legacy.dataCheckString params) token in
  let out := legacy.VerifyWebAppData_in Unmarshal order payload token in
  order ≡ₚ map_to_list (fst (url.ParseQuery payload)) ->
  out <> None
  /\ (well_formed payload = false ->
      exists cause, parse_cause cause
        /\ out = Some (Some (legacy.ErrorParsingData cause), legacy.zeroUser))
  /\ (well_formed payload = true -> index params "hash" <> expected ->
      out = Some (Some legacy.HashIsNotValid, legacy.zeroUser))
  /\ (well_formed payload = true -> index params "hash" = expected ->
      out = Some match Unmarshal (index params "user") legacy.zeroUser with
                 | (user, Some e) => (Some (legacy.CannotParseUser e), user)
                 | (user, None) => (None, user)
                 end)
  /\ (forall a, params !! "auth_date" = Some a ->
      legacy.dataCheckString params = createDataCheckString params a).
Proof.
  intros params expected out Hp.
  pose proof (ParseQuery_well_formed payload) as [Hiff Hcause].
  assert (Hok : well_formed payload = true ->
    out = if negb (String.eqb (index params "hash") expected)
          then Some (Some legacy.HashIsNotValid, legacy.zeroUser)
          else Some match Unmarshal (index params "user") legacy.zeroUser with
                    | (user, Some e) => (Some (legacy.CannotParseUser e), user)
                    | (user, None) => (None, user)
                    end).
  { intros Hwf. apply Hiff in Hwf. subst out. unfold legacy.VerifyWebAppData_in.
    destruct (dataToCheck_lines payload order Hwf Hp) as (lines & Hl & Hj).
    fold params in Hj.
    pose proof (ParseQuery_Get payload "hash" Hwf) as Hh.
    pose proof (ParseQuery_Get payload "user" Hwf) as Hu.
    destruct (url.ParseQuery payload) as [values e]. cbn [fst snd] in *. subst e.
    rewrite Hl. cbv zeta. rewrite Hj, Hh, Hu. fold params.
    change (hex.EncodeToString _) with expected.
    destruct (Unmarshal (index params "user") legacy.zeroUser) as [u [e|]];
      reflexivity. }
  assert (Hbad : well_formed payload = false ->
    exists cause, parse_cause cause
      /\ out = Some (Some (legacy.ErrorParsingData cause), legacy.zeroUser)).
  { intros Hwf. subst out. unfold legacy.VerifyWebAppData_in.
    destruct (url.ParseQuery payload) as [values [e|]] eqn:Hq; cbn [snd] in *.
    - exists e. split; [now apply Hcause | reflexivity].
    - rewrite (proj1 Hiff eq_refl) in Hwf. discriminate. }
  split; [| split; [exact Hbad | split; [| split]]].
  - destruct (well_formed payload) eqn:Hwf.
    + rewrite (Hok eq_refl). destruct (negb _); discriminate.
    + destruct (Hbad eq_refl) as (c & _ & ->). discriminate.
  - intros Hwf Hne. rewrite (Hok Hwf).
    now rewrite (proj2 (String.eqb_neq _ _) Hne).
  - intros Hwf Heq. rewrite (Hok Hwf).
    now rewrite (proj2 (String.eqb_eq _ _) Heq).
  - intros a. apply dataCheckString_auth_date.
Qed.

(** What [VerifyWebAppData] accepts passes the signature check of the
    earlier version. *)
Lemma accepted_fields (now : time.Time) (payload token : string) :
  err (VerifyWebAppData now payload token) = None ->
  let params : gmap string string := list_to_map (payload_pairs payload) in
  well_formed payload = true
  /\ index params "auth_date" <> EmptyString
  /\ index params "hash"
     = computeHMAC (createDataCheckString params (index params "auth_date")) token.
Proof.
  intros Herr params.
  destruct (well_formed payload) eqn:Hwf.
  2:{ exfalso. unfold VerifyWebAppData in Herr.
      destruct (snd (url.ParseQuery payload)) as [e|] eqn:He.
      - rewrite (parseInitData_error _ _ He) in Herr. discriminate.
      - apply ParseQuery_well_formed in He. congruence. }
  pose proof (proj2 (proj1 (ParseQuery_well_formed payload)) Hwf) as Hp.
  pose proof (parseInitData_first payload Hp) as Hparse.
  fold params in Hparse.
  assert (Hhash : default EmptyString (first_occurrence "hash" (payload_pairs payload))
                  = index params "hash").
  { unfold index, params. now rewrite <- first_occurrence_list_to_map. }
  rewrite Hhash in Hparse.
  unfold VerifyWebAppData in Herr. rewrite Hparse in Herr.
  destruct (validateRequiredFields params) eqn:Hr; [discriminate |].
  destruct (validateAuthTimestamp now (index params "auth_date")); [discriminate |].
  apply validateRequiredFields_None in Hr as (_ & _ & Ha).
  rewrite validateDataSignature_eq in Herr.
  destruct (String.eqb_spec (index params "hash")
              (computeHMAC
                 (createDataCheckString params (index params "auth_date")) token))
    as [Heq|Hne]; [| discriminate].
  auto.
Qed.

(** X11.  The two versions.  A payload that [VerifyWebAppData] accepts, at
    any time, is one whose hash the earlier version accepts too, with the
    same token: the earlier call gets as far as its decoder, which reads the
    [user] field as it is.  The checks that the later version adds - the
    required fields, the age of the timestamp - only reject. *)
Theorem legacy_accepts_accepted
  (Unmarshal : string -> legacy.WebAppUser -> legacy.WebAppUser * option legacy.cause)
  (now : time.Time) (payload token : string) :
  err (VerifyWebAppData now payload token) = None ->
  legacy.VerifyWebAppData Unmarshal payload token
  = Some match Unmarshal (index (list_to_map (payload_pairs payload)) "user")
                         legacy.zeroUser with
         | (user, Some e) => (Some (legacy.CannotParseUser e), user)
         | (user, None) => (None, user)
         end.
Proof.
  intros Herr.
  destruct (accepted_fields now payload token Herr) as (Hwf & Ha & Hh).
  set (params := list_to_map (payload_pairs payload) : gmap string string) in *.
  assert (Hlookup : params !! "auth_date" = Some (index params "auth_date")).
  { unfold index in *. destruct (params !! "auth_date"); [reflexivity |].
    now destruct Ha. }
  apply ParseQuery_well_formed in Hwf.
  destruct (dataToCheck_lines payload
              (map_to_list (fst (url.ParseQuery payload))) Hwf (reflexivity _))
    as (lines & Hl & Hj).
  fold params in Hj. rewrite (dataCheckString_auth_date params _ Hlookup) in Hj.
  unfold legacy.VerifyWebAppData, legacy.VerifyWebAppData_in.
  pose proof (ParseQuery_Get payload "hash" Hwf) as Hgh.
  pose proof (ParseQuery_Get payload "user" Hwf) as Hgu.
  destruct (url.ParseQuery payload) as [values e]. cbn [fst snd] in *. subst e.
  rewrite Hl. cbv zeta. rewrite Hj, Hgh, Hgu. fold params.
  change (hex.EncodeToString _)
    with (computeHMAC (createDataCheckString params (index params "auth_date"))
                      token).
  rewrite <- Hh, String.eqb_refl. cbn [negb].
  destruct (Unmarshal (index params "user") legacy.zeroUser) as [u [e|]];
    reflexivity.
Qed.
(* ===================================================================== *)
(** ** The format of the hash *)
(* ===================================================================== *)

(** X12.  The test of the signature check, for every input.  Whatever the
    fields and the token, [validateDataSignature] accepts the hash that
    [computeHMAC] gives for the data-check string of the fields, and it
    accepts a received hash only if that is a text of 64 lower-case
    hexadecimal digits: every other text, [invalid_hash_value] and a hash
    written in upper case among them, gives [ErrInvalidHash]. *)
Theorem validateDataSignature_format (params : gmap string string)
  (receivedHash token : string) :
  let correctHash :=
    computeHMAC (createDataCheckString params (index params "auth_date")) token in
  snd (validateDataSignature params correctHash token) = None
  /\ (snd (validateDataSignature params receivedHash token) = None ->
      String.length receivedHash = 64%nat
      /\ Forall lower_hex (list_ascii_of_string receivedHash))
  /\ (String.length receivedHash <> 64%nat ->
      snd (validateDataSignature params receivedHash token) = Some ErrInvalidHash).
Proof.
  intros correctHash.
  assert (Hacc : snd (validateDataSignature params receivedHash token) = None ->
                 receivedHash = correctHash).
  { rewrite validateDataSignature_eq. cbn [snd]. fold correctHash.
    destruct (String.eqb_spec receivedHash correctHash); [auto | discriminate]. }
  split; [| split].
  - rewrite validateDataSignature_eq. cbn [snd]. fold correctHash.
    now rewrite String.eqb_refl.
  - intros H. rewrite (Hacc H). subst correctHash.
    split; [apply computeHMAC_length |].
    rewrite computeHMAC_Signer. apply hex_lower.
  - intros Hlen. rewrite validateDataSignature_eq. cbn [snd]. fold correctHash.
    destruct (String.eqb_spec receivedHash correctHash) as [->|]; [| reflexivity].
    exfalso. apply Hlen. apply computeHMAC_length.
Qed.

(* ===================================================================== *)
(** ** The user decoder on flat objects *)
(* ===================================================================== *)

Lemma append_empty_r (a : string) : a +:+ EmptyString = a.
Proof.
  induction a as [|x a IH]; [reflexivity |]. now rewrite append_cons, IH.
Qed.

Lemma scan_string_body (body : string) :
  forall (rest l k : string) (ps : list json.pstate) (et : bool)
         (t : option json.summary) (ms : list (string * json.summary)),
    plain_text body = true ->
    json.scanBytes (json.mkScanner json.InString ps et l k t ms)
                   (body +:+ String quote rest)
    = json.scanBytes
        (json.mkScanner json.EndValue ps et (l +:+ body +:+ String quote EmptyString)
                        k t ms)
        rest.
Proof.
  induction body as [|c body IH]; intros rest l k ps et t ms Hp.
  - rewrite !append_empty. reflexivity.
  - cbn [plain_text] in Hp. apply andb_prop in Hp as [Hc Hb].
    unfold plain_byte in Hc.
    apply andb_prop in Hc as [Hc H80]. apply andb_prop in Hc as [Hc H20].
    apply andb_prop in Hc as [Hq Hbs].
    apply negb_true_iff in Hq, Hbs, H20.
    rewrite append_cons. cbn [json.scanBytes].
    unfold json.stepByte. cbn [json.step]. rewrite Hq, Hbs, H20.
    unfold json.continue. cbn [json.parseState json.endTop json.lit json.key
                                 json.top json.members].
    rewrite (IH rest _ k ps et t ms Hb).
    now rewrite !append_assoc, !append_cons, !append_empty.
Qed.

Lemma scan_digits (ds : string) :
  forall (rest l k : string) (ps : list json.pstate) (et : bool)
         (t : option json.summary) (ms : list (string * json.summary)),
    digits ds = true ->
    json.scanBytes (json.mkScanner json.St1 ps et l k t ms) (ds +:+ rest)
    = json.scanBytes (json.mkScanner json.St1 ps et (l +:+ ds) k t ms) rest.
Proof.
  induction ds as [|c ds IH]; intros rest l k ps et t ms Hd.
  - now rewrite append_empty, append_empty_r.
  - cbn [digits] in Hd. apply andb_prop in Hd as [Hc Hd].
    rewrite append_cons. cbn [json.scanBytes].
    unfold json.stepByte. cbn [json.step]. rewrite Hc.
    unfold json.continue. cbn [json.parseState json.endTop json.lit json.key
                                 json.top json.members].
    rewrite (IH rest _ k ps et t ms Hd).
    now rewrite !append_assoc, !append_cons, !append_empty.
Qed.

Lemma digit19_begins (c : ascii) :
  json.isDigit19 c = true ->
  Ascii.eqb c "0" = false /\ Ascii.eqb c "-" = false /\ json.isDigit c = true
  /\ forall s, json.stateBeginValue s c = Some (json.begin s c json.St1).
Proof.
  each_byte c; intros H; vm_compute in H; try discriminate H; repeat split.
Qed.

Lemma summary_of_number (text : string) :
  integer_literal text = true -> json.summary_of text = json.SNumber text.
Proof.
  destruct text as [|c r]; [discriminate |].
  unfold integer_literal, natural_literal. intros H.
  assert (Hc : Ascii.eqb c "-" = true \/ Ascii.eqb c "0" = true
               \/ json.isDigit19 c = true).
  { destruct (Ascii.eqb c "-"); [now left | right].
    destruct (Ascii.eqb c "0"); [now left | right].
    now apply andb_prop in H as [H _]. }
  clear H. revert Hc.
  each_byte c; intros [H|[H|H]]; vm_compute in H; try discriminate H; reflexivity.
Qed.

(** The scanner over the text of a value. *)
Lemma scan_value (v : jvalue) :
  value_ok v = true ->
  forall (rest l k : string) (ps : list json.pstate) (et : bool)
         (t : option json.summary) (ms : list (string * json.summary)),
  exists st,
    (st = json.EndValue \/ st = json.St0 \/ st = json.St1)
    /\ json.scanBytes (json.mkScanner json.BeginValue ps et l k t ms)
                      (value_text v +:+ rest)
       = json.scanBytes (json.mkScanner st ps et (value_text v) k t ms) rest.
Proof.
  intros Hv rest l k ps et t ms.
  destruct v as [| [|] | text | body]; cbn [value_ok value_text] in *.
  - exists json.EndValue. split; [now left | reflexivity].
  - exists json.EndValue. split; [now left | reflexivity].
  - exists json.EndValue. split; [now left | reflexivity].
  - destruct text as [|c r]; [discriminate |].
    unfold integer_literal in Hv.
    destruct (Ascii.eqb c "-") eqn:Hminus.
    + apply Ascii.eqb_eq in Hminus. subst c.
      destruct r as [|d r]; [discriminate |].
      unfold natural_literal in Hv.
      destruct (Ascii.eqb d "0") eqn:Hzero.
      * apply Ascii.eqb_eq in Hzero. subst d.
        apply String.eqb_eq in Hv. subst r.
        exists json.St0. split; [auto | reflexivity].
      * apply andb_prop in Hv as [Hd Hr].
        destruct (digit19_begins d Hd) as (_ & _ & _ & _).
        exists json.St1. split; [auto |].
        rewrite !append_cons. cbn [json.scanBytes].
        change (json.stepByte (json.mkScanner json.BeginValue ps et l k t ms) "-")
          with (Some (json.mkScanner json.Neg ps et "-" k t ms)).
        cbv iota. unfold json.stepByte at 1. cbn [json.step].
        rewrite Hzero, Hd. unfold json.continue.
        cbn [json.parseState json.endTop json.lit json.key json.top json.members].
        rewrite (scan_digits r rest _ k ps et t ms Hr).
        now rewrite !append_cons, !append_empty.
    + unfold natural_literal in Hv.
      destruct (Ascii.eqb c "0") eqn:Hzero.
      * apply Ascii.eqb_eq in Hzero. subst c.
        apply String.eqb_eq in Hv. subst r.
        exists json.St0. split; [auto | reflexivity].
      * apply andb_prop in Hv as [Hd Hr].
        destruct (digit19_begins c Hd) as (_ & _ & _ & Hb).
        exists json.St1. split; [auto |].
        rewrite !append_cons. cbn [json.scanBytes].
        unfold json.stepByte at 1. cbn [json.step]. rewrite Hb.
        unfold json.begin.
        cbn [json.parseState json.endTop json.lit json.key json.top json.members].
        rewrite (scan_digits r rest _ k ps et t ms Hr).
        now rewrite !append_cons, !append_empty.
  - exists json.EndValue. split; [now left |].
    rewrite append_cons. cbn [json.scanBytes].
    change (json.stepByte (json.mkScanner json.BeginValue ps et l k t ms) quote)
      with (Some (json.mkScanner json.InString ps et (String quote EmptyString)
                                 k t ms)).
    cbv iota. rewrite append_assoc, append_cons, append_empty.
    rewrite (scan_string_body body rest _ k ps et t ms Hv).
    now rewrite !append_cons, !append_empty.
Qed.

Lemma summary_of_value (v : jvalue) :
  value_ok v = true -> json.summary_of (value_text v) = value_summary v.
Proof.
  destruct v as [| [|] | text | body]; try reflexivity.
  apply summary_of_number.
Qed.

Lemma value_text_nonempty (v : jvalue) :
  value_ok v = true -> exists c r, value_text v = String c r.
Proof.
  destruct v as [| [|] | [|c r] | body]; cbn; eauto. discriminate.
Qed.

(** The byte after a value of the top-level object: a comma or the closing
    brace. *)
Lemma value_end (st : json.sstate) (c0 : ascii) (l0 k : string) (et : bool)
  (t : option json.summary) (ms : list (string * json.summary)) :
  st = json.EndValue \/ st = json.St0 \/ st = json.St1 ->
  json.stepByte (json.mkScanner st [json.parseObjectValue] et (String c0 l0) k t ms) ","
  = Some (json.mkScanner json.BeginString [json.parseObjectKey] et EmptyString k t
            (ms ++ [(k, json.summary_of (String c0 l0))]))
  /\ json.stepByte (json.mkScanner st [json.parseObjectValue] et (String c0 l0) k t ms) "}"
     = Some (json.mkScanner json.EndTop [] true EmptyString k t
               (ms ++ [(k, json.summary_of (String c0 l0))])).
Proof. intros [->|[->| ->]]; split; reflexivity. Qed.

Lemma substring_prefix (a b : string) :
  String.substring 0 (String.length a) (a +:+ b) = a.
Proof.
  induction a as [|x a IH]; [now destruct b |].
  rewrite append_cons. cbn [String.length String.substring]. now rewrite IH.
Qed.

Lemma unquoteBody_plain (s : string) :
  plain_text s = true -> json.unquoteBody 0 s = s.
Proof.
  induction s as [|c s IH]; [reflexivity |].
  cbn [plain_text]. intros H. apply andb_prop in H as [Hc Hs].
  unfold plain_byte in Hc.
  apply andb_prop in Hc as [Hc H80]. apply andb_prop in Hc as [Hc _].
  apply andb_prop in Hc as [_ Hbs]. apply negb_true_iff in Hbs.
  cbn [json.unquoteBody]. rewrite Hbs, H80, (IH Hs). reflexivity.
Qed.

Lemma unquote_plain (s : string) :
  plain_text s = true ->
  json.unquote (String quote (s +:+ String quote EmptyString)) = s.
Proof.
  intros H. unfold json.unquote.
  rewrite length_append. cbn [String.length].
  replace (String.length s + 1 - 1)%nat with (String.length s) by lia.
  rewrite substring_prefix. now apply unquoteBody_plain.
Qed.

(** The scanner over the key of a member and its colon. *)
Lemma scan_key (st : json.sstate) (k rest l0 k0 : string) (et : bool)
  (t : option json.summary) (ms : list (string * json.summary)) :
  st = json.BeginStringOrEmpty \/ st = json.BeginString ->
  plain_text k = true ->
  json.scanBytes (json.mkScanner st [json.parseObjectKey] et l0 k0 t ms)
                 (String quote (k +:+ String quote (String ":" rest)))
  = json.scanBytes
      (json.mkScanner json.BeginValue [json.parseObjectValue] et EmptyString k t ms)
      rest.
Proof.
  intros Hst Hk. cbn [json.scanBytes].
  assert (Hq : json.stepByte (json.mkScanner st [json.parseObjectKey] et l0 k0 t ms)
                             quote
               = Some (json.mkScanner json.InString [json.parseObjectKey] et
                         (String quote EmptyString) k0 t ms))
    by (destruct Hst as [-> | ->]; reflexivity).
  rewrite Hq, (scan_string_body k _ _ k0 _ et t ms Hk).
  rewrite append_cons, append_empty. cbn [json.scanBytes].
  unfold json.stepByte. cbn [json.step]. unfold json.stateEndValue, json.finish.
  cbn [json.lit json.parseState]. rewrite (unquote_plain k Hk). reflexivity.
Qed.

(** The scanner over a member of the top-level object and the byte after
    it. *)
Lemma scan_member (st : json.sstate) (k : string) (v : jvalue)
  (rest l0 k0 : string) (et : bool) (t : option json.summary)
  (ms : list (string * json.summary)) :
  st = json.BeginStringOrEmpty \/ st = json.BeginString ->
  plain_text k = true -> value_ok v = true ->
  json.scanBytes (json.mkScanner st [json.parseObjectKey] et l0 k0 t ms)
                 (member_text (k, v) +:+ String "," rest)
  = json.scanBytes
      (json.mkScanner json.BeginString [json.parseObjectKey] et EmptyString k t
                      (ms ++ [(k, value_summary v)]))
      rest
  /\ json.scanBytes (json.mkScanner st [json.parseObjectKey] et l0 k0 t ms)
                    (member_text (k, v) +:+ String "}" rest)
     = json.scanBytes
         (json.mkScanner json.EndTop [] true EmptyString k t
                         (ms ++ [(k, value_summary v)]))
         rest.
Proof.
  intros Hst Hk Hv.
  assert (Hm : forall tail,
    member_text (k, v) +:+ tail
    = String quote (k +:+ String quote (String ":" (value_text v +:+ tail)))).
  { intros tail. unfold member_text. cbn [fst snd].
    now rewrite append_cons, append_assoc, !append_cons. }
  destruct (value_text_nonempty v Hv) as (c0 & r0 & Htext).
  rewrite <- (summary_of_value v Hv).
  split.
  - rewrite Hm, (scan_key st k _ l0 k0 et t ms Hst Hk).
    destruct (scan_value v Hv (String "," rest) EmptyString k
                [json.parseObjectValue] et t ms) as (st' & Hst' & ->).
    rewrite Htext. cbn [json.scanBytes].
    now rewrite (proj1 (value_end st' c0 r0 k et t ms Hst')).
  - rewrite Hm, (scan_key st k _ l0 k0 et t ms Hst Hk).
    destruct (scan_value v Hv (String "}" rest) EmptyString k
                [json.parseObjectValue] et t ms) as (st' & Hst' & ->).
    rewrite Htext. cbn [json.scanBytes].
    now rewrite (proj2 (value_end st' c0 r0 k et t ms Hst')).
Qed.

(** The scanner over the members of the top-level object and its closing
    brace. *)
Lemma scan_members (members : list (string * jvalue)) :
  members <> [] -> forallb member_ok members = true ->
  forall (st : json.sstate) (l0 k0 : string) (et : bool)
         (t : option json.summary) (ms : list (string * json.summary)),
    st = json.BeginStringOrEmpty \/ st = json.BeginString ->
    exists k,
      json.scanBytes (json.mkScanner st [json.parseObjectKey] et l0 k0 t ms)
                     (strings.Join (map member_text members) "," +:+ "}")
      = Some (json.mkScanner json.EndTop [] true EmptyString k t
                (ms ++ map (fun kv => (fst kv, value_summary (snd kv))) members)).
Proof.
  induction members as [|[k v] members IH]; [congruence |].
  intros _ Hok st l0 k0 et t ms Hst.
  cbn [forallb] in Hok. apply andb_prop in Hok as [Hkv Hok].
  unfold member_ok in Hkv. cbn [fst snd] in Hkv.
  apply andb_prop in Hkv as [Hk Hv].
  destruct (scan_member st k v EmptyString l0 k0 et t ms Hst Hk Hv) as [_ Hclose].
  destruct members as [|m members].
  - exists k. cbn [map strings.Join]. exact Hclose.
  - change (strings.Join (map member_text ((k, v) :: m :: members)) ",")
      with (member_text (k, v)
            +:+ String "," (strings.Join (map member_text (m :: members)) ",")).
    rewrite append_assoc, append_cons.
    destruct (scan_member st k v
                (strings.Join (map member_text (m :: members)) "," +:+ "}")
                l0 k0 et t ms Hst Hk Hv) as [-> _].
    destruct (IH ltac:(discriminate) Hok json.BeginString EmptyString k et t
                (ms ++ [(k, value_summary v)]) (or_intror eq_refl)) as [k' ->].
    exists k'. cbn [map fst snd]. now rewrite <- app_assoc.
Qed.

(** [checkValid] on the text of a flat object: the value is an object with
    the members of the text, in their order. *)
Lemma checkValid_object (members : list (string * jvalue)) :
  forallb member_ok members = true ->
  exists s,
    json.checkValid (object_text members) = Some s
    /\ json.top s = Some json.SObject
    /\ json.members s = map (fun kv => (fst kv, value_summary (snd kv))) members.
Proof.
  intros Hok. unfold json.checkValid, object_text. cbn [json.scanBytes].
  change (json.stepByte json.reset "{")
    with (Some (json.mkScanner json.BeginStringOrEmpty [json.parseObjectKey] false
                  EmptyString EmptyString (Some json.SObject) [])).
  cbv iota.
  destruct members as [|m members].
  - eexists. split; [reflexivity |]. split; reflexivity.
  - destruct (scan_members (m :: members) ltac:(discriminate) Hok
                json.BeginStringOrEmpty EmptyString EmptyString false
                (Some json.SObject) [] (or_introl eq_refl)) as [k ->].
    eexists. split; [reflexivity |]. split; reflexivity.
Qed.

(** [json.Unmarshal] and [decodeUserData] on the text of a flat object. *)
Lemma decodeUserData_object (members : list (string * jvalue)) :
  forallb member_ok members = true ->
  json.Unmarshal (object_text members) zeroUser
  = fold_left json.member
              (map (fun kv => (fst kv, value_summary (snd kv))) members)
              (zeroUser, None)
  /\ decodeUserData (url.QueryEscape (object_text members))
     = (fst (json.Unmarshal (object_text members) zeroUser),
        option_map (Errorf_w "json decode failed")
                   (snd (json.Unmarshal (object_text members) zeroUser))).
Proof.
  intros Hok. split.
  - destruct (checkValid_object members Hok) as (s & Hs & Ht & Hm).
    unfold json.Unmarshal. now rewrite Hs, Ht, Hm.
  - unfold decodeUserData. rewrite QueryUnescape_QueryEscape.
    destruct (json.Unmarshal (object_text members) zeroUser) as [u [e|]];
      reflexivity.
Qed.

(* ===================================================================== *)
(** ** The user decoder against its description *)
(* ===================================================================== *)

Lemma foldName_plain (s : string) :
  plain_text s = true -> json.foldName s = upper s.
Proof.
  induction s as [|c s IH]; [reflexivity |].
  cbn [plain_text]. intros H. apply andb_prop in H as [Hc Hs].
  unfold plain_byte in Hc. apply andb_prop in Hc as [_ H80].
  apply Z.ltb_lt in H80.
  cbn [json.foldName upper]. unfold upper_byte. cbv zeta.
  destruct ((97 <=? byte_of_ascii c) && (byte_of_ascii c <=? 122));
    [now rewrite (IH Hs) |].
  rewrite (proj2 (Z.eqb_neq (byte_of_ascii c) 0xC5)) by lia.
  rewrite (proj2 (Z.eqb_neq (byte_of_ascii c) 0xE2)) by lia.
  cbn [andb]. rewrite <- (IH Hs).
  destruct s as [|c1 [|c2 s]]; reflexivity.
Qed.

Lemma find_ext {A : Type} (p q : A -> bool) (l : list A) :
  (forall x, p x = q x) -> List.find p l = List.find q l.
Proof.
  intros H. induction l as [|x l IH]; [reflexivity |].
  cbn [List.find]. now rewrite H, IH.
Qed.

Lemma find_existsb {A : Type} (p : A -> bool) (l : list A) :
  existsb p l = match List.find p l with Some _ => true | None => false end.
Proof.
  induction l as [|x l IH]; [reflexivity |].
  cbn [existsb List.find]. destruct (p x); [reflexivity | exact IH].
Qed.

(** On a plain key the decoder finds the field that the key names. *)
Lemma findField_named (k : string) :
  plain_text k = true -> json.findField k = named_field k.
Proof.
  intros Hk. unfold json.findField, named_field, names.
  rewrite find_existsb.
  destruct (List.find (fun f => String.eqb (json.name f) k) json.fields)
    as [f|] eqn:Hf; cbn [negb andb].
  - rewrite <- Hf. apply find_ext. intros x. now rewrite orb_false_r.
  - assert (Hno : forall x, String.eqb (json.name x) k = false).
    { intros x. pose proof (find_none _ _ Hf x) as H. cbv beta in H. apply H.
      destruct x; cbn; tauto. }
    apply find_ext. intros x. rewrite Hno. cbn [orb].
    rewrite (foldName_plain k Hk). now destruct x.
Qed.

Lemma ParseInt_int64_value (text : string) :
  match int64_value text with
  | Some n => strconv.ParseInt text = (n, None)
  | None => exists m e, strconv.ParseInt text = (m, Some e)
  end.
Proof.
  pose proof (ParseInt_spec text) as HP. unfold int64_value.
  destruct (decimal_value text) as [v|].
  - destruct ((- 2 ^ 63 <=? v) && (v <? 2 ^ 63)); [exact HP |].
    destruct HP as [m HP]. eauto.
  - destruct HP as (m & e & HP). eauto.
Qed.

(** One member, as the decoder stores it and as the description has it. *)
Lemma member_described (u : WebAppUser) (e : option error) (k : string)
  (v : jvalue) :
  plain_text k = true -> value_ok v = true ->
  json.member (u, e) (k, value_summary v)
  = (described u (k, v), if e is None then misfit (k, v) else e).
Proof.
  intros Hk Hv. unfold json.member, described, gives, misfit. cbn [fst snd].
  rewrite (findField_named k Hk).
  destruct (named_field k) as [f|].
  - destruct v as [| b | text | body]; cbn [value_summary value_ok] in *.
    + destruct f, u, e; reflexivity.
    + destruct f, u, e; reflexivity.
    + pose proof (ParseInt_int64_value text) as HP.
      destruct f; unfold json.store;
        cbn [json.kindOf same_field as_int as_bool as_string default];
        try (destruct u, e; reflexivity).
      destruct (int64_value text) as [n|].
      * rewrite HP. destruct u, e; reflexivity.
      * destruct HP as (m & x & ->). destruct u, e; reflexivity.
    + destruct f; unfold json.store;
        cbn [json.kindOf same_field as_int as_bool as_string default];
        rewrite ?(unquote_plain body Hv); destruct u, e; reflexivity.
  - destruct u, e; reflexivity.
Qed.

Lemma members_described (members : list (string * jvalue)) :
  forallb member_ok members = true ->
  forall (u : WebAppUser) (e : option error),
    fold_left json.member
              (map (fun kv => (fst kv, value_summary (snd kv))) members) (u, e)
    = (fold_left described members u,
       if e is None then first_misfit members else e).
Proof.
  induction members as [|[k v] members IH]; intros Hok u e.
  - destruct e; reflexivity.
  - cbn [forallb] in Hok. apply andb_prop in Hok as [Hkv Hok].
    unfold member_ok in Hkv. cbn [fst snd] in Hkv.
    apply andb_prop in Hkv as [Hk Hv].
    cbn [map fold_left fst snd]. rewrite (member_described u e k v Hk Hv).
    rewrite (IH Hok). f_equal. unfold first_misfit. cbn [omap list_omap].
    destruct e as [x|]; [reflexivity |].
    destruct (misfit (k, v)); reflexivity.
Qed.

(** Taking the later value at every member leaves the last one given. *)
Lemma fold_last_given {A B : Type} (pick : B -> option A) (l : list B) :
  forall d, fold_left (fun a x => default a (pick x)) l d
            = default d (last (omap pick l)).
Proof.
  induction l as [|x l IH]; intros d; [reflexivity |].
  cbn [fold_left omap list_omap]. rewrite IH.
  destruct (pick x) as [a|]; [| reflexivity].
  rewrite last_cons. destruct (last (omap pick l)); reflexivity.
Qed.

Lemma described_fields (members : list (string * jvalue)) :
  forall u,
    fold_left described members u
    = mkWebAppUser
        (fold_left (fun a x => default a (gives json.FID as_int x)) members (ID u))
        (fold_left (fun a x => default a (gives json.FIsBot as_bool x)) members
                   (IsBot u))
        (fold_left (fun a x => default a (gives json.FIsPremium as_bool x)) members
                   (IsPremium u))
        (fold_left (fun a x => default a (gives json.FFirstName as_string x)) members
                   (FirstName u))
        (fold_left (fun a x => default a (gives json.FLastName as_string x)) members
                   (LastName u))
        (fold_left (fun a x => default a (gives json.FUsername as_string x)) members
                   (Username u))
        (fold_left (fun a x => default a (gives json.FLanguageCode as_string x))
                   members (LanguageCode u))
        (fold_left (fun a x => default a (gives json.FAddedToAttachmentMenu as_bool x))
                   members (AddedToAttachmentMenu u))
        (fold_left (fun a x => default a (gives json.FAllowsWriteToPm as_bool x))
                   members (AllowsWriteToPm u))
        (fold_left (fun a x => default a (gives json.FPhotoURL as_string x)) members
                   (PhotoURL u)).
Proof.
  induction members as [|m members IH]; intros u; [now destruct u |].
  cbn [fold_left]. rewrite IH. reflexivity.
Qed.

(** [json.Unmarshal] on the text of a flat object, against its
    description. *)
Lemma Unmarshal_described (members : list (string * jvalue)) :
  forallb member_ok members = true ->
  json.Unmarshal (object_text members) zeroUser
  = (stored_profile members, first_misfit members).
Proof.
  intros Hok.
  destruct (decodeUserData_object members Hok) as [-> _].
  rewrite (members_described members Hok), described_fields.
  unfold stored_profile, last_given. now rewrite !fold_last_given.
Qed.

(** X13.  The user decoder on flat objects.  For an object written without
    white space, whose keys and strings hold no escapes and whose numbers
    are integers, [json.Unmarshal] accepts the text and leaves in every
    field the value of the last member, in the order of the text, whose key
    names the field and whose value is of its kind - an integer that 64 bits
    hold for [id] - or the zero value when there is none.  A key names the
    field whose tag it is, or, being no tag, the field whose tag it is when
    the case of letters is ignored; a member that names no field counts for
    nothing, and [null] changes nothing.  The error returned is that of the
    first member whose value does not fit the field it names, and the
    members after it are stored all the same.  [decodeUserData] on the
    escaped text answers the same, the error wrapped. *)
Theorem decodeUserData_flat_object (members : list (string * jvalue)) :
  forallb member_ok members = true ->
  json.Unmarshal (object_text members) zeroUser
  = (stored_profile members, first_misfit members)
  /\ decodeUserData (url.QueryEscape (object_text members))
     = (stored_profile members,
        option_map (Errorf_w "json decode failed") (first_misfit members)).
Proof.
  intros Hok.
  pose proof (Unmarshal_described members Hok) as HU.
  split; [exact HU |].
  destruct (decodeUserData_object members Hok) as [_ ->].
  now rewrite HU.
Qed.

Lemma profile_members_ok (id : string) (u : WebAppUser) :
  integer_literal id = true -> plain_profile u = true ->
  forallb member_ok (profile_members id u) = true.
Proof.
  unfold plain_profile. intros Hid Hu.
  repeat (apply andb_prop in Hu as [Hu ?]).
  unfold profile_members, member_ok. cbn [forallb fst snd value_ok].
  repeat (apply andb_true_intro; split); try assumption; reflexivity.
Qed.

(** What the members of a profile store. *)
Lemma profile_members_stored (id : string) (u : WebAppUser) (n : Z)
  (e : option error) :
  plain_profile u = true ->
  json.store json.FID (json.SNumber id) zeroUser
  = (mkWebAppUser n false false EmptyString EmptyString EmptyString EmptyString
                  false false EmptyString, e) ->
  fold_left json.member
            (map (fun kv => (fst kv, value_summary (snd kv))) (profile_members id u))
            (zeroUser, None)
  = (mkWebAppUser n (IsBot u) (IsPremium u) (FirstName u) (LastName u)
                  (Username u) (LanguageCode u) (AddedToAttachmentMenu u)
                  (AllowsWriteToPm u) (PhotoURL u), e).
Proof.
  unfold plain_profile. intros Hu Hid.
  repeat (apply andb_prop in Hu as [Hu ?]).
  unfold profile_members. cbn [map fst snd value_summary fold_left].
  unfold json.member at 10. cbn [fst snd].
  change (json.findField "id") with (Some json.FID). cbv iota. rewrite Hid.
  unfold json.member.
  change (json.findField "is_bot") with (Some json.FIsBot).
  change (json.findField "is_premium") with (Some json.FIsPremium).
  change (json.findField "first_name") with (Some json.FFirstName).
  change (json.findField "last_name") with (Some json.FLastName).
  change (json.findField "username") with (Some json.FUsername).
  change (json.findField "language_code") with (Some json.FLanguageCode).
  change (json.findField "added_to_attachment_menu")
    with (Some json.FAddedToAttachmentMenu).
  change (json.findField "allows_write_to_pm") with (Some json.FAllowsWriteToPm).
  change (json.findField "photo_url") with (Some json.FPhotoURL).
  unfold json.store.
  cbn [fst snd json.kindOf json.setBool json.setString
       ID IsBot IsPremium FirstName LastName Username LanguageCode
       AddedToAttachmentMenu AllowsWriteToPm PhotoURL].
  rewrite !unquote_plain by assumption.
  destruct e; reflexivity.
Qed.

(** X14.  A profile comes back from its JSON object.  For every profile
    whose strings hold plain bytes, the object with the ten tagged fields,
    escaped, is decoded by [decodeUserData] to that profile, without an
    error, when [id] writes the [ID] as an integer of 64 bits.  When [id]
    writes an integer beyond 64 bits, the decoder returns an
    [UnmarshalTypeError] for the field [id] together with the profile whose
    other nine fields are filled in. *)
Theorem decodeUserData_profile (id : string) (n : Z) (u : WebAppUser) :
  let text := url.QueryEscape (object_text (profile_members id u)) in
  integer_literal id = true -> decimal_value id = Some n ->
  plain_profile u = true ->
  (- 2 ^ 63 <= n < 2 ^ 63 -> ID u = n -> decodeUserData text = (u, None))
  /\ (~ - 2 ^ 63 <= n < 2 ^ 63 -> ID u = 0 ->
      decodeUserData text
      = (u, Some (Errorf_w "json decode failed"
                    (UnmarshalTypeError ("number " +:+ id) "id")))).
Proof.
  intros text Hlit Hv Hu.
  destruct (decodeUserData_object (profile_members id u)
              (profile_members_ok id u Hlit Hu)) as [HU HD].
  pose proof (ParseInt_spec id) as HP. rewrite Hv in HP.
  subst text. rewrite HD, HU. clear HD HU.
  split; intros Hn Hid.
  - rewrite (proj2 (andb_true_iff _ _)) in HP
      by (split; [apply Z.leb_le | apply Z.ltb_lt]; lia).
    rewrite (profile_members_stored id u n None Hu)
      by (unfold json.store; cbn [json.kindOf]; now rewrite HP).
    cbn [fst snd option_map]. rewrite <- Hid. now destruct u.
  - assert (Hr : (- 2 ^ 63 <=? n) && (n <? 2 ^ 63) = false).
    { apply andb_false_iff.
      destruct (Z_le_gt_dec (- 2 ^ 63) n); [right | left];
        [apply Z.ltb_ge | apply Z.leb_gt]; lia. }
    rewrite Hr in HP. destruct HP as [m HP].
    rewrite (profile_members_stored id u 0
               (Some (UnmarshalTypeError ("number " +:+ id) "id")) Hu)
      by (unfold json.store; cbn [json.kindOf]; now rewrite HP).
    cbn [fst snd option_map]. rewrite <- Hid. now destruct u.
Qed.

Lemma digits_Contains (c : ascii) (s : string) :
  json.isDigit c = false -> digits s = true -> strings.Contains c s = false.
Proof.
  intros Hc. induction s as [|x s IH]; [reflexivity |].
  cbn [digits strings.Contains]. intros H. apply andb_prop in H as [Hx Hs].
  rewrite (IH Hs), orb_false_r.
  destruct (Ascii.eqb_spec x c) as [->|]; [congruence | reflexivity].
Qed.

Lemma integer_literal_Contains (c : ascii) (s : string) :
  json.isDigit c = false -> Ascii.eqb "-" c = false ->
  integer_literal s = true -> strings.Contains c s = false.
Proof.
  intros Hc Hm.
  assert (Hnat : forall r, natural_literal r = true -> strings.Contains c r = false).
  { intros [|x r]; [discriminate |]. unfold natural_literal.
    destruct (Ascii.eqb_spec x "0") as [->|Hx].
    - intros Hr. apply String.eqb_eq in Hr. subst r. cbn [strings.Contains].
      destruct (Ascii.eqb_spec "0" c) as [<-|]; [discriminate Hc | reflexivity].
    - intros H. apply andb_prop in H as [Hx19 Hr].
      destruct (digit19_begins x Hx19) as (_ & _ & Hd & _).
      apply (digits_Contains c (String x r) Hc). cbn [digits]. now rewrite Hd. }
  destruct s as [|x r]; [discriminate |]. unfold integer_literal.
  destruct (Ascii.eqb_spec x "-") as [->|Hx]; [| apply Hnat].
  intros H. cbn [strings.Contains]. now rewrite Hm, (Hnat r H).
Qed.

Lemma Join_Contains (c sep : ascii) (l : list string) :
  Ascii.eqb sep c = false ->
  forallb (fun x => negb (strings.Contains c x)) l = true ->
  strings.Contains c (strings.Join l (String sep EmptyString)) = false.
Proof.
  intros Hsep. induction l as [|x l IH]; [reflexivity |].
  cbn [forallb]. intros H. apply andb_prop in H as [Hx Hl].
  apply negb_true_iff in Hx. destruct l as [|y l]; [exact Hx |].
  change (strings.Join (x :: y :: l) (String sep EmptyString))
    with (x +:+ String sep (strings.Join (y :: l) (String sep EmptyString))).
  rewrite Contains_app, Hx. cbn [strings.Contains orb]. now rewrite Hsep, (IH Hl).
Qed.

(** A byte that is not in the keys or values of a flat object, and is not
    one of its five marks, is not in its text. *)
Lemma object_text_Contains (c : ascii) (members : list (string * jvalue)) :
  strings.Contains c (String "{" (String "}" (String quote (String ":" ","))))
  = false ->
  forallb (fun kv => negb (strings.Contains c (fst kv))
                     && negb (strings.Contains c (value_text (snd kv))))
          members = true ->
  strings.Contains c (object_text members) = false.
Proof.
  cbn [strings.Contains]. intros Hmarks Hm.
  repeat (apply orb_false_iff in Hmarks as [? Hmarks]).
  unfold object_text. cbn [strings.Contains].
  rewrite Contains_app. cbn [strings.Contains].
  repeat match goal with H : Ascii.eqb _ c = false |- _ => rewrite H; clear H end.
  cbn [orb]. rewrite orb_false_r.
  change ","%string with (String ","%char EmptyString).
  apply Join_Contains; [assumption |].
  rewrite forallb_forall in Hm. apply forallb_forall. intros x Hx.
  apply in_map_iff in Hx as ([k v] & <- & Hkv). specialize (Hm _ Hkv).
  cbn [fst snd] in Hm. apply andb_prop in Hm as [Hk Hv].
  apply negb_true_iff in Hk, Hv. unfold member_text. cbn [fst snd strings.Contains].
  rewrite Contains_app. cbn [strings.Contains].
  repeat match goal with H : Ascii.eqb _ c = false |- _ => rewrite H end.
  now rewrite Hk, Hv.
Qed.

(** The object of a literal profile holds no [%] and no [+]. *)
Lemma profile_object_literal (id : string) (u : WebAppUser) :
  integer_literal id = true -> literal_profile u = true ->
  literal_text (object_text (profile_members id u)) = true.
Proof.
  unfold literal_profile, literal_text. intros Hid Hu.
  repeat match goal with
         | H : _ && _ = true |- _ => apply andb_prop in H as [? ?]
         | H : negb _ = true |- _ => apply negb_true_iff in H
         end.
  pose proof (integer_literal_Contains "%" id eq_refl eq_refl Hid) as Hp.
  pose proof (integer_literal_Contains "+" id eq_refl eq_refl Hid) as Hq.
  rewrite !object_text_Contains; try reflexivity;
    unfold profile_members;
    destruct (IsBot u), (IsPremium u), (AddedToAttachmentMenu u), (AllowsWriteToPm u);
    cbn [forallb fst snd value_text strings.Contains];
    rewrite ?Contains_app; cbn [strings.Contains];
    repeat match goal with
           | H : strings.Contains _ _ = false |- _ => rewrite H; clear H
           end;
    reflexivity.
Qed.

(** [decodeUserData] on the object of a literal profile, as it is. *)
Lemma decodeUserData_profile_literal (id : string) (u : WebAppUser) :
  integer_literal id = true -> decimal_value id = Some (ID u) ->
  - 2 ^ 63 <= ID u < 2 ^ 63 ->
  plain_profile u = true -> literal_profile u = true ->
  decodeUserData (object_text (profile_members id u)) = (u, None).
Proof.
  intros Hlit Hv Hn Hplain Hu.
  pose proof (profile_object_literal id u Hlit Hu) as Ht.
  unfold literal_text in Ht. apply andb_prop in Ht as [Hp Hq].
  apply negb_true_iff in Hp, Hq.
  unfold decodeUserData.
  rewrite (QueryUnescape_plus _ Hp), (plus_to_space_no_plus _ Hq).
  destruct (decodeUserData_object (profile_members id u)
              (profile_members_ok id u Hlit Hplain)) as [-> _].
  pose proof (ParseInt_spec id) as HP. rewrite Hv in HP.
  rewrite (proj2 (andb_true_iff _ _)) in HP
    by (split; [apply Z.leb_le | apply Z.ltb_lt]; lia).
  rewrite (profile_members_stored id u (ID u) None Hplain)
    by (unfold json.store; cbn [json.kindOf]; now rewrite HP).
  now destruct u.
Qed.
Section Integration.

Variables unix_sec unix_nsec : Z.
Hypothesis clock_sec : - time.unixToInternal <= unix_sec < 2 ^ 62.
Hypothesis clock_nsec : 0 <= unix_nsec < 1000000000.

(** X5.  The integration test of the package, for every input.  The init
    data that the test builds around a user text, a timestamp and a token -
    the text signed as it is, escaped in the payload - passes all checks
    with that token as long as the user text is not empty and the timestamp,
    written in decimal without a [+], is one that [time.Unix] represents (at
    most [maxUnix]) and is no older than 24 hours: the call then answers
    what the user decoder answers on the user text.  When the user text is
    the JSON object of a profile whose strings hold plain bytes other than
    [%] and [+], with the [ID] written as an integer of 64 bits, the call
    returns that profile and no error.  With another token the call fails with [ErrInvalidHash], unless
    the two tokens give the same signature. *)
Theorem VerifyWebAppData_integration (ts : Z)
  (userJSON authDate token token' : string) :
  let now := time.Now unix_sec unix_nsec in
  let initData := test_initData userJSON authDate token in
  let hash := test_hash userJSON authDate token in
  userJSON <> EmptyString ->
  decimal_value authDate = Some ts ->
  strings.Contains "+" authDate = false ->
  - 2 ^ 63 <= ts <= maxUnix ->
  age unix_sec unix_nsec ts <= day ->
  VerifyWebAppData now initData token
  = mkOutcome (fst (decodeUserData userJSON)) (snd (decodeUserData userJSON))
              [Println hash hash]
  /\ (forall (id : string) (u : WebAppUser),
        userJSON = object_text (profile_members id u) ->
        integer_literal id = true -> decimal_value id = Some (ID u) ->
        - 2 ^ 63 <= ID u < 2 ^ 63 ->
        plain_profile u = true -> literal_profile u = true ->
        VerifyWebAppData now initData token = mkOutcome u None [Println hash hash])
  /\ (test_hash userJSON authDate token' <> hash ->
      VerifyWebAppData now initData token'
      = mkOutcome zeroUser (Some ErrInvalidHash)
                  [Println (test_hash userJSON authDate token') hash]).
Proof.
  intros now initData hash Hu Hv Hplus Hts Hage.
  pose proof (decimal_unreserved authDate ts Hv Hplus) as Ha.
  set (pairs := [("auth_date", authDate); ("user", userJSON); ("hash", hash)]).
  assert (Hinit : initData = encode_pairs pairs)
    by apply (test_initData_encode_pairs userJSON authDate token Ha).
  assert (Hpairs : payload_pairs initData = pairs)
    by (rewrite Hinit; apply payload_pairs_encode_pairs).
  assert (Hwf : snd (url.ParseQuery initData) = None)
    by (apply ParseQuery_well_formed; rewrite Hinit;
        apply well_formed_encode_pairs; unfold pairs; cbn [length]; lia).
  set (params := list_to_map pairs : gmap string string).
  assert (Hia : index params "auth_date" = authDate) by reflexivity.
  assert (Hiu : index params "user" = userJSON) by reflexivity.
  assert (Hih : index params "hash" = hash) by reflexivity.
  assert (Hstage : forall t,
    VerifyWebAppData now initData t
    = match validateDataSignature params hash t with
      | (eff, Some e) => mkOutcome zeroUser (Some e) (printed eff)
      | (eff, None) =>
          let '(u, e) := decodeUserData userJSON in mkOutcome u e (printed eff)
      end).
  { intros t. subst now.
    pose proof (VerifyWebAppData_fresh unix_sec unix_nsec clock_sec clock_nsec
                  ts initData t Hwf) as HF.
    cbv zeta in HF. rewrite Hpairs in HF. fold params in HF.
    rewrite Hih, Hiu, Hia in HF.
    apply HF; [| exact Hv | exact Hts | exact Hage].
    apply validateRequiredFields_None. rewrite Hih, Hiu, Hia.
    repeat split; [| exact Hu | exact (decimal_value_nonempty _ _ Hv)].
    intros Hempty.
    pose proof (computeHMAC_length
      (createDataCheckString (<["user" := userJSON]> (<["auth_date" := authDate]> ∅))
                             authDate) token) as Hlen.
    fold (test_hash userJSON authDate token) in Hlen. fold hash in Hlen.
    rewrite Hempty in Hlen. discriminate. }
  assert (Hexp : forall t,
    computeHMAC (createDataCheckString params (index params "auth_date")) t
    = test_hash userJSON authDate t).
  { intros t. rewrite Hia, <- canonical_delete_hash. unfold params, pairs.
    rewrite test_fields_delete_hash. unfold test_hash. reflexivity. }
  assert (Hsame : VerifyWebAppData now initData token
                  = mkOutcome (fst (decodeUserData userJSON))
                              (snd (decodeUserData userJSON)) [Println hash hash]).
  { rewrite Hstage, validateDataSignature_eq, Hexp. fold hash.
    rewrite String.eqb_refl. now destruct (decodeUserData userJSON). }
  split; [exact Hsame |]. split.
  - intros id u Hjson Hlit Hid Hn Hplain Hliteral.
    rewrite Hsame, Hjson.
    now rewrite (decodeUserData_profile_literal id u Hlit Hid Hn Hplain Hliteral).
  - intros Hne. rewrite Hstage, validateDataSignature_eq, Hexp.
    destruct (String.eqb_spec hash (test_hash userJSON authDate token'));
      [congruence | reflexivity].
Qed.

End Integration.

(* ===================================================================== *)
(** ** Further instances *)
(* ===================================================================== *)
(** Instances *)

Lemma VerifyWebAppData_signature_gate_witness :
  well_formed "auth_date=1625097522&user=x&hash=00" = true
  /\ age 1625097622 0 1625097522 <= day
  /\ err (VerifyWebAppData (time.Now 1625097622 0)
            "auth_date=1625097522&user=x&hash=00" "test_token")
     = Some ErrInvalidHash.
Proof.
  assert (Hs : - time.unixToInternal <= 1625097622 < 2 ^ 62)
    by (vm_compute; intuition discriminate).
  assert (Hn : 0 <= 0 < 1000000000) by lia.
  assert (Hwf : well_formed "auth_date=1625097522&user=x&hash=00" = true)
    by reflexivity.
  assert (Hage : age 1625097622 0 1625097522 <= day) by (vm_compute; discriminate).
  split; [exact Hwf |]. split; [exact Hage |].
  rewrite (VerifyWebAppData_signature_gate 1625097622 0 Hs Hn 1625097522
             "auth_date=1625097522&user=x&hash=00" "test_token" Hwf);
    [vm_compute; reflexivity | vm_compute; discriminate | vm_compute; discriminate
    | vm_compute; reflexivity | vm_compute; split; discriminate | exact Hage].
Defined.

Lemma VerifyWebAppData_accepted_witness :
  err (VerifyWebAppData (time.Now 1625097622 0) scenario_payload scenario_token)
  = None
  /\ String.length (index (list_to_map (payload_pairs scenario_payload)) "hash")
     = 64%nat.
Proof.
  assert (Hs : - time.unixToInternal <= 1625097622 < 2 ^ 62)
    by (vm_compute; intuition discriminate).
  assert (Hn : 0 <= 0 < 1000000000) by lia.
  assert (He : err (VerifyWebAppData (time.Now 1625097622 0) scenario_payload
                      scenario_token) = None) by (vm_compute; reflexivity).
  split; [exact He |].
  destruct (VerifyWebAppData_accepted 1625097622 0 Hs Hn scenario_payload
              scenario_token He) as (_ & _ & Hlen & _).
  exact Hlen.
Defined.

Lemma VerifyWebAppData_integration_witness :
  let u := mkWebAppUser 12345 false false "Test" "User" "testuser" "ru"
                        false false EmptyString in
  decimal_value "1625097522" = Some 1625097522
  /\ user (VerifyWebAppData (time.Now 1625097622 0)
             (test_initData (object_text (profile_members "12345" u))
                            "1625097522" "test_token_12345")
             "test_token_12345") = u
  /\ err (VerifyWebAppData (time.Now 1625097622 0)
            (test_initData (object_text (profile_members "12345" u))
                           "1625097522" "test_token_12345")
            "test_token_12345") = None.
Proof.
  intros u.
  assert (Hs : - time.unixToInternal <= 1625097622 < 2 ^ 62)
    by (vm_compute; intuition discriminate).
  assert (Hn : 0 <= 0 < 1000000000) by lia.
  split; [reflexivity |].
  destruct (VerifyWebAppData_integration 1625097622 0 Hs Hn 1625097522
              (object_text (profile_members "12345" u))
              "1625097522" "test_token_12345" "wrong_token")
    as (_ & H & _);
    [vm_compute; discriminate | reflexivity | reflexivity
    | vm_compute; split; discriminate | vm_compute; discriminate |].
  assert (Hr : - 2 ^ 63 <= 12345 < 2 ^ 63) by lia.
  rewrite (H "12345" u eq_refl eq_refl eq_refl Hr eq_refl eq_refl).
  split; reflexivity.
Defined.


Lemma VerifyWebAppData_later_clock_witness :
  1625097522 * 1000000000 + 0 <= 1800000000 * 1000000000 + 0
  /\ VerifyWebAppData (time.Now 1800000000 0) scenario_payload scenario_token
     = mkOutcome zeroUser (Some ErrDataExpired) [].
Proof.
  assert (H1 : - time.unixToInternal <= 1625097522 < 2 ^ 62)
    by (vm_compute; intuition discriminate).
  assert (H2 : - time.unixToInternal <= 1800000000 < 2 ^ 62)
    by (vm_compute; intuition discriminate).
  assert (Hn : 0 <= 0 < 1000000000) by lia.
  assert (Hle : 1625097522 * 1000000000 + 0 <= 1800000000 * 1000000000 + 0) by lia.
  split; [exact Hle |].
  destruct (VerifyWebAppData_later_clock 1625097522 0 1800000000 0
              scenario_payload scenario_token H1 Hn H2 Hn Hle) as [[H|H] _].
  - rewrite H. exfalso. revert H. vm_compute. discriminate.
  - exact H.
Defined.

Lemma createDataCheckString_injective_witness :
  createDataCheckString (<["user" := "u"]> ∅) "1"
  = createDataCheckString (<["hash" := "h"]> (<["user" := "u"]> ∅)) "1"
  /\ signed_fields (<["user" := "u"]> ∅)
     = signed_fields (<["hash" := "h"]> (<["user" := "u"]> ∅)).
Proof.
  assert (Heq : createDataCheckString (<["user" := "u"]> ∅) "1"
                = createDataCheckString (<["hash" := "h"]> (<["user" := "u"]> ∅)) "1")
    by (vm_compute; reflexivity).
  split; [exact Heq |].
  apply (createDataCheckString_injective _ _ "1" "1"); [| | reflexivity
                                                         | reflexivity | exact Heq].
  - intros k v H. apply lookup_insert_Some in H as [[<- <-]|[_ H]];
      [repeat split | discriminate].
  - intros k v H. apply lookup_insert_Some in H as [[<- <-]|[_ H]];
      [repeat split |].
    apply lookup_insert_Some in H as [[<- <-]|[_ H]];
      [repeat split | discriminate].
Defined.

Lemma createDataCheckString_ambiguous_witness :
  (<["a=b" := "c"]> ∅ : gmap string string) <> <["a" := "b=c"]> ∅
  /\ createDataCheckString (<["a=b" := "c"]> ∅) "1"
     = createDataCheckString (<["a" := "b=c"]> ∅) "1".
Proof.
  destruct (createDataCheckString_ambiguous ∅ "a" "b" "c" "1")
    as (Hne & Heq & _); [discriminate | discriminate | reflexivity | reflexivity |].
  split; [exact Hne | exact Heq].
Defined.

Lemma legacy_VerifyWebAppData_spec_witness :
  legacy.VerifyWebAppData (fun _ u => (u, None)) "auth_date=1&hash=00" "test_token"
  = Some (Some legacy.HashIsNotValid, legacy.zeroUser).
Proof.
  destruct (legacy_VerifyWebAppData_spec (fun _ u => (u, None))
              (map_to_list (fst (url.ParseQuery "auth_date=1&hash=00")))
              "auth_date=1&hash=00" "test_token" (reflexivity _))
    as (_ & _ & H & _).
  apply H; [reflexivity | vm_compute; discriminate].
Defined.

Lemma legacy_accepts_accepted_witness :
  err (VerifyWebAppData (time.Now 1625097622 0) scenario_payload scenario_token)
  = None
  /\ legacy.VerifyWebAppData (fun _ u => (u, None)) scenario_payload scenario_token
     = Some (None, legacy.zeroUser).
Proof.
  assert (He : err (VerifyWebAppData (time.Now 1625097622 0) scenario_payload
                      scenario_token) = None) by (vm_compute; reflexivity).
  split; [exact He |].
  exact (legacy_accepts_accepted (fun _ u => (u, None)) _ _ _ He).
Defined.

Lemma decodeUserData_flat_object_witness :
  json.Unmarshal
    (object_text [("id", JNumber "7"); ("nick", JString "x"); ("ID", JNumber "8");
                  ("first_name", JNumber "5"); ("is_bot", JBool true)])
    zeroUser
  = (mkWebAppUser 8 true false EmptyString EmptyString EmptyString EmptyString
                  false false EmptyString,
     Some (UnmarshalTypeError "number" "first_name")).
Proof.
  destruct (decodeUserData_flat_object
              [("id", JNumber "7"); ("nick", JString "x"); ("ID", JNumber "8");
               ("first_name", JNumber "5"); ("is_bot", JBool true)]
              eq_refl) as [H _].
  rewrite H. vm_compute. reflexivity.
Defined.

Lemma decodeUserData_profile_witness :
  let u := mkWebAppUser 0 true false "Test" "User" "testuser" "ru"
                        false true EmptyString in
  decodeUserData
    (url.QueryEscape (object_text (profile_members "9223372036854775808" u)))
  = (u, Some (Errorf_w "json decode failed"
                (UnmarshalTypeError "number 9223372036854775808" "id"))).
Proof.
  intros u.
  destruct (decodeUserData_profile "9223372036854775808" 9223372036854775808 u
              eq_refl eq_refl eq_refl) as [_ H].
  apply H; [| reflexivity]. intros [_ Hlt]. revert Hlt. vm_compute. discriminate.
Defined.

Lemma parseInitData_encode_pairs_witness :
  parseInitData (encode_pairs [("a b", "1&2"); ("hash", "h"); ("a b", "3")])
  = (list_to_map [("a b", "1&2"); ("hash", "h"); ("a b", "3")], "h", None).
Proof.
  apply (parseInitData_encode_pairs [("a b", "1&2"); ("hash", "h"); ("a b", "3")]).
  cbn [length]. lia.
Defined.
